(** * The detection-record pipeline of OpenCV-YOLO (ch3/scripts)

    A shallow embedding of the three scripts that make up the pipeline:

    - [export_detections.py]  : label-line parser, coordinate conversion,
                                image lookup;
    - [refine_detections.py]  : confidence / class filter;
    - [detection_summary.py]  : per-class summary table;

    and of the argument checks and the overlay geometry of the scripts of
    chapters 1 and 2 ([check_opencv.py], [preprocess_pipeline.py],
    [image_annotation.py]).

    Conventions of the embedding.

    - A Python [float] is a rational number or one of the three special
      values [inf], [-inf], [nan].  The exporter computes in binary64: what
      [float()] reads from a decimal and the result of each product, sum,
      difference and halving is rounded to the nearest binary64, ties to
      the even mantissa, and overflows to an infinity ([Binary64]).  The
      sign of a zero is not kept.  The box of [image_annotation.py] is
      computed with exact products.
    - The refiner compares the confidences it reads back from JSON as
      floats, [nan] included; the summariser reads them as rational
      numbers and leaves the mean that pandas computes open.
    - A Python [int] is a [Z]; a [str] is a [string] of 8-bit characters,
      so text is ASCII.
    - An exception is a value of [exn]; a function that may raise returns
      a [result]. *)

From Stdlib Require Import ZArith QArith Qpower Qround Qabs Qminmax Lqa Lia.
From Stdlib Require Import List String Ascii Bool DecimalString OrdersEx.
From Stdlib Require Import Sorting.Permutation Sorting.Sorted.
From stdpp Require Import gmap strings.
Import ListNotations.

Local Open Scope Z_scope.

(** ** Exceptions

    The exceptions are told apart as the handlers of the scripts do:
    [ValueError] stands for its subclasses too ([UnicodeDecodeError] is
    one), and [OSError] for the errors of the operating system other than
    [FileNotFoundError] ([IsADirectoryError], [PermissionError], ...). *)

Inductive exn : Type :=
| ValueError
| OverflowError
| FileNotFoundError
| OSError.

Inductive result (A : Type) : Type :=
| Ok (a : A)
| Raise (e : exn).

Arguments Ok {A} a.
Arguments Raise {A} e.

Definition rbind {A B : Type} (m : result A) (k : A -> result B) : result B :=
  match m with
  | Ok a => k a
  | Raise e => Raise e
  end.

Notation "'let*' x ':=' m 'in' k" := (rbind m (fun x => k))
  (at level 10, x name, m at level 100, k at level 200).

(** ** Python floats *)

Module PyFloat.

Inductive pyfloat : Type :=
| Finite (q : Q)
| PosInf
| NegInf
| NaN.

Definition of_int (n : Z) : pyfloat := Finite (inject_Z n).

(** [x < y]; every comparison with [nan] is false. *)
Definition flt (x y : pyfloat) : bool :=
  match x, y with
  | NaN, _ | _, NaN => false
  | Finite a, Finite b => if Qlt_le_dec a b then true else false
  | Finite _, PosInf => true
  | Finite _, NegInf => false
  | PosInf, _ => false
  | NegInf, NegInf => false
  | NegInf, _ => true
  end.

(** [x > y] is [y < x]. *)
Definition fgt (x y : pyfloat) : bool := flt y x.

(** [x <= y]; every comparison with [nan] is false. *)
Definition fle (x y : pyfloat) : bool :=
  match x, y with
  | NaN, _ | _, NaN => false
  | Finite a, Finite b => if Qlt_le_dec b a then false else true
  | Finite _, PosInf => true
  | Finite _, NegInf => false
  | PosInf, PosInf => true
  | PosInf, _ => false
  | NegInf, _ => true
  end.

Definition fneg (x : pyfloat) : pyfloat :=
  match x with
  | Finite a => Finite (- a)
  | PosInf => NegInf
  | NegInf => PosInf
  | NaN => NaN
  end.

Definition fadd (x y : pyfloat) : pyfloat :=
  match x, y with
  | NaN, _ | _, NaN => NaN
  | Finite a, Finite b => Finite (a + b)
  | Finite _, PosInf => PosInf
  | Finite _, NegInf => NegInf
  | PosInf, NegInf => NaN
  | PosInf, _ => PosInf
  | NegInf, PosInf => NaN
  | NegInf, _ => NegInf
  end.

Definition fsub (x y : pyfloat) : pyfloat := fadd x (fneg y).

(** The infinity with the sign of [s * t], [nan] when the product is an
    infinity times zero. *)
Definition inf_of_sign (s : comparison) (positive_first : bool) : pyfloat :=
  match s with
  | Eq => NaN
  | Gt => if positive_first then PosInf else NegInf
  | Lt => if positive_first then NegInf else PosInf
  end.

Definition fmul (x y : pyfloat) : pyfloat :=
  match x, y with
  | NaN, _ | _, NaN => NaN
  | Finite a, Finite b => Finite (a * b)
  | Finite a, PosInf => inf_of_sign (a ?= 0)%Q true
  | Finite a, NegInf => inf_of_sign (a ?= 0)%Q false
  | PosInf, Finite b => inf_of_sign (b ?= 0)%Q true
  | NegInf, Finite b => inf_of_sign (b ?= 0)%Q false
  | PosInf, PosInf | NegInf, NegInf => PosInf
  | PosInf, NegInf | NegInf, PosInf => NegInf
  end.

(** [x / 2] *)
Definition fhalf (x : pyfloat) : pyfloat :=
  match x with
  | Finite a => Finite (a / 2)
  | other => other
  end.

(** The builtin [min(a, b)]: [b] when [b < a], else [a]. *)
Definition py_min (a b : pyfloat) : pyfloat := if flt b a then b else a.

(** The builtin [max(a, b)]: [b] when [b > a], else [a]. *)
Definition py_max (a b : pyfloat) : pyfloat := if fgt b a then b else a.

(** Rounding of a rational to the nearest integer, ties to the even
    neighbour: what the builtin [round] of Python 3 does on a float. *)
Definition round_half_even (q : Q) : Z :=
  let f := Qfloor q in
  match (q - inject_Z f ?= 1 # 2)%Q with
  | Lt => f
  | Gt => f + 1
  | Eq => if Z.even f then f else f + 1
  end.

(** [round(x)] on a float: [ValueError] on [nan], [OverflowError] on an
    infinity. *)
Definition py_round (x : pyfloat) : result Z :=
  match x with
  | Finite q => Ok (round_half_even q)
  | NaN => Raise ValueError
  | PosInf | NegInf => Raise OverflowError
  end.

(** [int(x)] on a float truncates toward zero and raises like [round]. *)
Definition py_int (x : pyfloat) : result Z :=
  match x with
  | Finite q => Ok (Z.quot (Qnum q) (Zpos (Qden q)))
  | NaN => Raise ValueError
  | PosInf | NegInf => Raise OverflowError
  end.

End PyFloat.

(** ** Binary64 arithmetic *)

Module Binary64.

Import PyFloat.

Local Open Scope Q_scope.

(** [2 ^ e], for an exponent of either sign. *)
Definition pow2 (e : Z) : Q := 2 ^ e.

(** The exponent [e] with [2 ^ e <= q < 2 ^ (e + 1)], for [q > 0]. *)
Definition ilog2 (q : Q) : Z :=
  let k := (Z.log2 (Qnum q) - Z.log2 (Zpos (Qden q)))%Z in
  if Qle_bool (pow2 k) q then k else (k - 1)%Z.

(** The exponent of the last place of the binary64 numbers around
    [q >= 0]: 53 significant bits, and never below the subnormal step
    [2 ^ -1074]. *)
Definition quantum (q : Q) : Z := Z.max (ilog2 q - 52) (-1074).

(** The multiple of [2 ^ ex] nearest to [q], ties to the even multiple. *)
Definition on_grid (ex : Z) (q : Q) : Q :=
  inject_Z (round_half_even (q / pow2 ex)) * pow2 ex.

(** The binary64 nearest to [q >= 0]; from [2 ^ 1024] on the rounded
    value has left the format and the result is the infinity. *)
Definition round_pos (q : Q) : pyfloat :=
  let r := on_grid (quantum q) q in
  if Qle_bool (pow2 1024) r then PosInf else Finite (Qred r).

(** Rounding to nearest, ties to even, of a real number. *)
Definition b64 (q : Q) : pyfloat :=
  if Qlt_le_dec q 0 then fneg (round_pos (- q)) else round_pos q.

(** An operation of the machine gives the exact result rounded. *)
Definition rounded (x : pyfloat) : pyfloat :=
  match x with
  | Finite q => b64 q
  | other => other
  end.

(** [x * y], [x + y], [x - y] and [x / 2] on floats. *)
Definition bmul (x y : pyfloat) : pyfloat := rounded (fmul x y).
Definition badd (x y : pyfloat) : pyfloat := rounded (fadd x y).
Definition bsub (x y : pyfloat) : pyfloat := rounded (fsub x y).
Definition bhalf (x : pyfloat) : pyfloat := rounded (fhalf x).

End Binary64.

(** ** Python text: whitespace, [strip], [split], [float] *)

Module PyText.

Import PyFloat.

Local Open Scope string_scope.
Local Open Scope Z_scope.

Definition code (c : ascii) : Z := Z.of_N (N_of_ascii c).

(** [str.isspace] on an ASCII character: tab to carriage return, the four
    separators 28 to 31, and the space. *)
Definition is_space (c : ascii) : bool :=
  ((9 <=? code c) && (code c <=? 13)) || ((28 <=? code c) && (code c <=? 32)).

Definition is_empty (s : string) : bool :=
  match s with
  | EmptyString => true
  | String _ _ => false
  end.

Fixpoint lstrip (s : string) : string :=
  match s with
  | EmptyString => EmptyString
  | String c rest => if is_space c then lstrip rest else s
  end.

Fixpoint rstrip (s : string) : string :=
  match s with
  | EmptyString => EmptyString
  | String c rest =>
      let rest' := rstrip rest in
      if is_space c && is_empty rest' then EmptyString else String c rest'
  end.

(** [s.strip()] *)
Definition py_strip (s : string) : string := rstrip (lstrip s).

(** [s.split()]: the maximal runs of characters that are not whitespace. *)
Fixpoint py_split (s : string) : list string :=
  match s with
  | EmptyString => []
  | String c rest =>
      if is_space c then py_split rest
      else
        match rest with
        | EmptyString => [String c EmptyString]
        | String c' _ =>
            if is_space c' then String c EmptyString :: py_split rest
            else
              match py_split rest with
              | t :: ts => String c t :: ts
              | [] => [String c EmptyString]
              end
        end
  end.

Definition digit_val (c : ascii) : option Z :=
  if (48 <=? code c) && (code c <=? 57) then Some (code c - 48) else None.

Definition to_lower (c : ascii) : ascii :=
  if (65 <=? code c) && (code c <=? 90)
  then ascii_of_N (N_of_ascii c + 32)
  else c.

Fixpoint lower (s : string) : string :=
  match s with
  | EmptyString => EmptyString
  | String c rest => String (to_lower c) (lower rest)
  end.

(** The rest of a [digitpart] after its first digit: digits, each one
    optionally preceded by a single underscore.  [acc] is the value read
    so far and [n] the number of digits read. *)
Fixpoint digitpart_rest (acc n : Z) (s : string) : Z * Z * string :=
  match s with
  | EmptyString => (acc, n, s)
  | String c rest =>
      match digit_val c with
      | Some d => digitpart_rest (10 * acc + d) (n + 1) rest
      | None =>
          if Ascii.eqb c "_"%char then
            match rest with
            | String c' rest' =>
                match digit_val c' with
                | Some d => digitpart_rest (10 * acc + d) (n + 1) rest'
                | None => (acc, n, s)
                end
            | EmptyString => (acc, n, s)
            end
          else (acc, n, s)
      end
  end.

(** A [digitpart] at the head of [s], continuing the value [acc]. *)
Definition digitpart (acc : Z) (s : string) : option (Z * Z * string) :=
  match s with
  | String c rest =>
      match digit_val c with
      | Some d => Some (digitpart_rest (10 * acc + d) 1 rest)
      | None => None
      end
  | EmptyString => None
  end.

(** [number ::= [digitpart] "." digitpart | digitpart ["."]]: the digits
    read as an integer, the number of digits after the point, the rest. *)
Definition number (s : string) : option (Z * Z * string) :=
  match digitpart 0 s with
  | Some (m, _, String "." rest) =>
      match digitpart m rest with
      | Some (m', k, rest') => Some (m', k, rest')
      | None => Some (m, 0, rest)
      end
  | Some (m, _, rest) => Some (m, 0, rest)
  | None =>
      match s with
      | String "." rest => digitpart 0 rest
      | _ => None
      end
  end.

(** An optional sign: [true] for a minus. *)
Definition sign (s : string) : bool * string :=
  match s with
  | String "-" rest => (true, rest)
  | String "+" rest => (false, rest)
  | _ => (false, s)
  end.

(** [exponent ::= ("e" | "E") [sign] digitpart], up to the end of the
    text; no exponent is the exponent 0. *)
Definition exponent (s : string) : option Z :=
  match s with
  | EmptyString => Some 0
  | String c rest =>
      if Ascii.eqb (to_lower c) "e"%char then
        let (neg, rest') := sign rest in
        match digitpart 0 rest' with
        | Some (e, _, EmptyString) => Some (if neg then - e else e)
        | _ => None
        end
      else None
  end.

(** [m * 10 ^ k] *)
Definition scale10 (m k : Z) : Q :=
  if 0 <=? k then inject_Z (m * 10 ^ k) else Qmake m (Z.to_pos (10 ^ (- k))).

(** The float of a signed decimal: the nearest binary64, an infinity from
    [2^1024 - 2^970] on. *)
Definition of_decimal (neg : bool) (q : Q) : pyfloat :=
  Binary64.b64 (if neg then - q else q)%Q.

(** [float(s)] on text: surrounding whitespace is dropped, then
    [[sign] (floatnumber | "inf" | "infinity" | "nan")], letters in either
    case; anything else raises [ValueError]. *)
Definition py_float (s : string) : result pyfloat :=
  let (neg, body) := sign (py_strip s) in
  let word := lower body in
  if String.eqb word "inf" || String.eqb word "infinity"
  then Ok (if neg then NegInf else PosInf)
  else if String.eqb word "nan" then Ok NaN
  else
    match number body with
    | Some (m, k, rest) =>
        match exponent rest with
        | Some e => Ok (of_decimal neg (scale10 m (e - k)))
        | None => Raise ValueError
        end
    | None => Raise ValueError
    end.

End PyText.

(** ** export_detections.py *)

Module ExportDetections.

Import PyFloat Binary64 PyText.

Local Open Scope string_scope.
Local Open Scope Z_scope.

(** [IMAGE_EXTENSIONS] *)
Definition IMAGE_EXTENSIONS : list string :=
  [".jpg"; ".jpeg"; ".png"; ".bmp"; ".tif"; ".tiff"; ".webp"].

Record Detection : Type := mkDetection {
  class_id : Z;
  class_name : option string;
  confidence : option pyfloat;
  bbox_norm : pyfloat * pyfloat * pyfloat * pyfloat;
  bbox_pixels : Z * Z * Z * Z
}.

(** [clamp(value, min_value, max_value)] *)
Definition clamp (value min_value max_value : pyfloat) : pyfloat :=
  py_max min_value (py_min value max_value).

(** What [parse_label_line] does with [parts] once the line is split. *)
Definition parse_parts (parts : list string)
  : result (Z * pyfloat * pyfloat * pyfloat * pyfloat * option pyfloat) :=
  if Z.of_nat (List.length parts) <? 5 then Raise ValueError
  else
    let* f0 := py_float (nth 0 parts "") in
    let* class_id := py_int f0 in
    let* cx := py_float (nth 1 parts "") in
    let* cy := py_float (nth 2 parts "") in
    let* w := py_float (nth 3 parts "") in
    let* h := py_float (nth 4 parts "") in
    let* confidence :=
      (if 5 <? Z.of_nat (List.length parts)
       then let* c := py_float (nth 5 parts "") in Ok (Some c)
       else Ok None) in
    Ok (class_id, cx, cy, w, h, confidence).

(** [parse_label_line(line)] *)
Definition parse_label_line (line : string)
  : result (Z * pyfloat * pyfloat * pyfloat * pyfloat * option pyfloat) :=
  parse_parts (py_split (py_strip line)).

(** [convert_to_pixels(cx, cy, w, h, width, height)].  Each product,
    difference, sum and halving is a binary64 operation.  The [int]
    operand of a product enters it with its exact value, which is what
    its conversion to a float gives for a dimension below [2 ^ 53]. *)
Definition convert_to_pixels (cx cy w h : pyfloat) (width height : Z)
  : result (Z * Z * Z * Z) :=
  let x_center := bmul cx (of_int width) in
  let y_center := bmul cy (of_int height) in
  let box_w := bmul w (of_int width) in
  let box_h := bmul h (of_int height) in
  let x1 := clamp (bsub x_center (bhalf box_w)) (of_int 0) (of_int width) in
  let y1 := clamp (bsub y_center (bhalf box_h)) (of_int 0) (of_int height) in
  let x2 := clamp (badd x_center (bhalf box_w)) (of_int 0) (of_int width) in
  let y2 := clamp (badd y_center (bhalf box_h)) (of_int 0) (of_int height) in
  let* rx1 := py_round x1 in
  let* ry1 := py_round y1 in
  let* rx2 := py_round x2 in
  let* ry2 := py_round y2 in
  Ok (rx1, ry1, rx2, ry2).

(** [build_detection(class_id, class_names, confidence, cx, cy, w, h,
    width, height)] *)
Definition build_detection (class_id : Z) (class_names : option (list string))
    (confidence : option pyfloat) (cx cy w h : pyfloat) (width height : Z)
  : result Detection :=
  let class_name :=
    match class_names with
    | Some ((_ :: _) as names) =>
        if (0 <=? class_id) && (class_id <? Z.of_nat (List.length names))
        then nth_error names (Z.to_nat class_id)
        else None
    | _ => None
    end in
  let* bbox_pixels := convert_to_pixels cx cy w h width height in
  Ok (mkDetection class_id class_name confidence (cx, cy, w, h) bbox_pixels).

(** One line of a label file, as the loop of [main] handles it: parsed,
    then built into a detection for an image of the given size. *)
Definition export_line (class_names : option (list string)) (width height : Z)
    (raw_line : string) : result Detection :=
  let* parsed := parse_label_line raw_line in
  let '(class_id, cx, cy, w, h, confidence) := parsed in
  build_detection class_id class_names confidence cx cy w h width height.

(** *** Paths and the file system

    A [Path] is the list of its components.  The file system is seen
    through the queries the script makes: [is_file], and [rglob], which
    lists the entries below a directory whose name matches the given
    pattern, in the order the directory walk yields them.  [rglob] refuses
    some patterns with [ValueError]: before Python 3.13, a name that
    holds [**].  [bad_pattern] tells which ones; the two patterns the
    script writes out, ["labels"] and ["*.txt"], are not among them, so
    it is asked only about the patterns made from the name of a label
    file.  The queries answer: a path that the system does not let the
    script examine is outside the model. *)

Definition Path : Type := list string.

Record FileSystem : Type := mkFileSystem {
  is_file : Path -> bool;
  rglob : Path -> string -> list Path;
  bad_pattern : string -> bool
}.

Definition path_eqb (p q : Path) : bool :=
  bool_decide (p = q).

(** [p.parent] *)
Definition parent (p : Path) : Path := removelast p.

(** [p.name] *)
Definition name (p : Path) : string := List.last p "".

(** [p / child] *)
Definition joinpath (p : Path) (child : string) : Path := (p ++ [child])%list.

(** The index of the last ["."] of [s] counted from [i], if there is one. *)
Fixpoint rfind_dot (i : Z) (s : string) : option Z :=
  match s with
  | EmptyString => None
  | String c rest =>
      match rfind_dot (i + 1) rest with
      | Some j => Some j
      | None => if Ascii.eqb c "."%char then Some i else None
      end
  end.

(** [p.stem]: the name without its last suffix; a dot that opens or
    closes the name starts no suffix. *)
Definition stem (p : Path) : string :=
  let n := name p in
  match rfind_dot 0 n with
  | Some i =>
      if (0 <? i) && (i <? Z.of_nat (String.length n) - 1)
      then substring 0 (Z.to_nat i) n
      else n
  | None => n
  end.

(** The elements of the set [{a, b}] in the order a loop meets them.  A set
    keeps one of two equal paths; the order of two different ones follows
    their hashes, which the script does not control: [swapped] says whether
    the second one comes out first. *)
Definition set_iter (swapped : bool) (a b : Path) : list Path :=
  if path_eqb a b then [a]
  else if swapped then [b; a] else [a; b].

(** The first [directory / (stem + ext)] that is a file, over the
    directories and, inside each, over the extensions. *)
Fixpoint first_file (fs : FileSystem) (stem : string)
    (directories : list Path) : option Path :=
  match directories with
  | [] => None
  | directory :: more =>
      match List.find (is_file fs)
              (map (fun ext => joinpath directory (String.append stem ext))
                 IMAGE_EXTENSIONS) with
      | Some candidate => Some candidate
      | None => first_file fs stem more
      end
  end.

(** The first match of the recursive fallback, extension by extension;
    [ValueError] at the first pattern that [rglob] refuses. *)
Fixpoint first_rglob (fs : FileSystem) (runs_dir : Path) (stem : string)
    (exts : list string) : result (option Path) :=
  match exts with
  | [] => Ok None
  | ext :: more =>
      if bad_pattern fs (String.append stem ext) then Raise ValueError
      else
        match rglob fs runs_dir (String.append stem ext) with
        | m :: _ => Ok (Some m)
        | [] => first_rglob fs runs_dir stem more
        end
  end.

(** [find_image_for_label(runs_dir, label_path)] *)
Definition find_image_for_label (swapped : bool) (fs : FileSystem)
    (runs_dir label_path : Path) : result Path :=
  let stem := stem label_path in
  let base_dir :=
    if String.eqb (name (parent label_path)) "labels"
    then parent (parent label_path)
    else runs_dir in
  match first_file fs stem (set_iter swapped runs_dir base_dir) with
  | Some candidate => Ok candidate
  | None =>
      let* found := first_rglob fs runs_dir stem IMAGE_EXTENSIONS in
      match found with
      | Some m => Ok m
      | None => Raise FileNotFoundError
      end
  end.

(** The search order the specification gives for the image resolver:
    directly under the root, then under the grandparent of the label file
    when its parent is named [labels], then the recursive search. *)
Definition resolve_in_spec_order (fs : FileSystem)
    (runs_dir label_path : Path) : result Path :=
  let stem := stem label_path in
  let grandparent :=
    if String.eqb (name (parent label_path)) "labels"
    then [parent (parent label_path)]
    else [] in
  match first_file fs stem (runs_dir :: grandparent) with
  | Some candidate => Ok candidate
  | None =>
      let* found := first_rglob fs runs_dir stem IMAGE_EXTENSIONS in
      match found with
      | Some m => Ok m
      | None => Raise FileNotFoundError
      end
  end.

(** [p] is an ancestor of [q], or [q] itself. *)
Definition is_prefix (p q : Path) : bool :=
  path_eqb p (firstn (List.length p) q).

(** A file system given by the list of its files, in walk order, for
    patterns that are plain names; a pattern that holds [**] is refused. *)
Definition fs_of_files (files : list Path) : FileSystem :=
  mkFileSystem
    (fun p => existsb (path_eqb p) files)
    (fun root pattern =>
       List.filter (fun p => is_prefix root p && String.eqb (name p) pattern) files)
    (fun pattern =>
       match String.index 0 "**" pattern with
       | Some _ => true
       | None => false
       end).

End ExportDetections.

(** ** Sorting as the two later stages use it *)

Module PySort.

Import PyFloat.

(** [x < y] on rationals, as a boolean. *)
Definition Qltb (x y : Q) : bool := if Qlt_le_dec x y then true else false.

Section Sorting.

Context {A : Type}.

(** Insertion into a list already in descending order of [key]: [x] goes
    in front of the first element whose key is not above its own. *)
Fixpoint insert_desc (key : A -> Q) (x : A) (l : list A) : list A :=
  match l with
  | [] => [x]
  | y :: rest =>
      if Qltb (key x) (key y) then y :: insert_desc key x rest else x :: l
  end.

(** A sort by descending [key].  It stands for
    [DataFrame.sort_values(by=..., ascending=False)], whose default sort
    is not a stable one: the two agree on the order of rows whose keys
    differ, and where pandas puts rows that tie is not modelled.  The
    theorems on the summary state the descending order and the rows,
    nothing on the order of rows that tie. *)
Definition sort_desc (key : A -> Q) (l : list A) : list A :=
  fold_right (insert_desc key) [] l.

(** [l.sort(key=key, reverse=True)] for keys that are floats: [x] goes in
    front of the first element whose key does not compare above its own.
    Among keys that are numbers or infinities this is the stable
    descending sort.  Every comparison with a [nan] key is false, and
    where Python's merge sort then leaves the elements is not modelled:
    the order of a sorted list is only stated for keys without [nan]. *)
Fixpoint insert_desc_float (key : A -> pyfloat) (x : A) (l : list A)
  : list A :=
  match l with
  | [] => [x]
  | y :: rest =>
      if flt (key x) (key y) then y :: insert_desc_float key x rest
      else x :: l
  end.

Definition sort_desc_float (key : A -> pyfloat) (l : list A) : list A :=
  fold_right (insert_desc_float key) [] l.

(** No element is followed at once by one whose key compares above its
    own. *)
Fixpoint no_ascent (key : A -> pyfloat) (l : list A) : Prop :=
  match l with
  | a :: rest =>
      match rest with
      | b :: _ => flt (key a) (key b) = false
      | [] => True
      end /\ no_ascent key rest
  | [] => True
  end.

(** [sorted(l)] for a boolean order [leb]. *)
Fixpoint insert_asc (leb : A -> A -> bool) (x : A) (l : list A) : list A :=
  match l with
  | [] => [x]
  | y :: rest => if leb x y then x :: l else y :: insert_asc leb x rest
  end.

Definition sorted (leb : A -> A -> bool) (l : list A) : list A :=
  fold_right (insert_asc leb) [] l.

End Sorting.

End PySort.

(** ** refine_detections.py *)

Module RefineDetections.

Import PyFloat PyText PySort.

Local Open Scope string_scope.
Local Open Scope Z_scope.

(** A detection as read from the JSON: a missing key or a [null] is
    [None], and so is a [class_id] that is not an [int] or a [class_name]
    that is not a [str].  A confidence is a number of the JSON, which
    [json.loads] reads as a float: [NaN], [Infinity] and [-Infinity], which
    the exporter writes for such a token of a label line, are read too. *)
Record Detection : Type := mkDetection {
  class_id : option Z;
  class_name : option string;
  confidence : option pyfloat
}.

Record Meta : Type := mkMeta {
  num_detections : Z;
  num_original : Z;
  min_conf_applied : pyfloat;
  class_filter : option (list string)
}.

Record ImageRecord : Type := mkImageRecord {
  image : option string;
  image_path : option string;
  width : option Z;
  height : option Z;
  detections : list Detection;
  meta : option Meta
}.

(** [s.split(",")] *)
Fixpoint split_comma (s : string) : list string :=
  match s with
  | EmptyString => [EmptyString]
  | String c rest =>
      if Ascii.eqb c ","%char then EmptyString :: split_comma rest
      else
        match split_comma rest with
        | t :: ts => String c t :: ts
        | [] => [String c EmptyString]
        end
  end.

(** [int(token)] on text: an optional sign and a [digitpart]. *)
Definition py_int_of_str (s : string) : result Z :=
  let (neg, body) := sign (py_strip s) in
  match digitpart 0 body with
  | Some (n, _, EmptyString) => Ok (if neg then - n else n)
  | _ => Raise ValueError
  end.

(** [parse_class_filter(spec)] *)
Definition parse_class_filter (spec : option string) : gset Z * gset string :=
  match spec with
  | None => (∅, ∅)
  | Some spec =>
      fold_left
        (fun (acc : gset Z * gset string) item =>
           let (ids, names) := acc in
           let token := py_strip item in
           if is_empty token then acc
           else
             match py_int_of_str token with
             | Ok n => ({[ n ]} ∪ ids, names)
             | Raise _ => (ids, {[ lower token ]} ∪ names)
             end)
        (split_comma spec) (∅, ∅)
  end.

(** The confidence a detection is compared by: [0.0] when absent. *)
Definition conf_value (detection : Detection) : pyfloat :=
  match confidence detection with
  | Some conf => conf
  | None => Finite 0
  end.

(** [detection_passes(detection, min_conf, allowed_ids, allowed_names)];
    [min_conf] is the float of [--min-conf]. *)
Definition detection_passes (detection : Detection) (min_conf : pyfloat)
    (allowed_ids : gset Z) (allowed_names : gset string) : bool :=
  if flt (conf_value detection) min_conf then false
  else if bool_decide (allowed_ids = ∅) && bool_decide (allowed_names = ∅)
  then true
  else if negb (bool_decide (allowed_ids = ∅)) &&
          match class_id detection with
          | Some i => bool_decide (i ∈ allowed_ids)
          | None => false
          end
  then true
  else if negb (bool_decide (allowed_names = ∅)) &&
          match class_name detection with
          | Some n => bool_decide (lower n ∈ allowed_names)
          | None => false
          end
  then true
  else false.

(** [str(n)] for an [int] *)
Definition str_of_int (n : Z) : string := NilZero.string_of_int (Z.to_int n).

Definition string_leb (a b : string) : bool :=
  match String_as_OT.compare a b with
  | Gt => false
  | _ => true
  end.

(** The [class_filter] entry of the metadata. *)
Definition class_filter_of (allowed_ids : gset Z) (allowed_names : gset string)
  : list string :=
  sorted string_leb
    (map str_of_int (sorted Z.leb (elements allowed_ids))
     ++ sorted string_leb (elements allowed_names))%list.

(** One turn of the loop of [refine_records]: the refined record, or
    nothing when the record is dropped. *)
Definition refine_record (record : ImageRecord) (min_conf : pyfloat)
    (allowed_ids : gset Z) (allowed_names : gset string)
    (drop_empty sort_desc_flag : bool) : option ImageRecord :=
  let filtered :=
    List.filter
      (fun det => detection_passes det min_conf allowed_ids allowed_names)
      (detections record) in
  let filtered :=
    if sort_desc_flag then sort_desc_float conf_value filtered
    else filtered in
  if drop_empty && (match filtered with [] => true | _ => false end)
  then None
  else
    Some (mkImageRecord
            (image record) (image_path record) (width record) (height record)
            filtered
            (Some (mkMeta
                     (Z.of_nat (List.length filtered))
                     (Z.of_nat (List.length (detections record)))
                     min_conf
                     (if negb (bool_decide (allowed_ids = ∅)) ||
                         negb (bool_decide (allowed_names = ∅))
                      then Some (class_filter_of allowed_ids allowed_names)
                      else None)))).

(** [refine_records(records, min_conf, allowed_ids, allowed_names,
    drop_empty, sort_desc)] *)
Fixpoint refine_records (records : list ImageRecord) (min_conf : pyfloat)
    (allowed_ids : gset Z) (allowed_names : gset string)
    (drop_empty sort_desc_flag : bool) : list ImageRecord :=
  match records with
  | [] => []
  | record :: more =>
      let refined :=
        refine_records more min_conf allowed_ids allowed_names
          drop_empty sort_desc_flag in
      match refine_record record min_conf allowed_ids allowed_names
              drop_empty sort_desc_flag with
      | Some new_record => new_record :: refined
      | None => refined
      end
  end.

End RefineDetections.

(** ** detection_summary.py *)

Module DetectionSummary.

Import PyText PySort.

Local Open Scope string_scope.
Local Open Scope Z_scope.

(** The refined JSON as the summariser reads it. *)
Record Detection : Type := mkDetection {
  det_class_id : option Z;
  det_class_name : option string;
  det_confidence : option Q
}.

Record ImageRecord : Type := mkImageRecord {
  rec_image : option string;
  rec_detections : list Detection
}.

(** A row of the data frame of [build_dataframe]. *)
Record Row : Type := mkRow {
  image : option string;
  class_id : option Z;
  class_name : option string;
  confidence : Q
}.

(** A row of the summary table. *)
Record SummaryRow : Type := mkSummaryRow {
  class_display : string;
  summary_class_id : option Z;
  num_detections : Z;
  mean_confidence : Q;
  max_confidence : Q
}.

(** The [--sort-by] choices. *)
Inductive SortKey : Type :=
| by_num_detections
| by_mean_confidence
| by_max_confidence.

(** [float(det.get("confidence") or 0.0)] *)
Definition confidence_or_zero (det : Detection) : Q :=
  match det_confidence det with
  | Some conf => conf
  | None => 0
  end.

(** [build_dataframe(records)]: one row per detection, record by record. *)
Definition build_dataframe (records : list ImageRecord) : list Row :=
  flat_map
    (fun record =>
       map (fun det =>
              mkRow (rec_image record) (det_class_id det) (det_class_name det)
                (confidence_or_zero det))
         (rec_detections record))
    records.

(** The key of a group: [(class_display, class_id)]. *)
Definition GroupKey : Type := string * option Z.

(** The order of [class_id] cells inside the group keys: numbers in
    increasing order, the missing one last. *)
Definition id_compare (a b : option Z) : comparison :=
  match a, b with
  | Some x, Some y => Z.compare x y
  | Some _, None => Lt
  | None, Some _ => Gt
  | None, None => Eq
  end.

(** The order in which [groupby] emits its groups: by [class_display],
    then by [class_id]. *)
Definition key_compare (k1 k2 : GroupKey) : comparison :=
  match String_as_OT.compare (fst k1) (fst k2) with
  | Eq => id_compare (snd k1) (snd k2)
  | c => c
  end.

Definition key_eqb (k1 k2 : GroupKey) : bool :=
  match key_compare k1 k2 with
  | Eq => true
  | _ => false
  end.

(** A key put at its place in an increasing list of distinct keys. *)
Fixpoint insert_key (k : GroupKey) (ks : list GroupKey) : list GroupKey :=
  match ks with
  | [] => [k]
  | k' :: rest =>
      match key_compare k k' with
      | Lt => k :: ks
      | Eq => ks
      | Gt => k' :: insert_key k rest
      end
  end.

(** The largest confidence of a group. *)
Definition max_of (rows : list Row) : Q :=
  match rows with
  | [] => 0%Q
  | r :: rest =>
      fold_left (fun m r' => if Qltb m (confidence r') then confidence r' else m)
        rest (confidence r)
  end.

(** The column a summary is sorted by. *)
Definition metric (sort_by : SortKey) (r : SummaryRow) : Q :=
  match sort_by with
  | by_num_detections => inject_Z (num_detections r)
  | by_mean_confidence => mean_confidence r
  | by_max_confidence => max_confidence r
  end.

Definition row_key (r : SummaryRow) : GroupKey :=
  (class_display r, summary_class_id r).

Section Summarise.

(** The text an f-string gives for the [class_id] cell of a row.  It
    depends on the type the data frame gave the column, so it is left
    open. *)
Variable show_id : option Z -> string.

(** The mean pandas computes of the confidences of a group.  It is a sum
    and a division in binary64, in an order and with a compensation that
    are pandas' own, so it is left open. *)
Variable mean : list Q -> Q.

(** The [class_display] column: the class name when it is a non-empty
    text, else ["class_"] followed by the id. *)
Definition display_of (r : Row) : string :=
  match class_name r with
  | Some n => if is_empty n then String.append "class_" (show_id (class_id r)) else n
  | None => String.append "class_" (show_id (class_id r))
  end.

Definition key_of (r : Row) : GroupKey := (display_of r, class_id r).

(** The keys of [groupby(["class_display", "class_id"], dropna=False)]:
    each one once, in increasing order. *)
Definition group_keys (df : list Row) : list GroupKey :=
  fold_right (fun r ks => insert_key (key_of r) ks) [] df.

(** The rows of the group of a key. *)
Definition group_of (df : list Row) (k : GroupKey) : list Row :=
  List.filter (fun r => key_eqb (key_of r) k) df.

(** [.agg(num_detections=size, mean_confidence=mean, max_confidence=max)]
    on one group. *)
Definition aggregate (df : list Row) (k : GroupKey) : SummaryRow :=
  let g := group_of df k in
  mkSummaryRow (fst k) (snd k)
    (Z.of_nat (List.length g))
    (mean (map confidence g))
    (max_of g).

(** [summarise(df, sort_by)] *)
Definition summarise (df : list Row) (sort_by : SortKey) : list SummaryRow :=
  match df with
  | [] => []
  | _ :: _ =>
      let summary := map (aggregate df) (group_keys df) in
      sort_desc (metric sort_by) summary
  end.

(** The place of a group in the order of first encounter: the index of
    the first row of the frame that has its key. *)
Fixpoint first_index (k : GroupKey) (df : list Row) : nat :=
  match df with
  | [] => 0%nat
  | r :: rest => if key_eqb (key_of r) k then 0%nat else S (first_index k rest)
  end.

End Summarise.

(** The mean in exact arithmetic, for the examples: the mean of pandas
    equals it when the sum and the quotient need no rounding, as for a
    group of one row. *)
Definition exact_mean (l : list Q) : Q :=
  (fold_right Qplus 0 l / inject_Z (Z.of_nat (List.length l)))%Q.

(** [str] of a [class_id] cell when every detection has an integer id. *)
Definition show_int_id (i : option Z) : string :=
  match i with
  | Some n => NilZero.string_of_int (Z.to_int n)
  | None => "None"
  end.

End DetectionSummary.

(** ** The coordinate mapper in the words of the specification *)

Module CoordinateSpec.

Import PySort.

(** A value held inside [[lo, hi]]. *)
Definition clamp_to (lo hi q : Q) : Q := Qmax lo (Qmin q hi).

(** Rounding to the nearest integer, a half going away from zero. *)
Definition round_half_away (q : Q) : Z :=
  if Qltb q 0 then - Qfloor (- q + (1 # 2)) else Qfloor (q + (1 # 2)).

(** The four edges before clamping, as the specification gives them:
    [x_center = cx * width], [y_center = cy * height],
    [box_w = w * width], [box_h = h * height], and the centre minus and
    plus half the size, each operation on floats. *)
Definition spec_edges (cx cy w h : PyFloat.pyfloat) (width height : Z)
  : PyFloat.pyfloat * PyFloat.pyfloat * PyFloat.pyfloat * PyFloat.pyfloat :=
  let x_center := Binary64.bmul cx (PyFloat.of_int width) in
  let y_center := Binary64.bmul cy (PyFloat.of_int height) in
  let box_w := Binary64.bmul w (PyFloat.of_int width) in
  let box_h := Binary64.bmul h (PyFloat.of_int height) in
  (Binary64.bsub x_center (Binary64.bhalf box_w),
   Binary64.bsub y_center (Binary64.bhalf box_h),
   Binary64.badd x_center (Binary64.bhalf box_w),
   Binary64.badd y_center (Binary64.bhalf box_h)).

(** An edge clamped to [[0, size]] and rounded by [rnd]. *)
Definition spec_pixel (rnd : Q -> Z) (size : Z) (edge : Q) : Z :=
  rnd (clamp_to 0 (inject_Z size) edge).

(** Each edge lies inside the image. *)
Definition bbox_within (width height : Z) (b : Z * Z * Z * Z) : Prop :=
  let '(x1, y1, x2, y2) := b in
  (0 <= x1 /\ x1 <= width) /\ (0 <= x2 /\ x2 <= width) /\
  (0 <= y1 /\ y1 <= height) /\ (0 <= y2 /\ y2 <= height).

(** [0 <= x1 <= x2 <= width] and [0 <= y1 <= y2 <= height]. *)
Definition bbox_ordered (width height : Z) (b : Z * Z * Z * Z) : Prop :=
  let '(x1, y1, x2, y2) := b in
  (0 <= x1 /\ x1 <= x2 /\ x2 <= width) /\
  (0 <= y1 /\ y1 <= y2 /\ y2 <= height).

(** A float that does not compare below zero: a finite value from zero
    up, the positive infinity, or [nan]. *)
Definition not_negative (x : PyFloat.pyfloat) : Prop :=
  PyFloat.flt x (PyFloat.of_int 0) = false.

End CoordinateSpec.

(** ** The label parser in the words of the specification *)

Module LabelSpec.

Import PyFloat PyText.

(** The token is text that [float()] reads. *)
Definition reads_as_float (tok : string) : bool :=
  match py_float tok with
  | Ok _ => true
  | Raise _ => false
  end.

(** The token is numeric: [float()] reads it as a number, which leaves
    out [nan] and the infinities. *)
Definition is_numeric (tok : string) : bool :=
  match py_float tok with
  | Ok (Finite _) => true
  | _ => false
  end.

(** The token reads as an infinity. *)
Definition is_infinite (tok : string) : bool :=
  match py_float tok with
  | Ok PosInf | Ok NegInf => true
  | _ => false
  end.

(** The token is numeric and its value is an integer. *)
Definition is_integral (tok : string) : bool :=
  match py_float tok with
  | Ok (Finite q) => Qeq_bool q (inject_Z (Qfloor q))
  | _ => false
  end.

(** The value of a float cut toward zero. *)
Definition truncate (q : Q) : Z := Z.quot (Qnum q) (Zpos (Qden q)).

(** The tokens of a line. *)
Definition tokens (line : string) : list string := py_split (py_strip line).

End LabelSpec.

(** ** The summariser in the words of the specification *)

Module SummarySpec.

Import DetectionSummary.

(** The number of detections in the records. *)
Definition total_detections (records : list ImageRecord) : nat :=
  list_sum (map (fun record => List.length (rec_detections record)) records).

(** The sum of the [num_detections] column. *)
Definition sum_num_detections (summary : list SummaryRow) : Z :=
  fold_right (fun r acc => num_detections r + acc)%Z 0%Z summary.

(** [k1] comes before [k2] in the order of the group keys. *)
Definition key_lt (k1 k2 : GroupKey) : Prop := key_compare k1 k2 = Lt.

(** The rows go by descending value of the sort column. *)
Definition sorted_descending (sort_by : SortKey) (summary : list SummaryRow)
  : Prop :=
  StronglySorted (fun a b => (metric sort_by b <= metric sort_by a)%Q) summary.

(** Rows that tie on the sort column come in the order their groups were
    first met in the frame. *)
Definition ties_in_encounter_order (show_id : option Z -> string)
    (df : list Row) (sort_by : SortKey) (summary : list SummaryRow) : Prop :=
  StronglySorted
    (fun a b =>
       (metric sort_by a == metric sort_by b)%Q ->
       (first_index show_id (row_key a) df
        < first_index show_id (row_key b) df)%nat)
    summary.

End SummarySpec.

(** ** export_detections.py: the directories, the class names, [main] *)

Module ExportDriver.

Import PyFloat PyText PySort ExportDetections.

Local Open Scope string_scope.
Local Open Scope Z_scope.

(** [load_class_names(path)].  [read_lines] gives the lines of a file,
    that is [path.read_text(encoding="utf-8").splitlines()], or the
    exception that reading it raises: [ValueError] for a file that is not
    UTF-8, [OSError] for one that is a directory or may not be read. *)
Definition load_class_names (fs : FileSystem)
    (read_lines : Path -> result (list string))
    (path : option Path) : result (option (list string)) :=
  match path with
  | None => Ok None
  | Some p =>
      if is_file fs p then
        let* lines := read_lines p in
        let names :=
          map py_strip
            (List.filter (fun line => negb (is_empty (py_strip line)))
               lines) in
        Ok (match names with
            | [] => None
            | _ :: _ => Some names
            end)
      else Raise FileNotFoundError
  end.

(** [resolve_labels_dir(runs_dir, override)], with [is_dir] for
    [Path.is_dir]. *)
Definition resolve_labels_dir (is_dir : Path -> bool) (fs : FileSystem)
    (runs_dir : Path) (override : option Path) : result Path :=
  match override with
  | Some o => if is_dir o then Ok o else Raise FileNotFoundError
  | None =>
      let candidate := joinpath runs_dir "labels" in
      if is_dir candidate then Ok candidate
      else
        match List.find is_dir (rglob fs runs_dir "labels") with
        | Some path => Ok path
        | None => Raise FileNotFoundError
        end
  end.

(** The order of paths: component by component, each as text. *)
Fixpoint path_compare (p q : Path) : comparison :=
  match p, q with
  | [], [] => Eq
  | [], _ :: _ => Lt
  | _ :: _, [] => Gt
  | a :: p', b :: q' =>
      match String_as_OT.compare a b with
      | Eq => path_compare p' q'
      | c => c
      end
  end.

Definition path_leb (p q : Path) : bool :=
  match path_compare p q with
  | Gt => false
  | _ => true
  end.

(** [iter_label_files(labels_dir)] *)
Definition iter_label_files (fs : FileSystem) (labels_dir : Path) : list Path :=
  sorted path_leb (rglob fs labels_dir "*.txt").

(** The loop of [main] over the lines of one label file: a blank line is
    passed over, a line that raises [ValueError] is skipped with a warning,
    any other exception leaves the loop. *)
Fixpoint read_detections (class_names : option (list string))
    (width height : Z) (raw_lines : list string) : result (list Detection) :=
  match raw_lines with
  | [] => Ok []
  | raw_line :: more =>
      if is_empty (py_strip raw_line)
      then read_detections class_names width height more
      else
        match export_line class_names width height raw_line with
        | Ok detection =>
            let* detections := read_detections class_names width height more in
            Ok (detection :: detections)
        | Raise ValueError => read_detections class_names width height more
        | Raise e => Raise e
        end
  end.

(** [p.relative_to(base)] *)
Definition relative_to (p base : Path) : result Path :=
  if is_prefix base p then Ok (skipn (List.length base) p)
  else Raise ValueError.

(** A record of the exported JSON.  [image_path] is the path whose text
    the script stores. *)
Record ImageRecord : Type := mkImageRecord {
  image : string;
  image_path : Path;
  width : Z;
  height : Z;
  detections : list Detection
}.

(** One turn of the loop of [main] over the label files: the record of
    the file, or nothing when the file is skipped.  [imread] gives the
    [(height, width)] of an image that loads; [swapped] is the order in
    which the set of directories is met for this file.  The label file is
    read outside the [try] of the lines: what reading it raises leaves
    the loop. *)
Definition export_label_file (swapped : Path -> bool) (fs : FileSystem)
    (imread : Path -> option (Z * Z))
    (read_lines : Path -> result (list string))
    (class_names : option (list string)) (runs_dir : Path)
    (relative_paths : bool) (label_file : Path)
  : result (option ImageRecord) :=
  match find_image_for_label (swapped label_file) fs runs_dir label_file with
  | Raise FileNotFoundError => Ok None
  | Raise e => Raise e
  | Ok image_path =>
      match imread image_path with
      | None => Ok None
      | Some (height, width) =>
          let* raw_lines := read_lines label_file in
          let* detections :=
            read_detections class_names width height raw_lines in
          let* shown :=
            (if relative_paths then relative_to image_path runs_dir
             else Ok image_path) in
          Ok (Some (mkImageRecord (name image_path) shown width height
                      detections))
      end
  end.

(** The loop of [main] over the label files. *)
Fixpoint export_records (swapped : Path -> bool) (fs : FileSystem)
    (imread : Path -> option (Z * Z))
    (read_lines : Path -> result (list string))
    (class_names : option (list string)) (runs_dir : Path)
    (relative_paths : bool) (label_files : list Path)
  : result (list ImageRecord) :=
  match label_files with
  | [] => Ok []
  | label_file :: more =>
      let* image_record :=
        export_label_file swapped fs imread read_lines class_names runs_dir
          relative_paths label_file in
      let* records :=
        export_records swapped fs imread read_lines class_names runs_dir
          relative_paths more in
      Ok (match image_record with
          | Some r => r :: records
          | None => records
          end)
  end.


(** The second directory [find_image_for_label] looks in. *)
Definition base_dir_of (runs_dir label_path : Path) : Path :=
  if String.eqb (name (parent label_path)) "labels"
  then parent (parent label_path)
  else runs_dir.

(** No [directory / (stem + ext)] is a file. *)
Definition no_candidate (fs : FileSystem) (stem : string) (directory : Path)
  : Prop :=
  forall ext, In ext IMAGE_EXTENSIONS ->
              is_file fs (joinpath directory (String.append stem ext)) = false.


(** The detections of the lines that [export_line] accepts, in order. *)
Definition accepted_detections (class_names : option (list string))
    (width height : Z) (raw_lines : list string) : list Detection :=
  flat_map
    (fun raw_line =>
       match export_line class_names width height raw_line with
       | Ok detection => [detection]
       | Raise _ => []
       end)
    raw_lines.

End ExportDriver.

(** ** check_opencv.py *)

Module CheckOpencv.

Local Open Scope Z_scope.

(** [ensure_kernel(kernel)] *)
Definition ensure_kernel (kernel : Z) : result Z :=
  if (kernel <=? 0) || (kernel mod 2 =? 0) then Raise ValueError
  else Ok kernel.

(** The first step of [main]: the exit status 1 when the kernel is
    refused, nothing when [main] goes on. *)
Definition main_kernel_check (blur_kernel : Z) : option Z :=
  match ensure_kernel blur_kernel with
  | Ok _ => None
  | Raise _ => Some 1
  end.

End CheckOpencv.

(** ** preprocess_pipeline.py *)

Module PreprocessPipeline.

Import PyFloat PyText.

Local Open Scope Z_scope.

(** [validate_args(scale, kernel)] *)
Definition validate_args (scale : pyfloat) (kernel : Z) : result unit :=
  if negb (flt (Finite 0) scale && fle scale (Finite (3 # 2)))
  then Raise ValueError
  else if (kernel <=? 0) || (kernel mod 2 =? 0) then Raise ValueError
  else Ok tt.

(** [parse_canny_thresholds(value)]: the [try] block, whose [ValueError]
    is raised again with another message, then the check of the pair. *)
Definition parse_canny_thresholds (value : string) : result (Z * Z) :=
  let parsed :=
    match RefineDetections.split_comma value with
    | [low_str; high_str] =>
        let* low := RefineDetections.py_int_of_str (py_strip low_str) in
        let* high := RefineDetections.py_int_of_str (py_strip high_str) in
        Ok (low, high)
    | _ => Raise ValueError
    end in
  match parsed with
  | Raise ValueError => Raise ValueError
  | Raise e => Raise e
  | Ok (low, high) =>
      if (low <? 0) || (high <? 0) || (low >=? high) then Raise ValueError
      else Ok (low, high)
  end.

(** The text is two comma-separated items that [int()] reads as [low]
    and [high]. *)
Definition two_integers (value : string) (low high : Z) : Prop :=
  exists low_str high_str,
    RefineDetections.split_comma value = [low_str; high_str]
    /\ RefineDetections.py_int_of_str (py_strip low_str) = Ok low
    /\ RefineDetections.py_int_of_str (py_strip high_str) = Ok high.

(** The first [try] block of [main]: the thresholds when both checks
    pass, the exit status 1 on a [ValueError]; any other exception leaves
    [main]. *)
Definition main_arguments (scale : pyfloat) (blur_kernel : Z)
    (canny_thresholds : string) : result (Z + Z * Z) :=
  match
    (let* _ := validate_args scale blur_kernel in
     parse_canny_thresholds canny_thresholds)
  with
  | Ok thresholds => Ok (inr thresholds)
  | Raise ValueError => Ok (inl 1)
  | Raise e => Raise e
  end.

End PreprocessPipeline.

(** ** image_annotation.py *)

Module ImageAnnotation.

Import PyFloat PyText.

Local Open Scope string_scope.
Local Open Scope Z_scope.

Definition Box : Type := (Z * Z * Z * Z)%type.

(** How [parse_bbox] fails: with an [argparse.ArgumentTypeError] and its
    message, or with an exception that its [except] clause lets
    through. *)
Inductive bbox_error : Type :=
| ArgumentTypeError (message : string)
| Uncaught (e : exn).

(** [parse_bbox(value)] *)
Definition parse_bbox (value : option string) : bbox_error + option Box :=
  match value with
  | None => inr None
  | Some value =>
      let coords :=
        match RefineDetections.split_comma value with
        | [x1_str; y1_str; x2_str; y2_str] =>
            let* x1 := RefineDetections.py_int_of_str (py_strip x1_str) in
            let* y1 := RefineDetections.py_int_of_str (py_strip y1_str) in
            let* x2 := RefineDetections.py_int_of_str (py_strip x2_str) in
            let* y2 := RefineDetections.py_int_of_str (py_strip y2_str) in
            Ok (x1, y1, x2, y2)
        | _ => Raise ValueError
        end in
      match coords with
      | Raise ValueError =>
          inl (ArgumentTypeError
                 "--bbox must be four integers separated by commas.")
      | Raise e => inl (Uncaught e)
      | Ok (x1, y1, x2, y2) =>
          if (x1 >=? x2) || (y1 >=? y2)
          then inl (ArgumentTypeError
                      "Bounding box must satisfy x1 < x2 and y1 < y2.")
          else inr (Some (x1, y1, x2, y2))
      end
  end.

(** The text is four comma-separated items that [int()] reads as the
    coordinates of the box. *)
Definition four_integers (value : string) (b : Box) : Prop :=
  let '(x1, y1, x2, y2) := b in
  exists x1_str y1_str x2_str y2_str,
    RefineDetections.split_comma value = [x1_str; y1_str; x2_str; y2_str]
    /\ RefineDetections.py_int_of_str (py_strip x1_str) = Ok x1
    /\ RefineDetections.py_int_of_str (py_strip y1_str) = Ok y1
    /\ RefineDetections.py_int_of_str (py_strip x2_str) = Ok x2
    /\ RefineDetections.py_int_of_str (py_strip y2_str) = Ok y2.

(** [compute_box(width, height, margin_ratio)].  The bound [0.4] is taken
    as the rational [2 / 5] and the two products are exact, not rounded
    to binary64. *)
Definition compute_box (width height : Z) (margin_ratio : pyfloat)
  : result Box :=
  let margin_ratio := py_min (py_max margin_ratio (Finite 0)) (Finite (2 # 5)) in
  let* margin_x := py_int (fmul (of_int width) margin_ratio) in
  let* margin_y := py_int (fmul (of_int height) margin_ratio) in
  Ok (margin_x, margin_y, width - margin_x, height - margin_y).

(** What [main] draws: the box, the centre of the dot, where the label and
    the footer go. *)
Record Overlay : Type := mkOverlay {
  box : Box;
  center : Z * Z;
  label_position : Z * Z;
  footer_position : Z * Z
}.

(** The geometry of [main]: the box is the one given, or the one of
    [compute_box]; [//] is the floor division. *)
Definition main_overlay (bbox : option Box) (width height : Z)
    (margin : pyfloat) : result Overlay :=
  let* b :=
    match bbox with
    | None => compute_box width height margin
    | Some b => Ok b
    end in
  let '(x1, y1, x2, y2) := b in
  Ok (mkOverlay b
        ((x1 + x2) / 2, (y1 + y2) / 2)
        (x1, Z.max (y1 - 12) 24)
        (x1, Z.min (y2 + 30) (height - 12))).

End ImageAnnotation.

(** * Properties *)

Import PyFloat PyText PySort CoordinateSpec LabelSpec SummarySpec.

(** ** Rounding and clamping *)

(** Turns the hypotheses on the result of a comparison of rationals into
    the order they stand for. *)
Ltac qcompare_hyps :=
  repeat match goal with
         | H : (_ ?= _)%Q = Eq |- _ => apply <- Qeq_alt in H
         | H : (_ ?= _)%Q = Lt |- _ => apply <- Qlt_alt in H
         | H : (_ ?= _)%Q = Gt |- _ => apply <- Qgt_alt in H
         end.

Lemma round_half_even_comp (x y : Q) :
  (x == y)%Q -> round_half_even x = round_half_even y.
Proof.
  intros E. unfold round_half_even.
  assert (F : Qfloor x = Qfloor y) by (now rewrite E).
  rewrite F.
  assert (C : (x - inject_Z (Qfloor y) ?= 1 # 2)%Q
              = (y - inject_Z (Qfloor y) ?= 1 # 2)%Q) by (now rewrite E).
  now rewrite C.
Qed.

Lemma floor_bracket (q : Q) :
  (inject_Z (Qfloor q) <= q /\ q < inject_Z (Qfloor q) + 1)%Q.
Proof.
  split; [apply Qfloor_le|].
  generalize (Qlt_floor q). rewrite inject_Z_plus. intros H; exact H.
Qed.

(** [round_half_even q] is the floor of [q] or the next integer, and it
    is within one half of [q]. *)
Lemma round_half_even_spec (q : Q) :
  let r := round_half_even q in
  (r = Qfloor q /\ (q <= inject_Z (Qfloor q) + (1 # 2))%Q) \/
  (r = Qfloor q + 1 /\ (inject_Z (Qfloor q) + (1 # 2) <= q)%Q).
Proof.
  unfold round_half_even.
  destruct (q - inject_Z (Qfloor q) ?= 1 # 2)%Q eqn:C; qcompare_hyps.
  - destruct (Z.even (Qfloor q)); [left | right]; split; trivial; lra.
  - left; split; trivial; lra.
  - right; split; trivial; lra.
Qed.

Lemma round_half_even_range (q : Q) (n : Z) :
  (0 <= q)%Q -> (q <= inject_Z n)%Q -> 0 <= round_half_even q <= n.
Proof.
  intros H0 Hn.
  assert (F0 : 0 <= Qfloor q).
  { change 0 with (Qfloor (inject_Z 0)). rewrite Qfloor_Z.
    rewrite <- (Qfloor_Z 0). now apply Qfloor_resp_le. }
  assert (Fn : Qfloor q <= n).
  { rewrite <- (Qfloor_Z n). now apply Qfloor_resp_le. }
  destruct (round_half_even_spec q) as [[-> _] | [-> Hq]]; [lia|].
  split; [lia|].
  destruct (Z.eq_dec (Qfloor q) n) as [E | NE]; [|lia].
  rewrite E in Hq. lra.
Qed.

Lemma round_half_even_mono (x y : Q) :
  (x <= y)%Q -> round_half_even x <= round_half_even y.
Proof.
  intros L.
  pose proof (Qfloor_resp_le _ _ L) as FL.
  destruct (Z.eq_dec (Qfloor x) (Qfloor y)) as [E | NE].
  - unfold round_half_even. rewrite E.
    destruct (x - inject_Z (Qfloor y) ?= 1 # 2)%Q eqn:Cx;
      destruct (y - inject_Z (Qfloor y) ?= 1 # 2)%Q eqn:Cy;
      destruct (Z.even (Qfloor y)); try lia; exfalso; qcompare_hyps; lra.
  - destruct (round_half_even_spec x) as [[-> _] | [-> _]];
      destruct (round_half_even_spec y) as [[-> _] | [-> _]]; lia.
Qed.

Lemma Qhalf (q : Q) : (q / 2 == q * (1 # 2))%Q.
Proof. reflexivity. Qed.

Lemma flt_finite (a b : Q) : flt (Finite a) (Finite b) = true <-> (a < b)%Q.
Proof.
  unfold flt. destruct (Qlt_le_dec a b); split; intros; try easy; lra.
Qed.

Lemma flt_finite_false (a b : Q) :
  flt (Finite a) (Finite b) = false <-> (b <= a)%Q.
Proof.
  unfold flt. destruct (Qlt_le_dec a b); split; intros; try easy; lra.
Qed.

Lemma inject_Z_nonneg (n : Z) : 0 <= n -> (0 <= inject_Z n)%Q.
Proof. intros H. change 0%Q with (inject_Z 0). now rewrite <- Zle_Qle. Qed.

Lemma inject_Z_pos (n : Z) : 0 < n -> (0 < inject_Z n)%Q.
Proof. intros H. change 0%Q with (inject_Z 0). now rewrite <- Zlt_Qlt. Qed.

(** On a finite value the script's [clamp] is the clamping of the
    specification, whatever the upper bound. *)
Lemma clamp_finite (a : Q) (n : Z) :
  exists q, ExportDetections.clamp (Finite a) (of_int 0) (of_int n) = Finite q
            /\ (q == clamp_to 0 (inject_Z n) a)%Q.
Proof.
  unfold ExportDetections.clamp, py_max, py_min, fgt, of_int, clamp_to.
  change (inject_Z 0) with 0%Q.
  destruct (flt (Finite (inject_Z n)) (Finite a)) eqn:F1;
    [apply flt_finite in F1 | apply flt_finite_false in F1].
  - destruct (flt (Finite 0) (Finite (inject_Z n))) eqn:F2;
      [apply flt_finite in F2 | apply flt_finite_false in F2];
      eexists; (split; [reflexivity|]);
      destruct (Q.min_spec a (inject_Z n)) as [[? E1] | [? E1]];
      destruct (Q.max_spec 0 (Qmin a (inject_Z n))) as [[? E2] | [? E2]];
      lra.
  - destruct (flt (Finite 0) (Finite a)) eqn:F2;
      [apply flt_finite in F2 | apply flt_finite_false in F2];
      eexists; (split; [reflexivity|]);
      destruct (Q.min_spec a (inject_Z n)) as [[? E1] | [? E1]];
      destruct (Q.max_spec 0 (Qmin a (inject_Z n))) as [[? E2] | [? E2]];
      lra.
Qed.

Lemma clamp_to_range (lo hi q : Q) :
  (lo <= hi)%Q -> (lo <= clamp_to lo hi q /\ clamp_to lo hi q <= hi)%Q.
Proof.
  intros H. unfold clamp_to.
  destruct (Q.min_spec q hi) as [[? E1] | [? E1]];
    destruct (Q.max_spec lo (Qmin q hi)) as [[? E2] | [? E2]]; lra.
Qed.

Lemma clamp_to_mono (lo hi p q : Q) :
  (p <= q)%Q -> (clamp_to lo hi p <= clamp_to lo hi q)%Q.
Proof.
  intros H. unfold clamp_to.
  destruct (Q.min_spec p hi) as [[? E1] | [? E1]];
    destruct (Q.min_spec q hi) as [[? E3] | [? E3]];
    destruct (Q.max_spec lo (Qmin p hi)) as [[? E2] | [? E2]];
    destruct (Q.max_spec lo (Qmin q hi)) as [[? E4] | [? E4]]; lra.
Qed.

(** Whatever the value, [nan] and the infinities included, [clamp] gives
    a finite value between the bounds. *)
Lemma clamp_range (v : pyfloat) (n : Z) :
  0 <= n ->
  exists q, ExportDetections.clamp v (of_int 0) (of_int n) = Finite q
            /\ (0 <= q)%Q /\ (q <= inject_Z n)%Q.
Proof.
  intros Hn. destruct v as [a | | |].
  - destruct (clamp_finite a n) as (q & E & Hq).
    exists q. split; [exact E|].
    pose proof (clamp_to_range 0 (inject_Z n) a (inject_Z_nonneg n Hn)).
    lra.
  - pose proof (inject_Z_nonneg n Hn) as Hn'.
    unfold ExportDetections.clamp, py_max, py_min, fgt, of_int.
    cbn [flt]. change (inject_Z 0) with 0%Q.
    destruct (Qlt_le_dec 0 (inject_Z n));
      eexists; (split; [reflexivity|]); lra.
  - exists 0%Q. split; [reflexivity|].
    pose proof (inject_Z_nonneg n Hn). lra.
  - exists 0%Q. split; [reflexivity|].
    pose proof (inject_Z_nonneg n Hn). lra.
Qed.

Lemma clamp_NegInf (n : Z) :
  ExportDetections.clamp NegInf (of_int 0) (of_int n) = Finite 0.
Proof. reflexivity. Qed.

Lemma clamp_NaN (n : Z) :
  ExportDetections.clamp NaN (of_int 0) (of_int n) = Finite 0.
Proof. reflexivity. Qed.

Lemma clamp_PosInf (n : Z) :
  0 <= n ->
  exists q, ExportDetections.clamp PosInf (of_int 0) (of_int n) = Finite q
            /\ (q == inject_Z n)%Q.
Proof.
  intros Hn. apply inject_Z_nonneg in Hn.
  unfold ExportDetections.clamp, py_max, py_min, fgt, of_int.
  cbn [flt]. change (inject_Z 0) with 0%Q.
  destruct (Qlt_le_dec 0 (inject_Z n)); eexists; (split; [reflexivity|]); lra.
Qed.

(** ** Rounding to binary64 *)

Import Binary64.

Lemma two_not_zero : ~ (2 == 0)%Q.
Proof. discriminate. Qed.

Lemma pow2_pos (e : Z) : (0 < pow2 e)%Q.
Proof. apply Qpower_0_lt. reflexivity. Qed.

Lemma pow2_plus (a b : Z) : (pow2 (a + b) == pow2 a * pow2 b)%Q.
Proof. apply Qpower_plus, two_not_zero. Qed.

Lemma pow2_le (a b : Z) : a <= b -> (pow2 a <= pow2 b)%Q.
Proof. intros H. apply Qpower_le_compat_l; [exact H | discriminate]. Qed.

Lemma pow2_inject (n : Z) : 0 <= n -> (pow2 n == inject_Z (2 ^ n))%Q.
Proof. intros H. unfold pow2. now rewrite Zpower_Qpower. Qed.

Lemma round_half_even_Z (n : Z) : round_half_even (inject_Z n) = n.
Proof.
  unfold round_half_even. rewrite Qfloor_Z.
  destruct (inject_Z n - inject_Z n ?= 1 # 2)%Q eqn:C; qcompare_hyps;
    [exfalso; lra | reflexivity | exfalso; lra].
Qed.

(** Rounding on one grid is monotone and leaves the points of the grid
    where they are. *)
Lemma on_grid_mono (ex : Z) (p q : Q) :
  (p <= q)%Q -> (on_grid ex p <= on_grid ex q)%Q.
Proof.
  intros H. unfold on_grid. pose proof (pow2_pos ex) as P.
  apply Qmult_le_compat_r; [|lra].
  rewrite <- Zle_Qle. apply round_half_even_mono.
  apply Qmult_le_compat_r; [exact H|].
  apply Qlt_le_weak, Qinv_lt_0_compat, P.
Qed.

Lemma on_grid_point (ex m : Z) :
  (on_grid ex (inject_Z m * pow2 ex) == inject_Z m * pow2 ex)%Q.
Proof.
  unfold on_grid. pose proof (pow2_pos ex) as P.
  assert (E : (inject_Z m * pow2 ex / pow2 ex == inject_Z m)%Q)
    by (field; lra).
  now rewrite (round_half_even_comp _ _ E), round_half_even_Z.
Qed.

Lemma on_grid_comp (ex : Z) (p q : Q) :
  (p == q)%Q -> (on_grid ex p == on_grid ex q)%Q.
Proof.
  intros E. unfold on_grid.
  assert (E' : (p / pow2 ex == q / pow2 ex)%Q) by (now rewrite E).
  now rewrite (round_half_even_comp _ _ E').
Qed.

(** A power of two is on every grid that is not coarser than itself. *)
Lemma on_grid_pow2 (ex e : Z) :
  ex <= e -> (on_grid ex (pow2 e) == pow2 e)%Q.
Proof.
  intros H.
  assert (E : (pow2 e == inject_Z (2 ^ (e - ex)) * pow2 ex)%Q).
  { rewrite <- pow2_inject by lia. rewrite <- pow2_plus.
    now replace (e - ex + ex) with e by lia. }
  rewrite (on_grid_comp ex _ _ E), on_grid_point. now rewrite E.
Qed.

Lemma on_grid_zero (ex : Z) : (on_grid ex 0 == 0)%Q.
Proof.
  assert (E : (0 == inject_Z 0 * pow2 ex)%Q) by (change (inject_Z 0) with 0%Q; ring).
  rewrite (on_grid_comp ex _ _ E), on_grid_point.
  change (inject_Z 0) with 0%Q. ring.
Qed.

Lemma on_grid_nonneg (ex : Z) (q : Q) : (0 <= q)%Q -> (0 <= on_grid ex q)%Q.
Proof.
  intros H. rewrite <- (on_grid_zero ex). now apply on_grid_mono.
Qed.

(** [ilog2] brackets a positive number between two powers of two. *)
Lemma ilog2_spec (q : Q) :
  (0 < q)%Q -> (pow2 (ilog2 q) <= q /\ q < pow2 (ilog2 q + 1))%Q.
Proof.
  intros Hq. destruct q as [n d].
  assert (Hn : 0 < n) by (revert Hq; unfold Qlt; cbn; lia).
  unfold ilog2. cbn [Qnum Qden].
  set (ln := Z.log2 n). set (ld := Z.log2 (Z.pos d)).
  destruct (Z.log2_spec n Hn) as [N1 N2]. fold ln in N1, N2.
  destruct (Z.log2_spec (Z.pos d) (Pos2Z.is_pos d)) as [D1 D2].
  fold ld in D1, D2.
  assert (Ln : 0 <= ln) by apply Z.log2_nonneg.
  assert (Ld : 0 <= ld) by apply Z.log2_nonneg.
  rewrite Zle_Qle, <- pow2_inject in N1, D1 by lia.
  rewrite Zlt_Qlt, <- pow2_inject in N2, D2 by lia.
  assert (Q : (n # d == inject_Z n / inject_Z (Z.pos d))%Q)
    by apply Qmake_Qdiv.
  assert (Dpos : (0 < inject_Z (Z.pos d))%Q) by (apply inject_Z_pos; lia).
  set (N := inject_Z n) in *. set (D := inject_Z (Z.pos d)) in *.
  assert (QD : ((n # d) * D == N)%Q) by (rewrite Q; field; lra).
  set (q := n # d) in *. clearbody q N D.
  (* q < 2^(ln - ld + 1) *)
  assert (U : (q < pow2 (ln - ld + 1))%Q).
  { destruct (Qlt_le_dec q (pow2 (ln - ld + 1))) as [L | G]; [exact L|].
    exfalso.
    assert (E : (pow2 (ln - ld + 1) * pow2 ld == pow2 (Z.succ ln))%Q).
    { rewrite <- pow2_plus. now replace (ln - ld + 1 + ld) with (Z.succ ln) by lia. }
    pose proof (pow2_pos (ln - ld + 1)) as P.
    assert (X : (pow2 (ln - ld + 1) * pow2 ld <= q * D)%Q).
    { apply Qmult_le_compat_nonneg; split; try lra.
      pose proof (pow2_pos ld). lra. }
    lra. }
  (* 2^(ln - ld - 1) <= q *)
  assert (B : (pow2 (ln - ld - 1) <= q)%Q).
  { destruct (Qlt_le_dec q (pow2 (ln - ld - 1))) as [L | G]; [|exact G].
    exfalso.
    assert (E : (pow2 (ln - ld - 1) * pow2 (Z.succ ld) == pow2 ln)%Q).
    { rewrite <- pow2_plus.
      now replace (ln - ld - 1 + Z.succ ld) with ln by lia. }
    pose proof (pow2_pos (ln - ld - 1)) as P.
    assert (X1 : (q * D < pow2 (ln - ld - 1) * D)%Q)
      by (apply Qmult_lt_compat_r; lra).
    assert (X2 : (pow2 (ln - ld - 1) * D
                  <= pow2 (ln - ld - 1) * pow2 (Z.succ ld))%Q).
    { rewrite !(Qmult_comm (pow2 (ln - ld - 1))).
      apply Qmult_le_compat_r; lra. }
    lra. }
  destruct (Qle_bool (pow2 (ln - ld)) q) eqn:C.
  - apply Qle_bool_iff in C. split; [exact C | exact U].
  - split; [exact B|].
    replace (ln - ld - 1 + 1) with (ln - ld) by lia.
    destruct (Qlt_le_dec q (pow2 (ln - ld))) as [L | G]; [exact L|].
    apply Qle_bool_iff in G. congruence.
Qed.

Lemma ilog2_mono (p q : Q) :
  (0 < p)%Q -> (p <= q)%Q -> ilog2 p <= ilog2 q.
Proof.
  intros Hp H.
  destruct (ilog2_spec p Hp) as [P1 P2].
  destruct (ilog2_spec q) as [Q1 Q2]; [lra|].
  destruct (Z_le_gt_dec (ilog2 p) (ilog2 q)) as [L | G]; [exact L|].
  exfalso. pose proof (pow2_le (ilog2 q + 1) (ilog2 p) ltac:(lia)). lra.
Qed.

(** The rounded value of a positive number stays between the two powers
    of two around it, as far as they are on its grid. *)
Lemma on_grid_between (q : Q) :
  (0 < q)%Q ->
  (on_grid (quantum q) q <= pow2 (Z.max (ilog2 q + 1) (quantum q)))%Q
  /\ (quantum q <= ilog2 q ->
      (pow2 (ilog2 q) <= on_grid (quantum q) q)%Q).
Proof.
  intros Hq. destruct (ilog2_spec q Hq) as [L U]. split.
  - rewrite <- (on_grid_pow2 (quantum q) (Z.max (ilog2 q + 1) (quantum q)))
      by lia.
    apply on_grid_mono.
    pose proof (pow2_le (ilog2 q + 1) (Z.max (ilog2 q + 1) (quantum q))
                  ltac:(lia)).
    lra.
  - intros H. rewrite <- (on_grid_pow2 (quantum q) (ilog2 q)) by exact H.
    now apply on_grid_mono.
Qed.

(** Rounding is monotone across the grids. *)
Lemma on_grid_quantum_mono (p q : Q) :
  (0 <= p)%Q -> (p <= q)%Q ->
  (on_grid (quantum p) p <= on_grid (quantum q) q)%Q.
Proof.
  intros Hp H.
  destruct (Qlt_le_dec 0 p) as [Pp | Pz].
  - pose proof (ilog2_mono p q Pp H) as M.
    assert (Qp : (0 < q)%Q) by lra.
    destruct (Z.eq_dec (quantum p) (quantum q)) as [E | NE].
    + rewrite E. now apply on_grid_mono.
    + assert (Lt : quantum p < quantum q) by (unfold quantum in *; lia).
      destruct (on_grid_between p Pp) as [Up _].
      destruct (on_grid_between q Qp) as [_ Lq].
      assert (Hq : quantum q <= ilog2 q) by (unfold quantum in *; lia).
      specialize (Lq Hq).
      pose proof (pow2_le (Z.max (ilog2 p + 1) (quantum p)) (ilog2 q)
                    ltac:(unfold quantum in *; lia)).
      lra.
  - assert (E : (p == 0)%Q) by lra.
    rewrite (on_grid_comp _ _ _ E), on_grid_zero.
    apply on_grid_nonneg. lra.
Qed.

(** Rounding never gives [nan]. *)
Lemma round_pos_cases (q : Q) :
  (0 <= q)%Q ->
  round_pos q = PosInf
  \/ exists r, round_pos q = Finite r /\ (0 <= r)%Q
               /\ (r == on_grid (quantum q) q)%Q
               /\ (r < pow2 1024)%Q.
Proof.
  intros H. unfold round_pos.
  destruct (Qle_bool (pow2 1024) (on_grid (quantum q) q)) eqn:C;
    [now left | right].
  eexists. split; [reflexivity|]. rewrite Qred_correct.
  split; [now apply on_grid_nonneg|]. split; [reflexivity|].
  destruct (Qlt_le_dec (on_grid (quantum q) q) (pow2 1024)) as [L | G];
    [exact L|].
  apply Qle_bool_iff in G. congruence.
Qed.

Lemma round_pos_mono (p q : Q) :
  (0 <= p)%Q -> (p <= q)%Q -> flt (round_pos q) (round_pos p) = false.
Proof.
  intros Hp H.
  pose proof (on_grid_quantum_mono p q Hp H) as M.
  unfold round_pos.
  destruct (Qle_bool (pow2 1024) (on_grid (quantum p) p)) eqn:Cp;
    destruct (Qle_bool (pow2 1024) (on_grid (quantum q) q)) eqn:Cq;
    try reflexivity.
  - apply Qle_bool_iff in Cp.
    assert (X : Qle_bool (pow2 1024) (on_grid (quantum q) q) = true)
      by (apply Qle_bool_iff; lra).
    congruence.
  - apply flt_finite_false. now rewrite !Qred_correct.
Qed.

Lemma b64_cases (q : Q) :
  b64 q = PosInf \/ b64 q = NegInf \/ exists r, b64 q = Finite r.
Proof.
  unfold b64. destruct (Qlt_le_dec q 0) as [L | G].
  - destruct (round_pos_cases (- q)) as [-> | (r & -> & _)]; [lra | |];
      cbn [fneg]; eauto.
  - destruct (round_pos_cases q G) as [-> | (r & -> & _)]; eauto.
Qed.

(** What does not lie below zero is not rounded below zero. *)
Lemma b64_nonneg (q : Q) :
  (0 <= q)%Q -> b64 q = PosInf \/ exists r, b64 q = Finite r /\ (0 <= r)%Q.
Proof.
  intros H. unfold b64. destruct (Qlt_le_dec q 0) as [L | G]; [lra|].
  destruct (round_pos_cases q G) as [-> | (r & -> & R & _)]; eauto.
Qed.

Lemma b64_nonpos (q : Q) :
  (q <= 0)%Q -> b64 q = NegInf \/ exists r, b64 q = Finite r /\ (r <= 0)%Q.
Proof.
  intros H. unfold b64. destruct (Qlt_le_dec q 0) as [L | G].
  - destruct (round_pos_cases (- q)) as [-> | (r & -> & R & _)]; [lra | |];
      cbn [fneg]; [now left | right].
    eexists. split; [reflexivity | lra].
  - assert (E : (q == 0)%Q) by lra.
    destruct (round_pos_cases q G) as [I | (r & -> & R & Er & _)].
    + exfalso. unfold round_pos in I.
      destruct (Qle_bool (pow2 1024) (on_grid (quantum q) q)) eqn:C;
        [|discriminate I].
      apply Qle_bool_iff in C.
      rewrite (on_grid_comp _ _ _ E), on_grid_zero in C.
      pose proof (pow2_pos 1024). lra.
    + right. eexists. split; [reflexivity|].
      rewrite Er, (on_grid_comp _ _ _ E), on_grid_zero. lra.
Qed.

(** Rounding to binary64 is monotone, the infinities being the ends of
    the order. *)
Lemma b64_mono (p q : Q) : (p <= q)%Q -> flt (b64 q) (b64 p) = false.
Proof.
  intros H.
  destruct (Qlt_le_dec q 0) as [Qn | Qp].
  - (* both negative *)
    unfold b64.
    destruct (Qlt_le_dec p 0) as [_ | ?]; [|lra].
    destruct (Qlt_le_dec q 0) as [_ | ?]; [|lra].
    pose proof (round_pos_mono (- q) (- p) ltac:(lra) ltac:(lra)) as M.
    destruct (round_pos_cases (- q)) as [Eq | (rq & Eq & Rq & _)]; [lra | |];
      destruct (round_pos_cases (- p)) as [Ep | (rp & Ep & Rp & _)];
      try lra; rewrite Eq, Ep in *; cbn [fneg]; try reflexivity;
      try discriminate M.
    apply flt_finite_false in M. apply flt_finite_false. lra.
  - destruct (Qlt_le_dec p 0) as [Pn | Pp].
    + (* p below zero, q not *)
      destruct (b64_nonpos p ltac:(lra)) as [-> | (rp & -> & Rp)];
        destruct (b64_nonneg q Qp) as [-> | (rq & -> & Rq)];
        try reflexivity.
      apply flt_finite_false. lra.
    + unfold b64.
      destruct (Qlt_le_dec p 0) as [? | _]; [lra|].
      destruct (Qlt_le_dec q 0) as [? | _]; [lra|].
      now apply round_pos_mono.
Qed.

(** Two floats that [clamp] keeps in order: the first is [nan] or the
    negative infinity, or the second is the positive infinity, or they are
    the same, or they are finite and in order. *)
Lemma clamp_pair (u v : pyfloat) (n : Z) :
  0 <= n ->
  u = NaN \/ u = NegInf \/ v = PosInf \/ u = v
  \/ (exists a b, u = Finite a /\ v = Finite b /\ (a <= b)%Q) ->
  exists q1 q2,
    ExportDetections.clamp u (of_int 0) (of_int n) = Finite q1
    /\ ExportDetections.clamp v (of_int 0) (of_int n) = Finite q2
    /\ (0 <= q1)%Q /\ (q1 <= q2)%Q /\ (q2 <= inject_Z n)%Q.
Proof.
  intros Hn H.
  destruct (clamp_range u n Hn) as (q1 & E1 & L1 & U1).
  destruct (clamp_range v n Hn) as (q2 & E2 & L2 & U2).
  exists q1, q2. do 2 (split; [assumption|]).
  split; [exact L1|]. split; [|exact U2].
  destruct H as [-> | [-> | [-> | [-> | (a & b & -> & -> & Hab)]]]].
  - rewrite clamp_NaN in E1. injection E1 as <-. exact L2.
  - rewrite clamp_NegInf in E1. injection E1 as <-. exact L2.
  - destruct (clamp_PosInf n Hn) as (qi & Ei & Hi).
    rewrite Ei in E2. injection E2 as <-. lra.
  - rewrite E1 in E2. injection E2 as <-. lra.
  - destruct (clamp_finite a n) as (q1' & E1' & H1).
    destruct (clamp_finite b n) as (q2' & E2' & H2).
    rewrite E1' in E1. rewrite E2' in E2.
    injection E1 as <-. injection E2 as <-.
    pose proof (clamp_to_mono 0 (inject_Z n) a b Hab). lra.
Qed.

Lemma b64_pair (x y : Q) :
  (x <= y)%Q ->
  b64 x = NaN \/ b64 x = NegInf \/ b64 y = PosInf \/ b64 x = b64 y
  \/ (exists a b, b64 x = Finite a /\ b64 y = Finite b /\ (a <= b)%Q).
Proof.
  intros H. pose proof (b64_mono x y H) as M.
  destruct (b64_cases x) as [Ex | [Ex | (a & Ex)]];
    destruct (b64_cases y) as [Ey | [Ey | (b & Ey)]];
    rewrite Ex, Ey in *; try discriminate M; auto.
  apply flt_finite_false in M. do 4 right. eauto.
Qed.

(** The two edges around a centre [c] for a size [s] that is not
    negative come out of [clamp] finite, in order and inside the image. *)
Lemma edges_ordered (c s : pyfloat) (n : Z) :
  0 <= n -> not_negative s ->
  exists q1 q2,
    ExportDetections.clamp (bsub c (bhalf s)) (of_int 0) (of_int n) = Finite q1
    /\ ExportDetections.clamp (badd c (bhalf s)) (of_int 0) (of_int n) = Finite q2
    /\ (0 <= q1)%Q /\ (q1 <= q2)%Q /\ (q2 <= inject_Z n)%Q.
Proof.
  intros Hn Hs. unfold not_negative in Hs. apply (clamp_pair _ _ n Hn).
  assert (Hh : bhalf s = NaN \/ bhalf s = PosInf
               \/ exists r, bhalf s = Finite r /\ (0 <= r)%Q).
  { destruct s as [b | | |]; try discriminate Hs; cbn; auto.
    apply flt_finite_false in Hs. change (inject_Z 0) with 0%Q in Hs.
    right. apply b64_nonneg. rewrite Qhalf. lra. }
  destruct Hh as [-> | [-> | (r & -> & Hr)]].
  - destruct c; cbn; auto.
  - destruct c; cbn; auto.
  - destruct c as [a | | |]; cbn [bsub badd fsub fadd fneg rounded]; auto.
    apply b64_pair. lra.
Qed.

Lemma bmul_not_negative (x : pyfloat) (n : Z) :
  0 < n -> not_negative x -> not_negative (bmul x (of_int n)).
Proof.
  unfold not_negative. intros Hn Hx. apply inject_Z_pos in Hn.
  destruct x as [a | | |]; try discriminate Hx; unfold bmul, of_int.
  - apply flt_finite_false in Hx. change (inject_Z 0) with 0%Q in *.
    cbn [fmul rounded].
    destruct (b64_nonneg (a * inject_Z n)) as [-> | (r & -> & Hr)];
      [apply Qmult_le_0_compat; lra | reflexivity |].
    apply flt_finite_false. exact Hr.
  - assert (C : (inject_Z n ?= 0)%Q = Gt) by (now apply Qgt_alt).
    cbn [fmul]. rewrite C. reflexivity.
  - reflexivity.
Qed.

(** ** The coordinate mapper *)

(** [convert_to_pixels] never raises: every clamped edge is finite. *)
Lemma convert_to_pixels_total (cx cy w h : pyfloat) (width height : Z) :
  0 <= width -> 0 <= height ->
  exists q1 q2 q3 q4,
    ExportDetections.convert_to_pixels cx cy w h width height
    = Ok (round_half_even q1, round_half_even q2,
          round_half_even q3, round_half_even q4)
    /\ ((0 <= q1)%Q /\ (q1 <= inject_Z width)%Q)
    /\ ((0 <= q2)%Q /\ (q2 <= inject_Z height)%Q)
    /\ ((0 <= q3)%Q /\ (q3 <= inject_Z width)%Q)
    /\ ((0 <= q4)%Q /\ (q4 <= inject_Z height)%Q).
Proof.
  intros Hw Hh. unfold ExportDetections.convert_to_pixels.
  destruct (clamp_range
              (bsub (bmul cx (of_int width)) (bhalf (bmul w (of_int width))))
              width Hw) as (q1 & E1 & L1 & U1).
  destruct (clamp_range
              (bsub (bmul cy (of_int height)) (bhalf (bmul h (of_int height))))
              height Hh) as (q2 & E2 & L2 & U2).
  destruct (clamp_range
              (badd (bmul cx (of_int width)) (bhalf (bmul w (of_int width))))
              width Hw) as (q3 & E3 & L3 & U3).
  destruct (clamp_range
              (badd (bmul cy (of_int height)) (bhalf (bmul h (of_int height))))
              height Hh) as (q4 & E4 & L4 & U4).
  exists q1, q2, q3, q4. cbv zeta. rewrite E1, E2, E3, E4.
  repeat split; assumption.
Qed.

(** C9.  For every value of [cx], [cy], [w], [h], finite of any sign and
    size, infinite or [nan], and every positive [width] and [height],
    [convert_to_pixels] returns a box, and each of its coordinates is
    within bounds: [x1] and [x2] in [[0, width]], [y1] and [y2] in
    [[0, height]]. *)
Theorem convert_to_pixels_within_bounds
    (cx cy w h : pyfloat) (width height : Z) :
  0 < width -> 0 < height ->
  exists b, ExportDetections.convert_to_pixels cx cy w h width height = Ok b
            /\ bbox_within width height b.
Proof.
  intros Hw Hh.
  destruct (convert_to_pixels_total cx cy w h width height)
    as (q1 & q2 & q3 & q4 & E & [L1 U1] & [L2 U2] & [L3 U3] & [L4 U4]);
    [lia | lia |].
  eexists. split; [exact E|]. unfold bbox_within.
  pose proof (round_half_even_range q1 width L1 U1).
  pose proof (round_half_even_range q2 height L2 U2).
  pose proof (round_half_even_range q3 width L3 U3).
  pose proof (round_half_even_range q4 height L4 U4).
  lia.
Qed.

Lemma convert_to_pixels_within_bounds_witness :
  (0 < 100 /\ 0 < 200) /\
  exists b,
    ExportDetections.convert_to_pixels
      (Finite (3 # 2)) NegInf (Finite (- (1 # 5))) NaN 100 200 = Ok b
    /\ bbox_within 100 200 b.
Proof.
  split; [lia|].
  apply (convert_to_pixels_within_bounds
           (Finite (3 # 2)) NegInf (Finite (- (1 # 5))) NaN 100 200); lia.
Defined.

(** A label line with a negative width is parsed, and its box comes out
    with [x1 = 60] above [x2 = 40]: the ordering of C1 fails. *)
Lemma convert_to_pixels_negative_size_unordered :
  exists d,
    ExportDetections.export_line None 100 200 "0 0.5 0.5 -0.2 0.4" = Ok d
    /\ ExportDetections.bbox_pixels d = (60, 60, 40, 140)
    /\ ~ bbox_ordered 100 200 (ExportDetections.bbox_pixels d).
Proof.
  eexists. split; [vm_compute; reflexivity|].
  split; [reflexivity|].
  cbn. lia.
Qed.

(** C1, amended.  For every [cx] and [cy], every [w] and [h] that are
    not negative, and every positive [width] and [height],
    [convert_to_pixels] returns a box with [0 <= x1 <= x2 <= width] and
    [0 <= y1 <= y2 <= height]. *)
Theorem convert_to_pixels_ordered
    (cx cy w h : pyfloat) (width height : Z) :
  0 < width -> 0 < height -> not_negative w -> not_negative h ->
  exists b, ExportDetections.convert_to_pixels cx cy w h width height = Ok b
            /\ bbox_ordered width height b.
Proof.
  intros Hw Hh Nw Nh. unfold ExportDetections.convert_to_pixels.
  destruct (edges_ordered (bmul cx (of_int width)) (bmul w (of_int width))
              width (Z.lt_le_incl _ _ Hw) (bmul_not_negative w width Hw Nw))
    as (q1 & q3 & E1 & E3 & L1 & M1 & U1).
  destruct (edges_ordered (bmul cy (of_int height)) (bmul h (of_int height))
              height (Z.lt_le_incl _ _ Hh) (bmul_not_negative h height Hh Nh))
    as (q2 & q4 & E2 & E4 & L2 & M2 & U2).
  cbv zeta. rewrite E1, E2, E3, E4. eexists. split; [reflexivity|].
  unfold bbox_ordered.
  pose proof (round_half_even_mono q1 q3 M1).
  pose proof (round_half_even_mono q2 q4 M2).
  assert (B1 : (q1 <= inject_Z width)%Q) by lra.
  assert (B2 : (q2 <= inject_Z height)%Q) by lra.
  assert (B3 : (0 <= q3)%Q) by lra.
  assert (B4 : (0 <= q4)%Q) by lra.
  pose proof (round_half_even_range q1 width L1 B1).
  pose proof (round_half_even_range q2 height L2 B2).
  pose proof (round_half_even_range q3 width B3 U1).
  pose proof (round_half_even_range q4 height B4 U2).
  lia.
Qed.

Lemma convert_to_pixels_ordered_witness :
  (0 < 100 /\ 0 < 200 /\ not_negative (Finite (1 # 5)) /\ not_negative PosInf)
  /\ exists b,
       ExportDetections.convert_to_pixels
         (Finite (1 # 2)) (Finite (7 # 4)) (Finite (1 # 5)) PosInf 100 200
       = Ok b
       /\ bbox_ordered 100 200 b.
Proof.
  split; [repeat split; try lia; reflexivity|].
  apply (convert_to_pixels_ordered
           (Finite (1 # 2)) (Finite (7 # 4)) (Finite (1 # 5)) PosInf 100 200);
    try lia; reflexivity.
Defined.

(** On a 5 by 5 image the centre [0.5] with no size has its four edges
    on [2.5], which the script rounds to [2]; rounding a half away from
    zero gives [3]. *)
Lemma convert_to_pixels_not_half_away :
  ExportDetections.convert_to_pixels
    (Finite (1 # 2)) (Finite (1 # 2)) (Finite 0) (Finite 0) 5 5
  = Ok (2, 2, 2, 2)
  /\ spec_edges (Finite (1 # 2)) (Finite (1 # 2)) (Finite 0) (Finite 0) 5 5
     = (Finite (5 # 2), Finite (5 # 2), Finite (5 # 2), Finite (5 # 2))
  /\ spec_pixel round_half_away 5 (5 # 2) = 3.
Proof. repeat split; vm_compute; reflexivity. Qed.

(** C3, amended.  [convert_to_pixels] computes [x_center = cx * width],
    [y_center = cy * height], [box_w = w * width], [box_h = h * height],
    takes the four edges [x_center -+ box_w / 2] and
    [y_center -+ box_h / 2], each operation in binary64, clamps each edge
    to [[0, width]] or [[0, height]] and rounds it to the nearest integer,
    a half going to the even neighbour; and the line
    ["0 0.5 0.5 0.2 0.4 0.9"] on a 100 by 200 image gives the box
    [(40, 60, 60, 140)]. *)
Theorem convert_to_pixels_rounds_half_even :
  (forall (cx cy w h : pyfloat) (width height : Z) (e1 e2 e3 e4 : Q),
      spec_edges cx cy w h width height
      = (Finite e1, Finite e2, Finite e3, Finite e4) ->
      ExportDetections.convert_to_pixels cx cy w h width height
      = Ok (spec_pixel round_half_even width e1,
            spec_pixel round_half_even height e2,
            spec_pixel round_half_even width e3,
            spec_pixel round_half_even height e4))
  /\ (exists d,
        ExportDetections.export_line None 100 200 "0 0.5 0.5 0.2 0.4 0.9"
        = Ok d
        /\ ExportDetections.bbox_pixels d = (40, 60, 60, 140)).
Proof.
  split.
  - intros cx cy w h width height e1 e2 e3 e4 E.
    unfold spec_edges in E. cbv zeta in E.
    injection E as E1 E2 E3 E4.
    unfold ExportDetections.convert_to_pixels, spec_pixel. cbv zeta.
    rewrite E1, E2, E3, E4.
    destruct (clamp_finite e1 width) as (q1 & -> & H1).
    destruct (clamp_finite e2 height) as (q2 & -> & H2).
    destruct (clamp_finite e3 width) as (q3 & -> & H3).
    destruct (clamp_finite e4 height) as (q4 & -> & H4).
    cbn [py_round rbind].
    rewrite (round_half_even_comp _ _ H1), (round_half_even_comp _ _ H2),
      (round_half_even_comp _ _ H3), (round_half_even_comp _ _ H4).
    reflexivity.
  - eexists. split; [vm_compute; reflexivity | reflexivity].
Qed.

Lemma convert_to_pixels_rounds_half_even_witness :
  ExportDetections.convert_to_pixels
    (Finite (3602879701896397 # 36028797018963968)) (Finite (1 # 2))
    (Finite 0) (Finite 0) 25 5
  = Ok (spec_pixel round_half_even 25 (5 # 2),
        spec_pixel round_half_even 5 (5 # 2),
        spec_pixel round_half_even 25 (5 # 2),
        spec_pixel round_half_even 5 (5 # 2)).
Proof.
  apply (proj1 convert_to_pixels_rounds_half_even
           (Finite (3602879701896397 # 36028797018963968)) (Finite (1 # 2))
           (Finite 0) (Finite 0) 25 5).
  vm_compute. reflexivity.
Defined.

(** ** The label parser *)

Lemma py_float_raises (s : string) (e : exn) :
  py_float s = Raise e -> e = ValueError.
Proof.
  unfold py_float.
  destruct (sign (py_strip s)) as [neg body].
  destruct (String.eqb (lower body) "inf" || String.eqb (lower body) "infinity");
    [discriminate|].
  destruct (String.eqb (lower body) "nan"); [discriminate|].
  destruct (number body) as [[[m k] rest]|]; [|congruence].
  destruct (exponent rest); [discriminate | congruence].
Qed.

(** [parse_parts] on five tokens or more, with the tokens named. *)
Lemma parse_parts_five (t0 t1 t2 t3 t4 : string) (rest : list string) :
  ExportDetections.parse_parts (t0 :: t1 :: t2 :: t3 :: t4 :: rest)
  = (let* f0 := py_float t0 in
     let* class_id := py_int f0 in
     let* cx := py_float t1 in
     let* cy := py_float t2 in
     let* w := py_float t3 in
     let* h := py_float t4 in
     let* confidence :=
       (match rest with
        | [] => Ok None
        | t5 :: _ => let* c := py_float t5 in Ok (Some c)
        end) in
     Ok (class_id, cx, cy, w, h, confidence)).
Proof.
  unfold ExportDetections.parse_parts.
  assert (L : (Z.of_nat (List.length (t0 :: t1 :: t2 :: t3 :: t4 :: rest)) <? 5)
              = false) by (apply Z.ltb_ge; cbn [List.length]; lia).
  rewrite L. cbn [nth].
  destruct rest as [|t5 rest'].
  - reflexivity.
  - assert (G : (5 <? Z.of_nat
                         (List.length (t0 :: t1 :: t2 :: t3 :: t4 :: t5 :: rest')))
                = true) by (apply Z.ltb_lt; cbn [List.length]; lia).
    rewrite G. reflexivity.
Qed.

Lemma parse_parts_short (parts : list string) :
  (List.length parts < 5)%nat ->
  ExportDetections.parse_parts parts = Raise ValueError.
Proof.
  intros H. unfold ExportDetections.parse_parts.
  assert (L : (Z.of_nat (List.length parts) <? 5) = true)
    by (apply Z.ltb_lt; lia).
  now rewrite L.
Qed.


(** One direction of an equivalence between an outcome of the parser and
    a condition on the tokens, once both sides are evaluated. *)
Ltac outcome_direction :=
  first
    [ intros [? H]; discriminate H
    | intros H; discriminate H
    | intros (H1 & H2 & H3);
      first [cbn in H1; lia | discriminate H2 | discriminate H3]
    | intros (H1 & H2); first [cbn in H1; lia | discriminate H2]
    | intros _; repeat split; first [reflexivity | cbn; lia]
    | intros _; eexists; reflexivity ].

Ltac outcome_cases :=
  split;
  [ split; outcome_direction
  | first [ intros _; reflexivity
          | intros [H | H]; [cbn in H; lia | discriminate H]
          | eexists; split; reflexivity ] ].

(** The line ["1.7 0.5 0.5 0.2 0.2"] is parsed, with class 1, although
    its first token is not an integer. *)
Lemma parse_label_line_accepts_fractional_class :
  is_integral "1.7" = false
  /\ exists cx cy w h,
       ExportDetections.parse_label_line "1.7 0.5 0.5 0.2 0.2"
       = Ok (1, cx, cy, w, h, None).
Proof.
  split; [vm_compute; reflexivity|].
  do 4 eexists. vm_compute. reflexivity.
Qed.

(** C4, amended.  [parse_label_line] returns a result exactly when the
    line has at least five tokens, [float()] reads the first as a finite
    number and reads each of the next four, and the sixth when there is
    one ([nan] and the infinities are read too).  The class id is then the
    value of the first token cut toward zero, integral or not.  A line
    that gives no result raises [ValueError], the case of a line of five
    tokens or more whose first token reads as an infinity being left
    aside. *)
Theorem parse_label_line_outcome (line : string) :
  ((exists r, ExportDetections.parse_label_line line = Ok r)
   <-> (5 <= List.length (tokens line))%nat
       /\ is_numeric (nth 0 (tokens line) "") = true
       /\ forallb reads_as_float (firstn 6 (tokens line)) = true)
  /\ match ExportDetections.parse_label_line line with
     | Ok (class_id, _, _, _, _, _) =>
         exists q, py_float (nth 0 (tokens line) "") = Ok (Finite q)
                   /\ class_id = truncate q
     | Raise e =>
         (List.length (tokens line) < 5)%nat
         \/ is_infinite (nth 0 (tokens line) "") = false ->
         e = ValueError
     end.
Proof.
  unfold ExportDetections.parse_label_line, tokens.
  destruct (py_split (py_strip line))
    as [|t0 [|t1 [|t2 [|t3 [|t4 rest]]]]];
    try (rewrite parse_parts_short by (cbn; lia); outcome_cases).
  rewrite parse_parts_five.
  cbn [nth firstn forallb List.length].
  unfold is_numeric, is_infinite, reads_as_float.
  destruct (py_float t0) as [[q0 | | |] | e0] eqn:E0;
    try (apply py_float_raises in E0; subst e0);
    cbn [rbind py_int]; try outcome_cases.
  destruct (py_float t1) as [x1 | e1] eqn:E1;
    try (apply py_float_raises in E1; subst e1);
    cbn [rbind andb]; try outcome_cases.
  destruct (py_float t2) as [x2 | e2] eqn:E2;
    try (apply py_float_raises in E2; subst e2);
    cbn [rbind andb]; try outcome_cases.
  destruct (py_float t3) as [x3 | e3] eqn:E3;
    try (apply py_float_raises in E3; subst e3);
    cbn [rbind andb]; try outcome_cases.
  destruct (py_float t4) as [x4 | e4] eqn:E4;
    try (apply py_float_raises in E4; subst e4);
    cbn [rbind andb]; try outcome_cases.
  destruct rest as [|t5 rest']; cbn [firstn forallb rbind andb];
    [outcome_cases|].
  destruct (py_float t5) as [x5 | e5] eqn:E5;
    try (apply py_float_raises in E5; subst e5);
    cbn [rbind andb]; outcome_cases.
Qed.



(** ** The image resolver *)

Lemma first_file_twice (fs : ExportDetections.FileSystem) (stem : string)
    (d : ExportDetections.Path) :
  ExportDetections.first_file fs stem [d; d]
  = ExportDetections.first_file fs stem [d].
Proof.
  cbn [ExportDetections.first_file].
  now destruct (List.find _ _).
Qed.

(** When the loop meets the root first, the script searches in the order
    of the specification. *)
Lemma find_image_for_label_root_first (fs : ExportDetections.FileSystem)
    (runs_dir label_path : ExportDetections.Path) :
  ExportDetections.find_image_for_label false fs runs_dir label_path
  = ExportDetections.resolve_in_spec_order fs runs_dir label_path.
Proof.
  unfold ExportDetections.find_image_for_label,
    ExportDetections.resolve_in_spec_order, ExportDetections.set_iter,
    ExportDetections.path_eqb.
  destruct (String.eqb _ "labels").
  - destruct (bool_decide_reflect
                (runs_dir = ExportDetections.parent
                              (ExportDetections.parent label_path)))
      as [E | NE].
    + rewrite <- E, first_file_twice. reflexivity.
    + reflexivity.
  - rewrite bool_decide_eq_true_2 by reflexivity. reflexivity.
Qed.

(** C5, the failing input.  With an image of the same base name both
    under the root and under the grandparent of the label file, the
    script returns the one under the grandparent when the loop over the
    set of the two directories meets the grandparent first; the order of
    the specification returns the one under the root. *)
Theorem find_image_for_label_set_order :
  let fs := ExportDetections.fs_of_files
              [["runs"; "a.png"]; ["data"; "a.jpg"]] in
  ExportDetections.find_image_for_label true fs
    ["runs"] ["data"; "labels"; "a.txt"] = Ok ["data"; "a.jpg"]
  /\ ExportDetections.find_image_for_label false fs
       ["runs"] ["data"; "labels"; "a.txt"] = Ok ["runs"; "a.png"]
  /\ ExportDetections.resolve_in_spec_order fs
       ["runs"] ["data"; "labels"; "a.txt"] = Ok ["runs"; "a.png"].
Proof. repeat split; vm_compute; reflexivity. Qed.

(** ** Sorting *)

Section SortFacts.

Context {A : Type}.
Variable key : A -> Q.

Lemma insert_desc_perm (x : A) (l : list A) :
  Permutation (insert_desc key x l) (x :: l).
Proof.
  induction l as [|y l IH]; cbn [insert_desc]; [reflexivity|].
  destruct (Qltb (key x) (key y)); [|reflexivity].
  rewrite IH. apply perm_swap.
Qed.

Lemma sort_desc_perm (l : list A) : Permutation (sort_desc key l) l.
Proof.
  induction l as [|x l IH]; cbn [sort_desc fold_right]; [reflexivity|].
  fold (sort_desc key l). rewrite insert_desc_perm. now constructor.
Qed.

Lemma sort_desc_In (x : A) (l : list A) : In x (sort_desc key l) <-> In x l.
Proof.
  split; apply Permutation_in;
    [apply sort_desc_perm | symmetry; apply sort_desc_perm].
Qed.

End SortFacts.

Section FloatSortFacts.

Context {A : Type}.
Variable key : A -> pyfloat.

Lemma insert_desc_float_perm (x : A) (l : list A) :
  Permutation (insert_desc_float key x l) (x :: l).
Proof.
  induction l as [|y l IH]; cbn [insert_desc_float]; [reflexivity|].
  destruct (flt (key x) (key y)); [|reflexivity].
  rewrite IH. apply perm_swap.
Qed.

Lemma sort_desc_float_perm (l : list A) :
  Permutation (sort_desc_float key l) l.
Proof.
  induction l as [|x l IH]; cbn [sort_desc_float fold_right]; [reflexivity|].
  fold (sort_desc_float key l). rewrite insert_desc_float_perm.
  now constructor.
Qed.

Lemma sort_desc_float_In (x : A) (l : list A) :
  In x (sort_desc_float key l) <-> In x l.
Proof.
  split; apply Permutation_in;
    [apply sort_desc_float_perm | symmetry; apply sort_desc_float_perm].
Qed.

End FloatSortFacts.

(** ** The refiner *)

Lemma Qltb_false (x y : Q) : Qltb x y = false <-> (y <= x)%Q.
Proof.
  unfold Qltb. destruct (Qlt_le_dec x y); split; intros; try easy; lra.
Qed.

Lemma Qltb_true (x y : Q) : Qltb x y = true <-> (x < y)%Q.
Proof.
  unfold Qltb. destruct (Qlt_le_dec x y); split; intros; try easy; lra.
Qed.

(** Among floats that are not [nan], [x < y] is false exactly when
    [y <= x]. *)
Lemma flt_false_fle (x y : pyfloat) :
  x <> NaN -> y <> NaN -> (flt x y = false <-> fle y x = true).
Proof.
  intros Hx Hy.
  destruct x as [a | | |], y as [b | | |]; try congruence; cbn [flt fle];
    try (split; (reflexivity || discriminate)).
  destruct (Qlt_le_dec a b); split; (reflexivity || discriminate).
Qed.

Lemma fle_not_nan (x y : pyfloat) : fle x y = true -> x <> NaN /\ y <> NaN.
Proof.
  destruct x, y; cbn [fle]; intros H; split; (discriminate || exact H).
Qed.

Lemma fle_trans (x y z : pyfloat) :
  fle x y = true -> fle y z = true -> fle x z = true.
Proof.
  destruct x as [a | | |], y as [b | | |], z as [c | | |]; cbn [fle];
    try discriminate; try reflexivity.
  destruct (Qlt_le_dec b a), (Qlt_le_dec c b), (Qlt_le_dec c a);
    try discriminate; try reflexivity.
  intros _ _. exfalso. lra.
Qed.

(** What [detection_passes] decides. *)
Lemma detection_passes_spec (d : RefineDetections.Detection)
    (min_conf : pyfloat) (allowed_ids : gset Z) (allowed_names : gset string) :
  RefineDetections.detection_passes d min_conf allowed_ids allowed_names = true
  <-> flt (RefineDetections.conf_value d) min_conf = false
      /\ ((allowed_ids = ∅ /\ allowed_names = ∅)
          \/ (exists i, RefineDetections.class_id d = Some i
                        /\ i ∈ allowed_ids)
          \/ (exists n, RefineDetections.class_name d = Some n
                        /\ lower n ∈ allowed_names)).
Proof.
  unfold RefineDetections.detection_passes.
  destruct (flt (RefineDetections.conf_value d) min_conf) eqn:C.
  - split; [discriminate|]. intros [H _]. discriminate H.
  - destruct (bool_decide_reflect (allowed_ids = ∅)) as [Ei | Ni];
      destruct (bool_decide_reflect (allowed_names = ∅)) as [En | Nn];
      cbn [andb negb].
    + split; [intros _; split; [reflexivity | left; now split] | reflexivity].
    + destruct (RefineDetections.class_name d) as [n|].
      * destruct (bool_decide_reflect (lower n ∈ allowed_names)) as [I | NI].
        -- split; [intros _; split; [reflexivity | right; right; eauto]
                  | reflexivity].
        -- split; [discriminate|].
           intros [_ [[_ E] | [(i & _ & Hi) | (m & Em & Hm)]]].
           ++ contradiction.
           ++ subst allowed_ids. now apply not_elem_of_empty in Hi.
           ++ injection Em as <-. contradiction.
      * split; [discriminate|].
        intros [_ [[_ E] | [(i & _ & Hi) | (m & Em & _)]]].
        -- contradiction.
        -- subst allowed_ids. now apply not_elem_of_empty in Hi.
        -- discriminate Em.
    + destruct (RefineDetections.class_id d) as [i|].
      * destruct (bool_decide_reflect (i ∈ allowed_ids)) as [I | NI].
        -- split; [intros _; split; [reflexivity | right; left; eauto]
                  | reflexivity].
        -- split; [discriminate|].
           intros [_ [[E _] | [(j & Ej & Hj) | (m & _ & Hm)]]].
           ++ contradiction.
           ++ injection Ej as <-. contradiction.
           ++ subst allowed_names. now apply not_elem_of_empty in Hm.
      * split; [discriminate|].
        intros [_ [[E _] | [(j & Ej & _) | (m & _ & Hm)]]].
        -- contradiction.
        -- discriminate Ej.
        -- subst allowed_names. now apply not_elem_of_empty in Hm.
    + assert (Hid : match RefineDetections.class_id d with
                    | Some i => bool_decide (i ∈ allowed_ids)
                    | None => false
                    end = true
                    <-> exists i, RefineDetections.class_id d = Some i
                                  /\ i ∈ allowed_ids).
      { destruct (RefineDetections.class_id d) as [i|].
        - rewrite bool_decide_eq_true. split; [eauto|].
          intros (j & Ej & Hj). now injection Ej as <-.
        - split; [discriminate | intros (j & Ej & _); discriminate Ej]. }
      assert (Hname : match RefineDetections.class_name d with
                      | Some n => bool_decide (lower n ∈ allowed_names)
                      | None => false
                      end = true
                      <-> exists n, RefineDetections.class_name d = Some n
                                    /\ lower n ∈ allowed_names).
      { destruct (RefineDetections.class_name d) as [n|].
        - rewrite bool_decide_eq_true. split; [eauto|].
          intros (m & Em & Hm). now injection Em as <-.
        - split; [discriminate | intros (m & Em & _); discriminate Em]. }
      destruct (match RefineDetections.class_id d with
                | Some i => bool_decide (i ∈ allowed_ids)
                | None => false
                end).
      * split; [intros _; split; [reflexivity | right; left; now apply Hid]
               | reflexivity].
      * destruct (match RefineDetections.class_name d with
                  | Some n => bool_decide (lower n ∈ allowed_names)
                  | None => false
                  end).
        -- split; [intros _; split; [reflexivity | right; right; now apply Hname]
                  | reflexivity].
        -- split; [discriminate|].
           intros [_ [[E _] | [H | H]]].
           ++ contradiction.
           ++ apply Hid in H. discriminate H.
           ++ apply Hname in H. discriminate H.
Qed.

(** C7.  For a confidence and a threshold that are numbers, the class
    filter has the OR-semantics of the specification: a detection passes
    exactly when its confidence (0.0 when absent) is at least [min_conf]
    and either both sets are empty, or its [class_id] is in the id-set, or its
    lower-cased [class_name] is in the name-set; so a match on the id-set
    alone is enough, and so is a match on the name-set alone.  What
    [detection_passes] tests is that the confidence does not compare
    below [min_conf]; no comparison with [nan] is true, so a detection
    whose confidence is [nan] passes the threshold 0.5, although it is
    not at least 0.5. *)
Theorem detection_passes_or_semantics :
  (forall (d : RefineDetections.Detection) (min_conf : pyfloat)
          (allowed_ids : gset Z) (allowed_names : gset string),
      RefineDetections.conf_value d <> NaN -> min_conf <> NaN ->
      (RefineDetections.detection_passes d min_conf allowed_ids allowed_names
       = true
       <-> fle min_conf (RefineDetections.conf_value d) = true
           /\ ((allowed_ids = ∅ /\ allowed_names = ∅)
               \/ (exists i, RefineDetections.class_id d = Some i
                             /\ i ∈ allowed_ids)
               \/ (exists n, RefineDetections.class_name d = Some n
                             /\ lower n ∈ allowed_names)))
      /\ (forall i,
            fle min_conf (RefineDetections.conf_value d) = true ->
            RefineDetections.class_id d = Some i -> i ∈ allowed_ids ->
            RefineDetections.detection_passes d min_conf allowed_ids
              allowed_names = true)
      /\ (forall n,
            fle min_conf (RefineDetections.conf_value d) = true ->
            RefineDetections.class_name d = Some n ->
            lower n ∈ allowed_names ->
            RefineDetections.detection_passes d min_conf allowed_ids
              allowed_names = true))
  /\ (forall (d : RefineDetections.Detection) (min_conf : pyfloat)
             (allowed_ids : gset Z) (allowed_names : gset string),
        RefineDetections.detection_passes d min_conf allowed_ids allowed_names
        = true
        <-> flt (RefineDetections.conf_value d) min_conf = false
            /\ ((allowed_ids = ∅ /\ allowed_names = ∅)
                \/ (exists i, RefineDetections.class_id d = Some i
                              /\ i ∈ allowed_ids)
                \/ (exists n, RefineDetections.class_name d = Some n
                              /\ lower n ∈ allowed_names)))
  /\ (RefineDetections.detection_passes
        (RefineDetections.mkDetection (Some 2) (Some "cat") (Some NaN))
        (Finite (1 # 2)) ∅ ∅ = true
      /\ fle (Finite (1 # 2))
           (RefineDetections.conf_value
              (RefineDetections.mkDetection (Some 2) (Some "cat") (Some NaN)))
         = false).
Proof.
  split; [|split].
  - intros d min_conf allowed_ids allowed_names Hc Hm.
    assert (S : RefineDetections.detection_passes d min_conf allowed_ids
                  allowed_names = true
                <-> fle min_conf (RefineDetections.conf_value d) = true
                    /\ ((allowed_ids = ∅ /\ allowed_names = ∅)
                        \/ (exists i, RefineDetections.class_id d = Some i
                                      /\ i ∈ allowed_ids)
                        \/ (exists n, RefineDetections.class_name d = Some n
                                      /\ lower n ∈ allowed_names))).
    { rewrite detection_passes_spec, (flt_false_fle _ _ Hc Hm). reflexivity. }
    split; [exact S|].
    split; intros x Hle Hd Hin; apply S; (split; [exact Hle|]);
      [right; left | right; right]; eauto.
  - intros d min_conf allowed_ids allowed_names. apply detection_passes_spec.
  - split; vm_compute; reflexivity.
Qed.

Lemma detection_passes_or_semantics_witness :
  RefineDetections.detection_passes
    (RefineDetections.mkDetection (Some 2) (Some "Cat")
       (Some (Finite (8 # 10))))
    (Finite (1 # 2)) {[ 2 ]} {[ "dog" ]} = true
  /\ RefineDetections.detection_passes
       (RefineDetections.mkDetection (Some 5) (Some "Dog") None)
       (Finite 0) {[ 2 ]} {[ "dog" ]} = true.
Proof.
  split.
  - apply (proj1 (proj2 (proj1 detection_passes_or_semantics
                           (RefineDetections.mkDetection
                              (Some 2) (Some "Cat") (Some (Finite (8 # 10))))
                           (Finite (1 # 2)) {[ 2 ]} {[ "dog" ]}
                           ltac:(discriminate) ltac:(discriminate))) 2).
    + vm_compute. reflexivity.
    + reflexivity.
    + apply elem_of_singleton. reflexivity.
  - apply (proj2 (proj2 (proj1 detection_passes_or_semantics
                           (RefineDetections.mkDetection
                              (Some 5) (Some "Dog") None)
                           (Finite 0) {[ 2 ]} {[ "dog" ]}
                           ltac:(discriminate) ltac:(discriminate))) "Dog").
    + vm_compute. reflexivity.
    + reflexivity.
    + apply elem_of_singleton. reflexivity.
Defined.

Lemma refine_record_detections (record new_record : RefineDetections.ImageRecord)
    (min_conf : pyfloat) (allowed_ids : gset Z) (allowed_names : gset string)
    (drop_empty sort_desc_flag : bool) (d : RefineDetections.Detection) :
  RefineDetections.refine_record record min_conf allowed_ids allowed_names
    drop_empty sort_desc_flag = Some new_record ->
  In d (RefineDetections.detections new_record) ->
  In d (RefineDetections.detections record)
  /\ RefineDetections.detection_passes d min_conf allowed_ids allowed_names
     = true.
Proof.
  unfold RefineDetections.refine_record. intros H Hd.
  destruct (drop_empty && _); [discriminate|].
  injection H as <-. cbn [RefineDetections.detections] in Hd.
  destruct sort_desc_flag; [apply sort_desc_float_In in Hd|];
    apply filter_In in Hd; exact Hd.
Qed.

Lemma refine_records_survivor (records : list RefineDetections.ImageRecord)
    (t : pyfloat) (allowed_ids : gset Z) (allowed_names : gset string)
    (drop_empty sort_desc_flag : bool)
    (r : RefineDetections.ImageRecord) (d : RefineDetections.Detection) :
  In r (RefineDetections.refine_records records t allowed_ids allowed_names
          drop_empty sort_desc_flag) ->
  In d (RefineDetections.detections r) ->
  flt (RefineDetections.conf_value d) t = false.
Proof.
  induction records as [|record more IH];
    cbn [RefineDetections.refine_records]; [intros []|].
  destruct (RefineDetections.refine_record record t allowed_ids allowed_names
              drop_empty sort_desc_flag) as [new_record|] eqn:E;
    [|exact IH].
  intros [<- | Hr] Hd; [|now apply IH].
  destruct (refine_record_detections _ _ _ _ _ _ _ _ E Hd) as [_ Hp].
  apply detection_passes_spec in Hp. tauto.
Qed.

(** C6.  For every threshold [t] that is a number and every sequence of
    records, every detection that survives refinement with [min_conf = t]
    and whose confidence is a number has a confidence of at least [t], a
    missing confidence counting as 0.0.  What the refiner ensures of a
    survivor is that its confidence does not compare below [t]: a
    detection whose confidence is [nan] survives the threshold 0.5, next
    to one of confidence 0.9, while one of confidence 0.3 is dropped. *)
Theorem refine_records_min_conf :
  (forall (records : list RefineDetections.ImageRecord) (t : pyfloat)
          (allowed_ids : gset Z) (allowed_names : gset string)
          (drop_empty sort_desc_flag : bool)
          (r : RefineDetections.ImageRecord) (d : RefineDetections.Detection),
      t <> NaN ->
      In r (RefineDetections.refine_records records t allowed_ids
              allowed_names drop_empty sort_desc_flag) ->
      In d (RefineDetections.detections r) ->
      RefineDetections.conf_value d <> NaN ->
      fle t (RefineDetections.conf_value d) = true)
  /\ (forall (records : list RefineDetections.ImageRecord) (t : pyfloat)
             (allowed_ids : gset Z) (allowed_names : gset string)
             (drop_empty sort_desc_flag : bool)
             (r : RefineDetections.ImageRecord)
             (d : RefineDetections.Detection),
        In r (RefineDetections.refine_records records t allowed_ids
                allowed_names drop_empty sort_desc_flag) ->
        In d (RefineDetections.detections r) ->
        flt (RefineDetections.conf_value d) t = false)
  /\ (map RefineDetections.detections
        (RefineDetections.refine_records
           [RefineDetections.mkImageRecord (Some "a.jpg") None
              (Some 10) (Some 10)
              [RefineDetections.mkDetection (Some 1) None (Some NaN);
               RefineDetections.mkDetection (Some 2) None
                 (Some (Finite (3 # 10)));
               RefineDetections.mkDetection (Some 3) None
                 (Some (Finite (9 # 10)))]
              None]
           (Finite (1 # 2)) ∅ ∅ false false)
      = [[RefineDetections.mkDetection (Some 1) None (Some NaN);
          RefineDetections.mkDetection (Some 3) None
            (Some (Finite (9 # 10)))]]
      /\ fle (Finite (1 # 2))
           (RefineDetections.conf_value
              (RefineDetections.mkDetection (Some 1) None (Some NaN)))
         = false).
Proof.
  split; [|split].
  - intros records t allowed_ids allowed_names drop_empty sort_desc_flag r d
      Ht Hr Hd Hc.
    apply (flt_false_fle _ _ Hc Ht).
    eapply refine_records_survivor; eassumption.
  - intros records t allowed_ids allowed_names drop_empty sort_desc_flag r d.
    apply refine_records_survivor.
  - split; vm_compute; reflexivity.
Qed.

Lemma refine_records_min_conf_witness :
  fle (Finite (1 # 2))
    (RefineDetections.conf_value
       (RefineDetections.mkDetection (Some 5) (Some "Cat")
          (Some (Finite (8 # 10))))) = true.
Proof.
  apply (proj1 refine_records_min_conf
           [RefineDetections.mkImageRecord (Some "a.jpg") None
              (Some 10) (Some 10)
              [RefineDetections.mkDetection (Some 2) None
                 (Some (Finite (3 # 10)));
               RefineDetections.mkDetection (Some 5) (Some "Cat")
                 (Some (Finite (8 # 10)));
               RefineDetections.mkDetection (Some 2) (Some "x") None]
              None]
           (Finite (1 # 2)) ∅ ∅ false true
           (RefineDetections.mkImageRecord (Some "a.jpg") None
              (Some 10) (Some 10)
              [RefineDetections.mkDetection (Some 5) (Some "Cat")
                 (Some (Finite (8 # 10)))]
              (Some (RefineDetections.mkMeta 1 3 (Finite (1 # 2)) None)))).
  - discriminate.
  - vm_compute. left. reflexivity.
  - vm_compute. left. reflexivity.
  - discriminate.
Defined.

(** ** The order of the group keys *)

Lemma string_compare_refl (a : string) : String_as_OT.compare a a = Eq.
Proof.
  destruct (String_as_OT.compare_spec a a) as [_ | H | H];
    [reflexivity | |]; now apply (StrictOrder_Irreflexive a) in H.
Qed.

Lemma id_compare_eq (a b : option Z) :
  DetectionSummary.id_compare a b = Eq -> a = b.
Proof.
  destruct a as [x|], b as [y|]; cbn; intros H; try discriminate;
    [apply Z.compare_eq in H; now subst | reflexivity].
Qed.

Lemma id_compare_gt_lt (a b : option Z) :
  DetectionSummary.id_compare a b = Gt -> DetectionSummary.id_compare b a = Lt.
Proof.
  destruct a as [x|], b as [y|]; cbn; intros H; try discriminate;
    [now apply Z.gt_lt | reflexivity].
Qed.

Lemma id_compare_lt_trans (a b c : option Z) :
  DetectionSummary.id_compare a b = Lt -> DetectionSummary.id_compare b c = Lt ->
  DetectionSummary.id_compare a c = Lt.
Proof.
  destruct a as [x|], b as [y|], c as [z|]; cbn; intros H1 H2;
    try discriminate; try reflexivity.
  rewrite Z.compare_lt_iff in *. lia.
Qed.

Lemma key_compare_eq (a b : DetectionSummary.GroupKey) :
  DetectionSummary.key_compare a b = Eq -> a = b.
Proof.
  destruct a as [d1 i1], b as [d2 i2]. unfold DetectionSummary.key_compare.
  cbn [fst snd].
  destruct (String_as_OT.compare_spec d1 d2) as [E | _ | _];
    try discriminate.
  intros H. apply id_compare_eq in H. f_equal; [exact E | exact H].
Qed.

Lemma key_compare_refl (a : DetectionSummary.GroupKey) :
  DetectionSummary.key_compare a a = Eq.
Proof.
  destruct a as [d i]. unfold DetectionSummary.key_compare. cbn [fst snd].
  rewrite string_compare_refl.
  destruct i as [x|]; cbn; [apply Z.compare_refl | reflexivity].
Qed.

Lemma key_compare_gt_lt (a b : DetectionSummary.GroupKey) :
  DetectionSummary.key_compare a b = Gt -> key_lt b a.
Proof.
  destruct a as [d1 i1], b as [d2 i2].
  unfold key_lt, DetectionSummary.key_compare. cbn [fst snd].
  destruct (String_as_OT.compare_spec d1 d2) as [E | L | G].
  - rewrite <- E, string_compare_refl. apply id_compare_gt_lt.
  - discriminate.
  - intros _. unfold String_as_OT.lt in G. now rewrite G.
Qed.

Lemma key_lt_trans (a b c : DetectionSummary.GroupKey) :
  key_lt a b -> key_lt b c -> key_lt a c.
Proof.
  destruct a as [d1 i1], b as [d2 i2], c as [d3 i3].
  unfold key_lt, DetectionSummary.key_compare. cbn [fst snd].
  destruct (String_as_OT.compare_spec d1 d2) as [E12 | L12 | G12];
    try discriminate;
    destruct (String_as_OT.compare_spec d2 d3) as [E23 | L23 | G23];
    try discriminate; intros H1 H2.
  - rewrite E12, E23, string_compare_refl.
    eapply id_compare_lt_trans; eassumption.
  - rewrite E12. unfold String_as_OT.lt in L23. now rewrite L23.
  - rewrite <- E23. unfold String_as_OT.lt in L12. now rewrite L12.
  - assert (L13 : String_as_OT.lt d1 d3)
      by (eapply (StrictOrder_Transitive d1 d2 d3); eassumption).
    unfold String_as_OT.lt in L13. now rewrite L13.
Qed.

Lemma key_lt_irrefl (a : DetectionSummary.GroupKey) : ~ key_lt a a.
Proof. unfold key_lt. now rewrite key_compare_refl. Qed.

Lemma key_eqb_eq (a b : DetectionSummary.GroupKey) :
  DetectionSummary.key_eqb a b = true <-> a = b.
Proof.
  unfold DetectionSummary.key_eqb. split.
  - destruct (DetectionSummary.key_compare a b) eqn:C; try discriminate.
    intros _. now apply key_compare_eq.
  - intros ->. now rewrite key_compare_refl.
Qed.

(** ** The groups *)

Lemma list_sum_cons (x : nat) (l : list nat) :
  list_sum (x :: l) = (x + list_sum l)%nat.
Proof. reflexivity. Qed.

Lemma insert_key_In (k x : DetectionSummary.GroupKey)
    (ks : list DetectionSummary.GroupKey) :
  In x (DetectionSummary.insert_key k ks) <-> x = k \/ In x ks.
Proof.
  induction ks as [|k' ks IH]; cbn [DetectionSummary.insert_key].
  - cbn. intuition.
  - destruct (DetectionSummary.key_compare k k') eqn:C.
    + apply key_compare_eq in C. subst k'. cbn. intuition.
    + cbn. intuition.
    + cbn [In]. rewrite IH. intuition.
Qed.

Lemma insert_key_sorted (k : DetectionSummary.GroupKey)
    (ks : list DetectionSummary.GroupKey) :
  StronglySorted key_lt ks ->
  StronglySorted key_lt (DetectionSummary.insert_key k ks).
Proof.
  induction 1 as [|k' ks S IH F]; cbn [DetectionSummary.insert_key].
  - repeat constructor.
  - destruct (DetectionSummary.key_compare k k') eqn:C.
    + now constructor.
    + constructor; [now constructor|].
      constructor; [exact C|].
      eapply List.Forall_impl; [|exact F].
      intros c Hc. eapply key_lt_trans; eassumption.
    + constructor; [exact IH|].
      apply List.Forall_forall. intros x Hx. apply insert_key_In in Hx.
      destruct Hx as [-> | Hx].
      * now apply key_compare_gt_lt.
      * rewrite List.Forall_forall in F. now apply F.
Qed.

Lemma sorted_keys_NoDup (ks : list DetectionSummary.GroupKey) :
  StronglySorted key_lt ks -> List.NoDup ks.
Proof.
  induction 1 as [|k ks S IH F]; constructor; [|exact IH].
  intros Hin. rewrite List.Forall_forall in F.
  exact (key_lt_irrefl k (F k Hin)).
Qed.

Section Groups.

Variable show_id : option Z -> string.

Lemma group_keys_sorted (df : list DetectionSummary.Row) :
  StronglySorted key_lt (DetectionSummary.group_keys show_id df).
Proof.
  induction df as [|r df IH]; cbn; [constructor|].
  now apply insert_key_sorted.
Qed.

Lemma group_keys_In (df : list DetectionSummary.Row)
    (k : DetectionSummary.GroupKey) :
  In k (DetectionSummary.group_keys show_id df)
  <-> exists r, In r df /\ DetectionSummary.key_of show_id r = k.
Proof.
  induction df as [|r df IH]; cbn [DetectionSummary.group_keys fold_right].
  - cbn. split; [intros [] | intros (r & [] & _)].
  - fold (DetectionSummary.group_keys show_id df).
    rewrite insert_key_In, IH. cbn [In]. split.
    + intros [-> | (r' & Hr & E)]; eauto.
    + intros (r' & [<- | Hr] & E); eauto.
Qed.

(** A key of the list counts for exactly one of the keys it is compared
    with. *)
Lemma one_key_matches (k : DetectionSummary.GroupKey)
    (keys : list DetectionSummary.GroupKey) :
  List.NoDup keys -> In k keys ->
  list_sum
    (map (fun k' => if DetectionSummary.key_eqb k k' then 1 else 0)%nat keys)
  = 1%nat.
Proof.
  induction 1 as [|k' keys Hn Hd IH]; [intros []|].
  intros Hin. cbn [map]; rewrite !list_sum_cons.
  destruct (DetectionSummary.key_eqb k k') eqn:E.
  - apply key_eqb_eq in E. subst k'.
    assert (Z0 : list_sum
                   (map (fun k' => if DetectionSummary.key_eqb k k'
                                   then 1 else 0)%nat keys) = 0%nat).
    { clear IH Hd Hin. induction keys as [|c keys IHk]; [reflexivity|].
      cbn [map]; rewrite !list_sum_cons.
      destruct (DetectionSummary.key_eqb k c) eqn:Ec.
      - apply key_eqb_eq in Ec. subst c. exfalso. apply Hn. now left.
      - rewrite IHk; [reflexivity|]. intros H. apply Hn. now right. }
    rewrite Z0. reflexivity.
  - destruct Hin as [-> | Hin].
    + rewrite (proj2 (key_eqb_eq k k) eq_refl) in E. discriminate E.
    + rewrite (IH Hin). reflexivity.
Qed.

(** The groups of distinct keys that cover the frame share out its
    rows. *)
Lemma group_sizes_sum (df : list DetectionSummary.Row)
    (keys : list DetectionSummary.GroupKey) :
  List.NoDup keys ->
  (forall r, In r df -> In (DetectionSummary.key_of show_id r) keys) ->
  list_sum
    (map (fun k => List.length (DetectionSummary.group_of show_id df k)) keys)
  = List.length df.
Proof.
  intros Hn. induction df as [|r df IH]; intros Hcover.
  - clear. induction keys as [|k keys IHk]; [reflexivity|].
    cbn [map]. rewrite list_sum_cons. exact IHk.
  - assert (E : list_sum
                  (map (fun k => List.length
                                   (DetectionSummary.group_of show_id (r :: df) k))
                     keys)
                = (list_sum
                     (map (fun k' =>
                             if DetectionSummary.key_eqb
                                  (DetectionSummary.key_of show_id r) k'
                             then 1 else 0) keys)
                   + list_sum
                       (map (fun k => List.length
                                        (DetectionSummary.group_of show_id df k))
                          keys))%nat).
    { clear. induction keys as [|k keys IHk]; [reflexivity|].
      cbn [map]; rewrite !list_sum_cons. rewrite IHk.
      unfold DetectionSummary.group_of at 1. cbn [List.filter].
      fold (DetectionSummary.group_of show_id df k).
      destruct (DetectionSummary.key_eqb _ k); cbn [List.length]; lia. }
    rewrite E, one_key_matches, IH; cbn [List.length]; try reflexivity;
      try assumption.
    + intros r' Hr'. apply Hcover. now right.
    + apply Hcover. now left.
Qed.

End Groups.

(** ** The descending sort of the summary *)

Section DescendingSort.

Context {A : Type}.
Variable key : A -> Q.

Lemma insert_desc_descending (x : A) (l : list A) :
  StronglySorted (fun a b => (key b <= key a)%Q) l ->
  StronglySorted (fun a b => (key b <= key a)%Q) (insert_desc key x l).
Proof.
  induction 1 as [|y l S IH F]; cbn [insert_desc].
  - repeat constructor.
  - destruct (Qltb (key x) (key y)) eqn:C.
    + apply Qltb_true in C. constructor; [exact IH|].
      apply List.Forall_forall. intros z Hz.
      apply (Permutation_in _ (insert_desc_perm key x l)) in Hz.
      destruct Hz as [<- | Hz]; [lra|].
      rewrite List.Forall_forall in F. now apply F.
    + apply Qltb_false in C. constructor; [now constructor|].
      rewrite List.Forall_forall in F.
      apply List.Forall_forall. intros z [<- | Hz]; [exact C|].
      specialize (F z Hz). lra.
Qed.

Lemma sort_desc_descending (l : list A) :
  StronglySorted (fun a b => (key b <= key a)%Q) (sort_desc key l).
Proof.
  induction l as [|x l IH]; cbn [sort_desc fold_right]; [constructor|].
  fold (sort_desc key l). now apply insert_desc_descending.
Qed.

End DescendingSort.

(** ** The summariser *)

Lemma build_dataframe_length (records : list DetectionSummary.ImageRecord) :
  List.length (DetectionSummary.build_dataframe records)
  = total_detections records.
Proof.
  unfold DetectionSummary.build_dataframe, total_detections.
  induction records as [|record records IH]; [reflexivity|].
  cbn [flat_map map]. rewrite list_sum_cons, length_app, length_map, IH.
  reflexivity.
Qed.

Lemma sum_num_detections_perm (l l' : list DetectionSummary.SummaryRow) :
  Permutation l l' -> sum_num_detections l = sum_num_detections l'.
Proof.
  unfold sum_num_detections.
  induction 1; cbn [fold_right] in *; lia.
Qed.

Section SummariseFacts.

Variable show_id : option Z -> string.
Variable mean : list Q -> Q.

Lemma row_key_aggregate (df : list DetectionSummary.Row)
    (k : DetectionSummary.GroupKey) :
  DetectionSummary.row_key (DetectionSummary.aggregate show_id mean df k) = k.
Proof. now destruct k. Qed.

Lemma row_keys_of_groups (df : list DetectionSummary.Row)
    (keys : list DetectionSummary.GroupKey) :
  map DetectionSummary.row_key (map (DetectionSummary.aggregate show_id mean df) keys)
  = keys.
Proof.
  induction keys as [|k keys IH]; [reflexivity|].
  cbn [map]. now rewrite row_key_aggregate, IH.
Qed.

Lemma sum_of_groups (df : list DetectionSummary.Row)
    (keys : list DetectionSummary.GroupKey) :
  sum_num_detections (map (DetectionSummary.aggregate show_id mean df) keys)
  = Z.of_nat
      (list_sum
         (map (fun k => List.length (DetectionSummary.group_of show_id df k))
            keys)).
Proof.
  induction keys as [|k keys IH]; [reflexivity|].
  cbn [map]. rewrite list_sum_cons.
  unfold sum_num_detections in *. cbn [fold_right].
  rewrite IH. cbn [DetectionSummary.aggregate DetectionSummary.num_detections].
  lia.
Qed.

(** The summary is a rearrangement of the groups' rows, whatever the
    frame. *)
Lemma summarise_perm (df : list DetectionSummary.Row)
    (sort_by : DetectionSummary.SortKey) :
  Permutation (DetectionSummary.summarise show_id mean df sort_by)
    (map (DetectionSummary.aggregate show_id mean df)
       (DetectionSummary.group_keys show_id df)).
Proof.
  unfold DetectionSummary.summarise. destruct df as [|r df]; [reflexivity|].
  apply sort_desc_perm.
Qed.

End SummariseFacts.

(** C8.  For every sequence of records, the [num_detections] of the rows
    of the summary add up to the number of detections in the records. *)
Theorem summarise_counts_every_detection (show_id : option Z -> string)
    (mean : list Q -> Q) (records : list DetectionSummary.ImageRecord)
    (sort_by : DetectionSummary.SortKey) :
  sum_num_detections
    (DetectionSummary.summarise show_id mean
       (DetectionSummary.build_dataframe records) sort_by)
  = Z.of_nat (total_detections records).
Proof.
  rewrite (sum_num_detections_perm _ _
             (summarise_perm show_id mean _ sort_by)).
  rewrite sum_of_groups, group_sizes_sum, build_dataframe_length;
    [reflexivity | |].
  - apply sorted_keys_NoDup, group_keys_sorted.
  - intros r Hr. apply group_keys_In. eauto.
Qed.

(** Two classes of one detection each, [dog] met before [cat]: they tie
    on the number of detections, and the summary lists [cat] before
    [dog].  The frame that meets [cat] first has the same summary: the
    table of the groups, which is all the sort sees, is the same for
    both. *)
Lemma summarise_ties_not_in_encounter_order :
  let dog := DetectionSummary.mkDetection (Some 1) (Some "dog") (Some (1 # 2)) in
  let cat := DetectionSummary.mkDetection (Some 0) (Some "cat") (Some (1 # 2)) in
  let df :=
    DetectionSummary.build_dataframe
      [DetectionSummary.mkImageRecord (Some "a.jpg") [dog; cat]] in
  let df' :=
    DetectionSummary.build_dataframe
      [DetectionSummary.mkImageRecord (Some "a.jpg") [cat; dog]] in
  let summary :=
    DetectionSummary.summarise DetectionSummary.show_int_id
      DetectionSummary.exact_mean df DetectionSummary.by_num_detections in
  map DetectionSummary.class_display summary = ["cat"; "dog"]
  /\ DetectionSummary.summarise DetectionSummary.show_int_id
       DetectionSummary.exact_mean df' DetectionSummary.by_num_detections
     = summary
  /\ ~ ties_in_encounter_order DetectionSummary.show_int_id df
        DetectionSummary.by_num_detections summary.
Proof.
  cbv zeta. split; [vm_compute; reflexivity|].
  split; [vm_compute; reflexivity|].
  unfold ties_in_encounter_order. intros H.
  match type of H with
  | StronglySorted _ ?l =>
      let v := eval vm_compute in l in change l with v in H
  end.
  inversion H as [|a l S F]; subst.
  inversion F as [|b l' Hab _]; subst.
  assert (T : (1 < 0)%nat) by (apply Hab; vm_compute; reflexivity).
  lia.
Qed.

(** C2, amended.  The summary has one row per
    [(class_display, class_id)] group, holding the aggregate of that
    group, and its rows go by descending value of the requested column,
    whatever the mean of a group is computed to be.  Nothing is stated on
    the order of rows that tie on that column. *)
Theorem summarise_sorted_by_key (show_id : option Z -> string)
    (mean : list Q -> Q) (records : list DetectionSummary.ImageRecord)
    (sort_by : DetectionSummary.SortKey) :
  let df := DetectionSummary.build_dataframe records in
  let summary := DetectionSummary.summarise show_id mean df sort_by in
  List.NoDup (map DetectionSummary.row_key summary)
  /\ (forall k,
        In k (map DetectionSummary.row_key summary)
        <-> exists r, In r df /\ DetectionSummary.key_of show_id r = k)
  /\ (forall s,
        In s summary ->
        s = DetectionSummary.aggregate show_id mean df
              (DetectionSummary.row_key s))
  /\ sorted_descending sort_by summary.
Proof.
  cbv zeta.
  set (df := DetectionSummary.build_dataframe records).
  pose proof (summarise_perm show_id mean df sort_by) as P.
  assert (PK : Permutation
                 (map DetectionSummary.row_key
                    (DetectionSummary.summarise show_id mean df sort_by))
                 (DetectionSummary.group_keys show_id df)).
  { rewrite <- (row_keys_of_groups show_id mean df).
    now apply Permutation_map. }
  split; [|split; [|split]].
  - eapply Permutation_NoDup; [symmetry; exact PK|].
    apply sorted_keys_NoDup, group_keys_sorted.
  - intros k. rewrite <- group_keys_In. split; apply Permutation_in;
      [exact PK | symmetry; exact PK].
  - intros s Hs. apply (Permutation_in _ P) in Hs.
    apply in_map_iff in Hs. destruct Hs as (k & <- & _).
    now rewrite row_key_aggregate.
  - unfold sorted_descending, DetectionSummary.summarise.
    destruct df as [|r df']; [constructor|].
    apply sort_desc_descending.
Qed.

(** * Further properties of the exporter *)

Import ExportDriver.

(** ** [clamp] and [convert_to_pixels] *)

(** X1.  Between finite bounds [lo <= hi], [clamp] gives a finite value
    inside the bounds for every float, [nan] and the infinities included,
    and gives back a value that is already inside. *)
Theorem clamp_between (v : pyfloat) (lo hi : Q) :
  (lo <= hi)%Q ->
  exists q, ExportDetections.clamp v (Finite lo) (Finite hi) = Finite q
            /\ (lo <= q)%Q /\ (q <= hi)%Q
            /\ (forall a, v = Finite a -> (lo <= a)%Q -> (a <= hi)%Q ->
                           (q == a)%Q).
Proof.
  intros H. unfold ExportDetections.clamp, py_max, py_min, fgt.
  destruct v as [a | | |].
  - destruct (flt (Finite hi) (Finite a)) eqn:F1;
      [apply flt_finite in F1 | apply flt_finite_false in F1].
    + destruct (flt (Finite lo) (Finite hi)) eqn:F2;
        [apply flt_finite in F2 | apply flt_finite_false in F2];
        eexists; (split; [reflexivity|]); repeat split; try lra;
        intros b [= <-] ? ?; lra.
    + destruct (flt (Finite lo) (Finite a)) eqn:F2;
        [apply flt_finite in F2 | apply flt_finite_false in F2];
        eexists; (split; [reflexivity|]); repeat split; try lra;
        intros b [= <-] ? ?; lra.
  - change (flt (Finite hi) PosInf) with true. cbv iota.
    destruct (flt (Finite lo) (Finite hi)) eqn:F2;
      [apply flt_finite in F2 | apply flt_finite_false in F2];
      eexists; (split; [reflexivity|]); repeat split; try lra;
      intros b [=].
  - cbn [flt]. exists lo. split; [reflexivity|].
    repeat split; try lra. intros b [=].
  - cbn [flt]. exists lo. split; [reflexivity|].
    repeat split; try lra. intros b [=].
Qed.

Lemma clamp_between_witness :
  exists q, ExportDetections.clamp (Finite (7 # 2)) (Finite 0) (Finite 10)
            = Finite q
            /\ (0 <= q)%Q /\ (q <= 10)%Q
            /\ (forall a, Finite (7 # 2) = Finite a -> (0 <= a)%Q ->
                           (a <= 10)%Q -> (q == a)%Q).
Proof.
  apply (clamp_between (Finite (7 # 2)) 0 10). vm_compute. discriminate.
Defined.

Lemma round_half_even_near (q : Q) :
  (inject_Z (round_half_even q) - q <= 1 # 2)%Q
  /\ (q - inject_Z (round_half_even q) <= 1 # 2)%Q.
Proof.
  pose proof (floor_bracket q) as [L U].
  destruct (round_half_even_spec q) as [[-> H] | [-> H]];
    rewrite ?inject_Z_plus; change (inject_Z 1) with 1%Q; lra.
Qed.

Lemma clamp_to_inside (lo hi a : Q) :
  (lo <= a)%Q -> (a <= hi)%Q -> (clamp_to lo hi a == a)%Q.
Proof.
  intros L U. unfold clamp_to.
  destruct (Q.min_spec a hi) as [[? E1] | [? E1]];
    destruct (Q.max_spec lo (Qmin a hi)) as [[? E2] | [? E2]]; lra.
Qed.

(** X2.  When the two vertical edges of the box, as the script computes
    them in binary64, are finite and inside the image, [clamp] changes
    neither of them, [x1] and [x2] are the two edges rounded, a half going
    to the even neighbour, and the pixel width [x2 - x1] differs from the
    distance between the edges by at most one pixel. *)
Theorem convert_to_pixels_width_error
    (cx cy w h : pyfloat) (width height : Z) (e1 e3 : Q) (e2 e4 : pyfloat) :
  0 <= height ->
  spec_edges cx cy w h width height = (Finite e1, e2, Finite e3, e4) ->
  (0 <= e1)%Q -> (e1 <= inject_Z width)%Q ->
  (0 <= e3)%Q -> (e3 <= inject_Z width)%Q ->
  exists x1 y1 x2 y2,
    ExportDetections.convert_to_pixels cx cy w h width height
    = Ok (x1, y1, x2, y2)
    /\ x1 = round_half_even e1
    /\ x2 = round_half_even e3
    /\ (e3 - e1 - 1 <= inject_Z (x2 - x1))%Q
    /\ (inject_Z (x2 - x1) <= e3 - e1 + 1)%Q.
Proof.
  intros Hh E L1 U1 L3 U3. unfold spec_edges in E. cbv zeta in E.
  injection E as E1 E2 E3 E4.
  unfold ExportDetections.convert_to_pixels. cbv zeta.
  rewrite E1, E2, E3, E4.
  destruct (clamp_finite e1 width) as (q1 & -> & H1).
  destruct (clamp_finite e3 width) as (q3 & -> & H3).
  destruct (clamp_range e2 height Hh) as (q2 & -> & _).
  destruct (clamp_range e4 height Hh) as (q4 & -> & _).
  cbn [py_round rbind].
  assert (I1 : (q1 == e1)%Q) by (rewrite H1; now apply clamp_to_inside).
  assert (I3 : (q3 == e3)%Q) by (rewrite H3; now apply clamp_to_inside).
  do 4 eexists. split; [reflexivity|].
  split; [exact (round_half_even_comp _ _ I1)|].
  split; [exact (round_half_even_comp _ _ I3)|].
  pose proof (round_half_even_near q1) as [A1 B1].
  pose proof (round_half_even_near q3) as [A3 B3].
  unfold Z.sub. rewrite inject_Z_plus, inject_Z_opp. lra.
Qed.

Lemma convert_to_pixels_width_error_witness :
  exists x1 y1 x2 y2,
    ExportDetections.convert_to_pixels
      (Finite (1 # 2)) NaN (Finite (6004799503160661 # 18014398509481984))
      PosInf 100 200
    = Ok (x1, y1, x2, y2)
    /\ x1 = round_half_even (4691249611844267 # 140737488355328)
    /\ x2 = round_half_even (2345624805922133 # 35184372088832)
    /\ ((2345624805922133 # 35184372088832)
        - (4691249611844267 # 140737488355328) - 1
        <= inject_Z (x2 - x1))%Q
    /\ (inject_Z (x2 - x1)
        <= (2345624805922133 # 35184372088832)
           - (4691249611844267 # 140737488355328) + 1)%Q.
Proof.
  apply (convert_to_pixels_width_error
           (Finite (1 # 2)) NaN (Finite (6004799503160661 # 18014398509481984))
           PosInf 100 200
           (4691249611844267 # 140737488355328)
           (2345624805922133 # 35184372088832) NaN NaN);
    try lia; vm_compute; try reflexivity; discriminate.
Defined.

(** ** [build_detection], [export_line] and the loop over the lines *)

Lemma clamp_is_finite (v : pyfloat) (n : Z) :
  exists q, ExportDetections.clamp v (of_int 0) (of_int n) = Finite q.
Proof.
  destruct v as [a | | |].
  - destruct (clamp_finite a n) as (q & E & _). eauto.
  - unfold ExportDetections.clamp, py_max, py_min, fgt, of_int.
    change (flt (Finite (inject_Z n)) PosInf) with true. cbv iota.
    destruct (flt (Finite (inject_Z 0)) (Finite (inject_Z n))); eauto.
  - rewrite clamp_NegInf. eauto.
  - rewrite clamp_NaN. eauto.
Qed.

(** Whatever the size of the image, [convert_to_pixels] returns a box. *)
Lemma convert_to_pixels_never_raises (cx cy w h : pyfloat) (width height : Z) :
  exists b, ExportDetections.convert_to_pixels cx cy w h width height = Ok b.
Proof.
  unfold ExportDetections.convert_to_pixels. cbv zeta.
  destruct (clamp_is_finite
              (bsub (bmul cx (of_int width)) (bhalf (bmul w (of_int width))))
              width) as (q1 & ->).
  destruct (clamp_is_finite
              (bsub (bmul cy (of_int height)) (bhalf (bmul h (of_int height))))
              height) as (q2 & ->).
  destruct (clamp_is_finite
              (badd (bmul cx (of_int width)) (bhalf (bmul w (of_int width))))
              width) as (q3 & ->).
  destruct (clamp_is_finite
              (badd (bmul cy (of_int height)) (bhalf (bmul h (of_int height))))
              height) as (q4 & ->).
  cbn [py_round rbind]. eauto.
Qed.

Lemma build_detection_never_raises (class_id : Z)
    (class_names : option (list string)) (confidence : option pyfloat)
    (cx cy w h : pyfloat) (width height : Z) :
  exists d,
    ExportDetections.build_detection class_id class_names confidence
      cx cy w h width height = Ok d.
Proof.
  unfold ExportDetections.build_detection.
  destruct (convert_to_pixels_never_raises cx cy w h width height) as (b & ->).
  cbn [rbind]. eauto.
Qed.

(** X3.  [build_detection] never raises and keeps the class id, the
    confidence and the normalised box it is given.  The detection has the
    class name [n] exactly when a table of names was supplied, the class id
    is not negative and [n] is the entry of the table at that index: a
    negative id or one past the end of the table gets no name. *)
Theorem build_detection_class_name (class_id : Z)
    (class_names : option (list string)) (confidence : option pyfloat)
    (cx cy w h : pyfloat) (width height : Z) :
  exists d,
    ExportDetections.build_detection class_id class_names confidence
      cx cy w h width height = Ok d
    /\ ExportDetections.class_id d = class_id
    /\ ExportDetections.confidence d = confidence
    /\ ExportDetections.bbox_norm d = (cx, cy, w, h)
    /\ (forall n,
          ExportDetections.class_name d = Some n
          <-> exists names,
                class_names = Some names /\ 0 <= class_id
                /\ nth_error names (Z.to_nat class_id) = Some n).
Proof.
  unfold ExportDetections.build_detection.
  destruct (convert_to_pixels_never_raises cx cy w h width height) as (b & ->).
  cbn [rbind]. eexists. split; [reflexivity|].
  cbn [ExportDetections.class_id ExportDetections.confidence
         ExportDetections.bbox_norm ExportDetections.class_name].
  repeat split; intros H.
  - destruct class_names as [[|x names]|]; try discriminate H.
    destruct ((0 <=? class_id) && _) eqn:C; [|discriminate H].
    apply andb_true_iff in C. destruct C as [C _]. apply Z.leb_le in C.
    eauto.
  - destruct H as (names & -> & Hpos & Hn).
    destruct names as [|x names];
      [now destruct (Z.to_nat class_id)|].
    assert (L : (Z.to_nat class_id < List.length (x :: names))%nat)
      by (apply nth_error_Some; congruence).
    assert (C : (0 <=? class_id)
                && (class_id <? Z.of_nat (List.length (x :: names))) = true).
    { apply andb_true_iff. split; [apply Z.leb_le | apply Z.ltb_lt]; lia. }
    rewrite C. exact Hn.
Qed.

Lemma parse_label_line_raises (line : string) (e : exn) :
  ExportDetections.parse_label_line line = Raise e ->
  e = ValueError \/ e = OverflowError.
Proof.
  unfold ExportDetections.parse_label_line.
  destruct (py_split (py_strip line))
    as [|t0 [|t1 [|t2 [|t3 [|t4 rest]]]]];
    try (rewrite parse_parts_short by (cbn; lia); intros [= <-]; now left).
  rewrite parse_parts_five.
  destruct (py_float t0) as [[q0 | | |] | e0] eqn:E0;
    try (apply py_float_raises in E0; subst e0);
    cbn [rbind py_int]; try (intros [= <-]; auto; fail).
  destruct (py_float t1) as [x1 | e1] eqn:E1;
    try (apply py_float_raises in E1; subst e1);
    cbn [rbind]; try (intros [= <-]; auto; fail).
  destruct (py_float t2) as [x2 | e2] eqn:E2;
    try (apply py_float_raises in E2; subst e2);
    cbn [rbind]; try (intros [= <-]; auto; fail).
  destruct (py_float t3) as [x3 | e3] eqn:E3;
    try (apply py_float_raises in E3; subst e3);
    cbn [rbind]; try (intros [= <-]; auto; fail).
  destruct (py_float t4) as [x4 | e4] eqn:E4;
    try (apply py_float_raises in E4; subst e4);
    cbn [rbind]; try (intros [= <-]; auto; fail).
  destruct rest as [|t5 rest']; cbn [rbind]; [discriminate|].
  destruct (py_float t5) as [x5 | e5] eqn:E5;
    try (apply py_float_raises in E5; subst e5);
    cbn [rbind]; [discriminate | intros [= <-]; auto].
Qed.

(** [export_line] follows the parser: the same exception, or a detection
    made of what was parsed. *)
Lemma export_line_follows_parser (class_names : option (list string))
    (width height : Z) (line : string) :
  match ExportDetections.parse_label_line line with
  | Raise e =>
      ExportDetections.export_line class_names width height line = Raise e
  | Ok (class_id, cx, cy, w, h, confidence) =>
      ExportDetections.export_line class_names width height line
      = ExportDetections.build_detection class_id class_names confidence
          cx cy w h width height
  end.
Proof.
  unfold ExportDetections.export_line.
  destruct (ExportDetections.parse_label_line line)
    as [[[[[[class_id cx] cy] w] h] confidence] | e]; reflexivity.
Qed.

(** A line that [export_line] accepts gives a box inside the image. *)
Lemma export_line_within (class_names : option (list string))
    (width height : Z) (line : string) (d : ExportDetections.Detection) :
  0 <= width -> 0 <= height ->
  ExportDetections.export_line class_names width height line = Ok d ->
  bbox_within width height (ExportDetections.bbox_pixels d).
Proof.
  intros Hw Hh.
  pose proof (export_line_follows_parser class_names width height line) as F.
  destruct (ExportDetections.parse_label_line line)
    as [[[[[[class_id cx] cy] w] h] confidence] | e]; [|congruence].
  rewrite F. unfold ExportDetections.build_detection.
  destruct (convert_to_pixels_total cx cy w h width height Hw Hh)
    as (q1 & q2 & q3 & q4 & -> & [L1 U1] & [L2 U2] & [L3 U3] & [L4 U4]).
  cbn [rbind]. intros [= <-]. cbn [ExportDetections.bbox_pixels bbox_within].
  pose proof (round_half_even_range q1 width L1 U1).
  pose proof (round_half_even_range q2 height L2 U2).
  pose proof (round_half_even_range q3 width L3 U3).
  pose proof (round_half_even_range q4 height L4 U4).
  lia.
Qed.

(** X4.  For an image of size [width] by [height], [export_line] raises
    exactly what [parse_label_line] raises on the line, and nothing else
    makes it fail; when the line parses, the detection carries the parsed
    class id, normalised box and confidence, and its pixel box lies inside
    the image. *)
Theorem export_line_fails_as_parser (class_names : option (list string))
    (width height : Z) (line : string) :
  0 <= width -> 0 <= height ->
  match ExportDetections.parse_label_line line with
  | Raise e =>
      ExportDetections.export_line class_names width height line = Raise e
  | Ok (class_id, cx, cy, w, h, confidence) =>
      exists d,
        ExportDetections.export_line class_names width height line = Ok d
        /\ ExportDetections.class_id d = class_id
        /\ ExportDetections.bbox_norm d = (cx, cy, w, h)
        /\ ExportDetections.confidence d = confidence
        /\ bbox_within width height (ExportDetections.bbox_pixels d)
  end.
Proof.
  intros Hw Hh.
  pose proof (export_line_follows_parser class_names width height line) as F.
  destruct (ExportDetections.parse_label_line line)
    as [[[[[[class_id cx] cy] w] h] confidence] | e]; [|exact F].
  rewrite F. unfold ExportDetections.build_detection.
  destruct (convert_to_pixels_total cx cy w h width height Hw Hh)
    as (q1 & q2 & q3 & q4 & -> & [L1 U1] & [L2 U2] & [L3 U3] & [L4 U4]).
  cbn [rbind]. eexists. split; [reflexivity|].
  cbn [ExportDetections.class_id ExportDetections.confidence
         ExportDetections.bbox_norm ExportDetections.bbox_pixels].
  repeat split; try reflexivity;
    first [ apply (round_half_even_range q1 width L1 U1)
          | apply (round_half_even_range q2 height L2 U2)
          | apply (round_half_even_range q3 width L3 U3)
          | apply (round_half_even_range q4 height L4 U4) ].
Qed.

Lemma export_line_fails_as_parser_witness :
  match ExportDetections.parse_label_line "1 0.5 0.5 0.2 0.4 0.9" with
  | Raise e =>
      ExportDetections.export_line (Some ["cat"; "dog"]) 100 200
        "1 0.5 0.5 0.2 0.4 0.9" = Raise e
  | Ok (class_id, cx, cy, w, h, confidence) =>
      exists d,
        ExportDetections.export_line (Some ["cat"; "dog"]) 100 200
          "1 0.5 0.5 0.2 0.4 0.9" = Ok d
        /\ ExportDetections.class_id d = class_id
        /\ ExportDetections.bbox_norm d = (cx, cy, w, h)
        /\ ExportDetections.confidence d = confidence
        /\ bbox_within 100 200 (ExportDetections.bbox_pixels d)
  end.
Proof.
  apply (export_line_fails_as_parser (Some ["cat"; "dog"]) 100 200
           "1 0.5 0.5 0.2 0.4 0.9"); lia.
Defined.

Lemma blank_line_is_malformed (class_names : option (list string))
    (width height : Z) (line : string) :
  is_empty (py_strip line) = true ->
  ExportDetections.parse_label_line line = Raise ValueError.
Proof.
  unfold ExportDetections.parse_label_line. intros B.
  destruct (py_strip line); [reflexivity | discriminate B].
Qed.

(** The step of [read_detections] on one line, by what the parser says. *)
Lemma read_detections_cons (class_names : option (list string))
    (width height : Z) (line : string) (more : list string) :
  read_detections class_names width height (line :: more)
  = match ExportDetections.export_line class_names width height line with
    | Ok detection =>
        let* detections := read_detections class_names width height more in
        Ok (detection :: detections)
    | Raise ValueError => read_detections class_names width height more
    | Raise e => Raise e
    end.
Proof.
  cbn [read_detections].
  destruct (is_empty (py_strip line)) eqn:B; [|reflexivity].
  pose proof (export_line_follows_parser class_names width height line) as F.
  rewrite (blank_line_is_malformed class_names width height line B) in F.
  now rewrite F.
Qed.

(** X5.  When no line of the file raises [OverflowError], the loop over
    the lines returns, and what it returns are the detections of the lines
    that parse, in the order of the file: blank and malformed lines are
    left out and nothing else is. *)
Theorem read_detections_skips_malformed (class_names : option (list string))
    (width height : Z) (raw_lines : list string) :
  (forall line, In line raw_lines ->
                ExportDetections.parse_label_line line <> Raise OverflowError) ->
  read_detections class_names width height raw_lines
  = Ok (accepted_detections class_names width height raw_lines).
Proof.
  induction raw_lines as [|line more IH]; intros H; [reflexivity|].
  rewrite read_detections_cons. unfold accepted_detections.
  cbn [flat_map]. fold (accepted_detections class_names width height more).
  rewrite IH by (intros l Hl; apply H; now right).
  pose proof (export_line_follows_parser class_names width height line) as F.
  destruct (ExportDetections.export_line class_names width height line)
    as [d | e] eqn:E; [reflexivity|].
  destruct (ExportDetections.parse_label_line line)
    as [[[[[[class_id cx] cy] w] h] confidence] | e'] eqn:P.
  - destruct (build_detection_never_raises class_id class_names confidence
                cx cy w h width height) as (d & Hd).
    congruence.
  - injection F as <-.
    destruct (parse_label_line_raises line e P) as [-> | ->]; [reflexivity|].
    exfalso. apply (H line); [now left | exact P].
Qed.

Lemma read_detections_skips_malformed_witness :
  read_detections None 100 200
    ["0 0.5 0.5 0.2 0.4 0.9"; "   "; "bad line"; "1 0.1 0.1 0.5 0.5 x"; "2 0 0 1 1"]
  = Ok (accepted_detections None 100 200
          ["0 0.5 0.5 0.2 0.4 0.9"; "   "; "bad line"; "1 0.1 0.1 0.5 0.5 x";
           "2 0 0 1 1"]).
Proof.
  apply (read_detections_skips_malformed None 100 200).
  intros line H. cbn [In] in H.
  repeat (destruct H as [<- | H]; [vm_compute; discriminate|]).
  destruct H.
Defined.

(** X6.  The loop over the lines is left by an exception exactly when a
    line of the file raises [OverflowError], which [except ValueError] does
    not catch: a line of at least five tokens whose first token reads as
    an infinity.  No other exception leaves the loop. *)
Theorem read_detections_overflow_aborts (class_names : option (list string))
    (width height : Z) (raw_lines : list string) :
  (read_detections class_names width height raw_lines = Raise OverflowError
   <-> exists line,
         In line raw_lines
         /\ ExportDetections.parse_label_line line = Raise OverflowError)
  /\ match read_detections class_names width height raw_lines with
     | Ok _ => True
     | Raise e => e = OverflowError
     end.
Proof.
  induction raw_lines as [|line more [IH1 IH2]].
  - cbn. split; [|exact I]. split; [discriminate | intros (l & [] & _)].
  - rewrite read_detections_cons.
    pose proof (export_line_follows_parser class_names width height line) as F.
    destruct (ExportDetections.parse_label_line line)
      as [[[[[[class_id cx] cy] w] h] confidence] | e] eqn:P.
    + destruct (build_detection_never_raises class_id class_names confidence
                  cx cy w h width height) as (d & Hd).
      rewrite F, Hd.
      destruct (read_detections class_names width height more) as [ds | e'];
        cbn [rbind].
      * split; [|exact I]. split; [discriminate|].
        intros (l & [<- | Hl] & Hp); [congruence|].
        assert (X : Ok ds = Raise OverflowError) by (apply IH1; eauto).
        discriminate X.
      * subst e'. split; [|reflexivity]. split; [|reflexivity].
        intros _. destruct (proj1 IH1 eq_refl) as (l & Hl & Hp).
        exists l. split; [now right | exact Hp].
    + rewrite F.
      destruct (parse_label_line_raises line e P) as [-> | ->].
      * split; [|exact IH2]. rewrite IH1. split.
        -- intros (l & Hl & Hp). exists l. split; [now right | exact Hp].
        -- intros (l & [<- | Hl] & Hp); [congruence | eauto].
      * split; [|reflexivity]. split; [|reflexivity].
        intros _. exists line. split; [now left | exact P].
Qed.

(** ** The image resolver and the labels directory *)

Lemma find_None_iff {A : Type} (f : A -> bool) (l : list A) :
  List.find f l = None <-> forall x, In x l -> f x = false.
Proof.
  split; [apply find_none|].
  induction l as [|x l IH]; intros H; [reflexivity|].
  cbn [List.find]. rewrite (H x (or_introl eq_refl)).
  apply IH. intros y Hy. apply H. now right.
Qed.

Lemma candidates_None_iff (fs : ExportDetections.FileSystem) (stem : string)
    (directory : ExportDetections.Path) :
  List.find (ExportDetections.is_file fs)
    (map (fun ext =>
            ExportDetections.joinpath directory (String.append stem ext))
       ExportDetections.IMAGE_EXTENSIONS) = None
  <-> no_candidate fs stem directory.
Proof.
  rewrite find_None_iff. unfold no_candidate. split.
  - intros H ext Hext. apply H. apply in_map_iff. eauto.
  - intros H x Hx. apply in_map_iff in Hx. destruct Hx as (ext & <- & Hext).
    now apply H.
Qed.

Lemma first_file_None_iff (fs : ExportDetections.FileSystem) (stem : string)
    (directories : list ExportDetections.Path) :
  ExportDetections.first_file fs stem directories = None
  <-> forall d, In d directories -> no_candidate fs stem d.
Proof.
  induction directories as [|d more IH]; cbn [ExportDetections.first_file].
  - split; [intros _ d [] | reflexivity].
  - destruct (List.find _ _) as [c|] eqn:F.
    + split; [discriminate|]. intros H.
      assert (N : no_candidate fs stem d) by (apply H; now left).
      apply candidates_None_iff in N. congruence.
    + apply candidates_None_iff in F. rewrite IH. split.
      * intros H d' [<- | Hd]; [exact F | now apply H].
      * intros H d' Hd. apply H. now right.
Qed.

Lemma first_file_skip (fs : ExportDetections.FileSystem) (stem : string)
    (d : ExportDetections.Path) (more : list ExportDetections.Path) :
  no_candidate fs stem d ->
  ExportDetections.first_file fs stem (d :: more)
  = ExportDetections.first_file fs stem more.
Proof.
  intros N. cbn [ExportDetections.first_file].
  apply candidates_None_iff in N. now rewrite N.
Qed.

Lemma first_rglob_None_iff (fs : ExportDetections.FileSystem)
    (runs_dir : ExportDetections.Path) (stem : string) (exts : list string) :
  ExportDetections.first_rglob fs runs_dir stem exts = Ok None
  <-> forall ext, In ext exts ->
                  ExportDetections.bad_pattern fs (String.append stem ext)
                  = false
                  /\ ExportDetections.rglob fs runs_dir
                       (String.append stem ext) = [].
Proof.
  induction exts as [|ext more IH]; cbn [ExportDetections.first_rglob].
  - split; [intros _ e [] | reflexivity].
  - destruct (ExportDetections.bad_pattern fs (String.append stem ext)) eqn:B.
    + split; [discriminate|]. intros H.
      destruct (H ext (or_introl eq_refl)) as [B' _]. congruence.
    + destruct (ExportDetections.rglob fs runs_dir (String.append stem ext))
        as [|m ms] eqn:R.
      * rewrite IH. split.
        -- intros H e [<- | He]; [now split | now apply H].
        -- intros H e He. apply H. now right.
      * split; [discriminate|]. intros H.
        destruct (H ext (or_introl eq_refl)) as [_ R']. congruence.
Qed.

Lemma first_rglob_raises (fs : ExportDetections.FileSystem)
    (runs_dir : ExportDetections.Path) (stem : string) (exts : list string)
    (e : exn) :
  ExportDetections.first_rglob fs runs_dir stem exts = Raise e ->
  e = ValueError
  /\ exists ext, In ext exts
                 /\ ExportDetections.bad_pattern fs (String.append stem ext)
                    = true.
Proof.
  induction exts as [|ext more IH]; cbn [ExportDetections.first_rglob];
    [discriminate|].
  destruct (ExportDetections.bad_pattern fs (String.append stem ext)) eqn:B.
  - intros [= <-]. split; [reflexivity|]. exists ext. split; [now left|exact B].
  - destruct (ExportDetections.rglob fs runs_dir (String.append stem ext));
      [|discriminate].
    intros H. destruct (IH H) as (-> & ext' & Hin & B').
    split; [reflexivity|]. exists ext'. split; [now right | exact B'].
Qed.

Lemma set_iter_In (swapped : bool) (a b d : ExportDetections.Path) :
  In d (ExportDetections.set_iter swapped a b) <-> d = a \/ d = b.
Proof.
  unfold ExportDetections.set_iter, ExportDetections.path_eqb.
  destruct (bool_decide_reflect (a = b)) as [E | NE].
  - subst b. cbn. intuition.
  - destruct swapped; cbn; intuition.
Qed.

(** X7.  Whatever the order in which the two directories are met,
    [find_image_for_label] raises [FileNotFoundError] exactly when no
    candidate name is a file under the root, none is a file under the
    second directory, and the recursive search takes the pattern of every
    extension and finds nothing for it.  The one other exception it
    raises is the [ValueError] with which [rglob] refuses a pattern made
    from the name of the label file, and only when no candidate name is a
    file in the two directories. *)
Theorem find_image_for_label_not_found (swapped : bool)
    (fs : ExportDetections.FileSystem)
    (runs_dir label_path : ExportDetections.Path) :
  (ExportDetections.find_image_for_label swapped fs runs_dir label_path
   = Raise FileNotFoundError
   <-> no_candidate fs (ExportDetections.stem label_path) runs_dir
       /\ no_candidate fs (ExportDetections.stem label_path)
            (base_dir_of runs_dir label_path)
       /\ (forall ext,
             In ext ExportDetections.IMAGE_EXTENSIONS ->
             ExportDetections.bad_pattern fs
               (String.append (ExportDetections.stem label_path) ext) = false
             /\ ExportDetections.rglob fs runs_dir
                  (String.append (ExportDetections.stem label_path) ext) = []))
  /\ match ExportDetections.find_image_for_label swapped fs runs_dir
            label_path with
     | Ok _ => True
     | Raise e =>
         e = FileNotFoundError
         \/ (e = ValueError
             /\ no_candidate fs (ExportDetections.stem label_path) runs_dir
             /\ no_candidate fs (ExportDetections.stem label_path)
                  (base_dir_of runs_dir label_path)
             /\ exists ext,
                  In ext ExportDetections.IMAGE_EXTENSIONS
                  /\ ExportDetections.bad_pattern fs
                       (String.append (ExportDetections.stem label_path) ext)
                     = true)
     end.
Proof.
  unfold ExportDetections.find_image_for_label. cbv zeta.
  fold (base_dir_of runs_dir label_path).
  pose proof (first_file_None_iff fs (ExportDetections.stem label_path)
                (ExportDetections.set_iter swapped runs_dir
                   (base_dir_of runs_dir label_path))) as FF.
  pose proof (first_rglob_None_iff fs runs_dir
                (ExportDetections.stem label_path)
                ExportDetections.IMAGE_EXTENSIONS) as FR.
  pose proof (first_rglob_raises fs runs_dir
                (ExportDetections.stem label_path)
                ExportDetections.IMAGE_EXTENSIONS) as FE.
  destruct (ExportDetections.first_file _ _ _) as [c|].
  - split; [|exact I]. split; [discriminate|].
    intros (N1 & N2 & _).
    assert (X : Some c = None).
    { apply FF. intros d Hd. apply set_iter_In in Hd.
      destruct Hd as [-> | ->]; assumption. }
    discriminate X.
  - assert (N1 : no_candidate fs (ExportDetections.stem label_path) runs_dir)
      by (apply (proj1 FF eq_refl); apply set_iter_In; now left).
    assert (N2 : no_candidate fs (ExportDetections.stem label_path)
                   (base_dir_of runs_dir label_path))
      by (apply (proj1 FF eq_refl); apply set_iter_In; now right).
    destruct (ExportDetections.first_rglob _ _ _ _) as [[m|] | e];
      cbn [rbind].
    + split; [|exact I]. split; [discriminate|].
      intros (_ & _ & N3).
      assert (X : Ok (Some m) = Ok None) by (now apply FR).
      discriminate X.
    + split; [|now left]. split; [|reflexivity].
      intros _. split; [exact N1|]. split; [exact N2|].
      apply (proj1 FR eq_refl).
    + destruct (FE e eq_refl) as (-> & ext & Hin & B).
      split.
      * split; [discriminate|]. intros (_ & _ & N3).
        destruct (N3 ext Hin) as [B' _]. congruence.
      * right. split; [reflexivity|]. split; [exact N1|]. split; [exact N2|].
        exists ext. split; assumption.
Qed.

(** X8.  The order in which the set of the two directories is met changes
    nothing when the two are the same directory, or when one of them holds
    no candidate: the result can depend on it only when both the root and
    the second directory hold an image of that name. *)
Theorem find_image_for_label_order_irrelevant
    (fs : ExportDetections.FileSystem)
    (runs_dir label_path : ExportDetections.Path) :
  base_dir_of runs_dir label_path = runs_dir
  \/ no_candidate fs (ExportDetections.stem label_path) runs_dir
  \/ no_candidate fs (ExportDetections.stem label_path)
       (base_dir_of runs_dir label_path) ->
  ExportDetections.find_image_for_label true fs runs_dir label_path
  = ExportDetections.find_image_for_label false fs runs_dir label_path.
Proof.
  unfold ExportDetections.find_image_for_label. cbv zeta.
  fold (base_dir_of runs_dir label_path).
  set (base := base_dir_of runs_dir label_path).
  set (st := ExportDetections.stem label_path).
  intros H.
  assert (E : ExportDetections.first_file fs st
                (ExportDetections.set_iter true runs_dir base)
              = ExportDetections.first_file fs st
                  (ExportDetections.set_iter false runs_dir base)).
  { unfold ExportDetections.set_iter, ExportDetections.path_eqb.
    destruct (bool_decide_reflect (runs_dir = base)) as [Eq | NE];
      [reflexivity|].
    destruct H as [Hb | [N | N]].
    - congruence.
    - rewrite (first_file_skip fs st runs_dir [base] N).
      cbn [ExportDetections.first_file].
      apply candidates_None_iff in N. rewrite N.
      now destruct (List.find _ _).
    - rewrite (first_file_skip fs st base [runs_dir] N).
      cbn [ExportDetections.first_file].
      apply candidates_None_iff in N. rewrite N.
      now destruct (List.find _ _). }
  now rewrite E.
Qed.

Lemma find_image_for_label_order_irrelevant_witness :
  ExportDetections.find_image_for_label true
    (ExportDetections.fs_of_files [["runs"; "a.png"]; ["data"; "b.jpg"]])
    ["runs"] ["data"; "labels"; "a.txt"]
  = ExportDetections.find_image_for_label false
      (ExportDetections.fs_of_files [["runs"; "a.png"]; ["data"; "b.jpg"]])
      ["runs"] ["data"; "labels"; "a.txt"].
Proof.
  apply (find_image_for_label_order_irrelevant
           (ExportDetections.fs_of_files [["runs"; "a.png"]; ["data"; "b.jpg"]])
           ["runs"] ["data"; "labels"; "a.txt"]).
  right. right. intros ext Hext. cbn [In ExportDetections.IMAGE_EXTENSIONS] in Hext.
  repeat (destruct Hext as [<- | Hext]; [vm_compute; reflexivity|]).
  destruct Hext.
Defined.

(** X9.  [resolve_labels_dir] returns only directories: the override
    when one is given, else [runs_dir/labels], else an entry of the
    recursive search.  It raises [FileNotFoundError], and nothing else,
    exactly when the override is not a directory or, with no override,
    neither [runs_dir/labels] nor any entry of the search is one; an
    override is never replaced by a search. *)
Theorem resolve_labels_dir_is_directory (is_dir : ExportDetections.Path -> bool)
    (fs : ExportDetections.FileSystem) (runs_dir : ExportDetections.Path)
    (override : option ExportDetections.Path) :
  match resolve_labels_dir is_dir fs runs_dir override with
  | Ok p =>
      is_dir p = true
      /\ match override with
         | Some o => p = o
         | None =>
             p = ExportDetections.joinpath runs_dir "labels"
             \/ (is_dir (ExportDetections.joinpath runs_dir "labels") = false
                 /\ In p (ExportDetections.rglob fs runs_dir "labels"))
         end
  | Raise e =>
      e = FileNotFoundError
      /\ match override with
         | Some o => is_dir o = false
         | None =>
             is_dir (ExportDetections.joinpath runs_dir "labels") = false
             /\ forall p, In p (ExportDetections.rglob fs runs_dir "labels") ->
                          is_dir p = false
         end
  end.
Proof.
  unfold resolve_labels_dir. destruct override as [o|].
  - destruct (is_dir o) eqn:D; split; auto.
  - destruct (is_dir (ExportDetections.joinpath runs_dir "labels")) eqn:D.
    + split; [exact D | now left].
    + destruct (List.find is_dir _) as [p|] eqn:F.
      * apply find_some in F. destruct F as [Hin Hd].
        split; [exact Hd | right; now split].
      * split; [reflexivity|]. split; [reflexivity|].
        now apply find_None_iff.
Qed.

(** ** The order of the label files *)

Section SortedCanonical.

Context {A : Type}.
Variable leb : A -> A -> bool.
Hypothesis leb_total : forall a b, leb a b = true \/ leb b a = true.
Hypothesis leb_trans :
  forall a b c, leb a b = true -> leb b c = true -> leb a c = true.
Hypothesis leb_antisym : forall a b, leb a b = true -> leb b a = true -> a = b.

Lemma insert_asc_perm (x : A) (l : list A) :
  Permutation (insert_asc leb x l) (x :: l).
Proof.
  induction l as [|y l IH]; cbn [insert_asc]; [reflexivity|].
  destruct (leb x y); [reflexivity|].
  rewrite IH. apply perm_swap.
Qed.

Lemma sorted_perm (l : list A) : Permutation (sorted leb l) l.
Proof.
  induction l as [|x l IH]; cbn [sorted fold_right]; [reflexivity|].
  fold (sorted leb l). rewrite insert_asc_perm. now constructor.
Qed.

Lemma insert_asc_comm (x y : A) (l : list A) :
  insert_asc leb x (insert_asc leb y l) = insert_asc leb y (insert_asc leb x l).
Proof.
  induction l as [|z l IH]; cbn [insert_asc].
  - destruct (leb x y) eqn:Exy, (leb y x) eqn:Eyx; try reflexivity.
    + now rewrite (leb_antisym x y Exy Eyx).
    + destruct (leb_total x y); congruence.
  - destruct (leb y z) eqn:Eyz, (leb x z) eqn:Exz; cbn [insert_asc];
      rewrite ?Eyz, ?Exz.
    + destruct (leb x y) eqn:Exy, (leb y x) eqn:Eyx; try reflexivity.
      * now rewrite (leb_antisym x y Exy Eyx).
      * destruct (leb_total x y); congruence.
    + destruct (leb x y) eqn:Exy; [|reflexivity].
      rewrite (leb_trans x y z Exy Eyz) in Exz. discriminate Exz.
    + destruct (leb y x) eqn:Eyx; [|reflexivity].
      rewrite (leb_trans y x z Eyx Exz) in Eyz. discriminate Eyz.
    + now rewrite IH.
Qed.

(** Sorting gives the same list for every arrangement of the input. *)
Lemma sorted_canonical (l l' : list A) :
  Permutation l l' -> sorted leb l = sorted leb l'.
Proof.
  induction 1 as [| x l l' P IH | x y l | l l' l'' P1 IH1 P2 IH2].
  - reflexivity.
  - cbn [sorted fold_right]. fold (sorted leb l) (sorted leb l').
    now rewrite IH.
  - cbn [sorted fold_right]. apply insert_asc_comm.
  - congruence.
Qed.

End SortedCanonical.

Lemma string_compare_antisym (a b : string) :
  String_as_OT.compare b a = CompOpp (String_as_OT.compare a b).
Proof.
  destruct (String_as_OT.compare_spec a b) as [E | L | G]; cbn [CompOpp].
  - rewrite E. apply string_compare_refl.
  - destruct (String_as_OT.compare_spec b a) as [E' | L' | G'];
      [| |reflexivity].
    + rewrite E' in L. now apply (StrictOrder_Irreflexive a) in L.
    + exfalso. apply (StrictOrder_Irreflexive a).
      eapply (StrictOrder_Transitive a b a); eassumption.
  - exact G.
Qed.

Lemma path_compare_eq (p q : ExportDetections.Path) :
  path_compare p q = Eq -> p = q.
Proof.
  revert q. induction p as [|a p IH]; intros [|b q]; cbn [path_compare];
    try discriminate; [reflexivity|].
  destruct (String_as_OT.compare_spec a b) as [E | _ | _]; try discriminate.
  intros H. f_equal; [exact E | now apply IH].
Qed.

Lemma path_compare_antisym (p q : ExportDetections.Path) :
  path_compare q p = CompOpp (path_compare p q).
Proof.
  revert q. induction p as [|a p IH]; intros [|b q]; cbn [path_compare];
    try reflexivity.
  rewrite (string_compare_antisym a b).
  destruct (String_as_OT.compare a b); cbn [CompOpp]; [apply IH | |];
    reflexivity.
Qed.

Lemma path_compare_lt_trans (p q r : ExportDetections.Path) :
  path_compare p q = Lt -> path_compare q r = Lt -> path_compare p r = Lt.
Proof.
  revert q r. induction p as [|a p IH]; intros [|b q] [|c r];
    cbn [path_compare]; try discriminate; try reflexivity.
  destruct (String_as_OT.compare_spec a b) as [E1 | L1 | G1];
    try discriminate;
    destruct (String_as_OT.compare_spec b c) as [E2 | L2 | G2];
    try discriminate; intros H1 H2.
  - rewrite E1, E2, string_compare_refl. eapply IH; eassumption.
  - rewrite E1. unfold String_as_OT.lt in L2. now rewrite L2.
  - rewrite <- E2. unfold String_as_OT.lt in L1. now rewrite L1.
  - assert (L : String_as_OT.lt a c)
      by (eapply (StrictOrder_Transitive a b c); eassumption).
    unfold String_as_OT.lt in L. now rewrite L.
Qed.

Lemma path_leb_total (p q : ExportDetections.Path) :
  path_leb p q = true \/ path_leb q p = true.
Proof.
  unfold path_leb. rewrite (path_compare_antisym p q).
  destruct (path_compare p q); cbn; auto.
Qed.

Lemma path_leb_antisym (p q : ExportDetections.Path) :
  path_leb p q = true -> path_leb q p = true -> p = q.
Proof.
  unfold path_leb. rewrite (path_compare_antisym p q).
  destruct (path_compare p q) eqn:C; cbn; try discriminate.
  intros _ _. now apply path_compare_eq.
Qed.

Lemma path_leb_trans (p q r : ExportDetections.Path) :
  path_leb p q = true -> path_leb q r = true -> path_leb p r = true.
Proof.
  unfold path_leb.
  destruct (path_compare p q) eqn:C1; try discriminate;
    destruct (path_compare q r) eqn:C2; try discriminate; intros _ _.
  - apply path_compare_eq in C1, C2. subst.
    destruct (path_compare r r) eqn:C; try reflexivity.
    pose proof (path_compare_antisym r r) as X. rewrite C in X.
    discriminate X.
  - apply path_compare_eq in C1. subst. now rewrite C2.
  - apply path_compare_eq in C2. subst. now rewrite C1.
  - now rewrite (path_compare_lt_trans p q r C1 C2).
Qed.

(** X10.  The label files come out in one fixed order: two walks of the
    labels directory that list the same [.txt] files in different orders
    give the same sequence.  No file is lost or added by the sort. *)
Theorem iter_label_files_walk_order (fs1 fs2 : ExportDetections.FileSystem)
    (labels_dir : ExportDetections.Path) :
  Permutation (ExportDetections.rglob fs1 labels_dir "*.txt")
    (ExportDetections.rglob fs2 labels_dir "*.txt") ->
  iter_label_files fs1 labels_dir = iter_label_files fs2 labels_dir
  /\ Permutation (iter_label_files fs1 labels_dir)
       (ExportDetections.rglob fs1 labels_dir "*.txt").
Proof.
  intros P. unfold iter_label_files. split.
  - apply sorted_canonical;
      [exact path_leb_total | exact path_leb_trans | exact path_leb_antisym
      | exact P].
  - apply sorted_perm.
Qed.

Lemma iter_label_files_walk_order_witness :
  iter_label_files
    (ExportDetections.mkFileSystem (fun _ => false)
       (fun _ _ => [["runs"; "labels"; "b.txt"]; ["runs"; "labels"; "a.txt"]]) (fun _ => false))
    ["runs"; "labels"]
  = iter_label_files
      (ExportDetections.mkFileSystem (fun _ => false)
         (fun _ _ => [["runs"; "labels"; "a.txt"]; ["runs"; "labels"; "b.txt"]]) (fun _ => false))
      ["runs"; "labels"]
  /\ Permutation
       (iter_label_files
          (ExportDetections.mkFileSystem (fun _ => false)
             (fun _ _ =>
                [["runs"; "labels"; "b.txt"]; ["runs"; "labels"; "a.txt"]])
                (fun _ => false))
          ["runs"; "labels"])
       [["runs"; "labels"; "b.txt"]; ["runs"; "labels"; "a.txt"]].
Proof.
  apply (iter_label_files_walk_order
           (ExportDetections.mkFileSystem (fun _ => false)
              (fun _ _ =>
                 [["runs"; "labels"; "b.txt"]; ["runs"; "labels"; "a.txt"]])
                 (fun _ => false))
           (ExportDetections.mkFileSystem (fun _ => false)
              (fun _ _ =>
                 [["runs"; "labels"; "a.txt"]; ["runs"; "labels"; "b.txt"]])
                 (fun _ => false))
           ["runs"; "labels"]).
  cbn [ExportDetections.rglob]. apply perm_swap.
Defined.

(** ** The class names *)

Lemma lstrip_length (s : string) :
  (String.length (lstrip s) <= String.length s)%nat.
Proof.
  induction s as [|c s IH]; cbn [lstrip]; [reflexivity|].
  destruct (is_space c); cbn [String.length]; lia.
Qed.

Lemma lstrip_idempotent (s : string) : lstrip (lstrip s) = lstrip s.
Proof.
  induction s as [|c s IH]; [reflexivity|].
  cbn [lstrip]. destruct (is_space c) eqn:E; [exact IH|].
  cbn [lstrip]. now rewrite E.
Qed.

Lemma rstrip_idempotent (s : string) : rstrip (rstrip s) = rstrip s.
Proof.
  induction s as [|c s IH]; [reflexivity|].
  cbn [rstrip]. destruct (is_space c && is_empty (rstrip s)) eqn:E;
    [reflexivity|].
  cbn [rstrip]. now rewrite IH, E.
Qed.

Lemma lstrip_rstrip_fixed (s : string) :
  lstrip s = s -> lstrip (rstrip s) = rstrip s.
Proof.
  destruct s as [|c s]; [reflexivity|].
  cbn [lstrip]. destruct (is_space c) eqn:E.
  - intros H. pose proof (lstrip_length s) as L.
    rewrite H in L. cbn [String.length] in L. lia.
  - intros _. cbn [rstrip]. rewrite E. cbn [andb lstrip]. now rewrite E.
Qed.

(** Stripping twice is stripping once. *)
Lemma py_strip_idempotent (s : string) : py_strip (py_strip s) = py_strip s.
Proof.
  unfold py_strip.
  rewrite (lstrip_rstrip_fixed (lstrip s) (lstrip_idempotent s)).
  apply rstrip_idempotent.
Qed.

(** X11.  [load_class_names] never returns an empty table: it gives
    [None] when no path is given or the file has no name, and otherwise a
    non-empty list whose entries are the non-blank lines of the file, in
    order, each one stripped and not empty.  It raises
    [FileNotFoundError] when a path is given that is not a file, and what
    reading the file raises when it is one; it raises nothing else. *)
Theorem load_class_names_table (fs : ExportDetections.FileSystem)
    (read_lines : ExportDetections.Path -> result (list string))
    (path : option ExportDetections.Path) :
  match load_class_names fs read_lines path with
  | Ok (Some names) =>
      names <> []
      /\ Forall (fun n => n <> EmptyString /\ py_strip n = n) names
      /\ exists p lines,
           path = Some p /\ ExportDetections.is_file fs p = true
           /\ read_lines p = Ok lines
           /\ names
              = map py_strip
                  (List.filter (fun line => negb (is_empty (py_strip line)))
                     lines)
  | Ok None =>
      path = None
      \/ exists p lines,
           path = Some p /\ ExportDetections.is_file fs p = true
           /\ read_lines p = Ok lines
           /\ Forall (fun line => py_strip line = EmptyString) lines
  | Raise e =>
      exists p,
        path = Some p
        /\ ((ExportDetections.is_file fs p = false /\ e = FileNotFoundError)
            \/ (ExportDetections.is_file fs p = true
                /\ read_lines p = Raise e))
  end.
Proof.
  unfold load_class_names. destruct path as [p|]; [|now left].
  destruct (ExportDetections.is_file fs p) eqn:F; [|eauto].
  destruct (read_lines p) as [lines | e] eqn:RL; cbn [rbind]; [|eauto].
  set (kept := List.filter (fun line => negb (is_empty (py_strip line)))
                 lines).
  assert (K : List.Forall (fun line => py_strip line <> EmptyString) kept).
  { apply List.Forall_forall. intros line Hl. apply filter_In in Hl.
    destruct Hl as [_ Hl]. destruct (py_strip line); [discriminate Hl|].
    discriminate. }
  destruct (map py_strip kept) as [|n names] eqn:M.
  - right. exists p, lines. split; [reflexivity|]. split; [exact F|].
    split; [exact RL|].
    apply List.Forall_forall. intros line Hl.
    destruct (py_strip line) as [|c r] eqn:S; [reflexivity|].
    assert (Hk : In line kept).
    { apply filter_In. split; [exact Hl|]. now rewrite S. }
    destruct kept; [destruct Hk | discriminate M].
  - split; [discriminate|]. split.
    + rewrite <- M. apply List.Forall_forall. intros x Hx.
      apply in_map_iff in Hx. destruct Hx as (line & <- & Hl).
      rewrite List.Forall_forall in K.
      split; [now apply K | apply py_strip_idempotent].
    + exists p, lines. split; [reflexivity|]. split; [exact F|].
      split; [exact RL | now rewrite <- M].
Qed.

(** ** The loop over the label files *)

Lemma read_detections_within (class_names : option (list string))
    (width height : Z) (raw_lines : list string)
    (ds : list ExportDetections.Detection) :
  0 <= width -> 0 <= height ->
  read_detections class_names width height raw_lines = Ok ds ->
  (List.length ds <= List.length raw_lines)%nat
  /\ forall d, In d ds ->
               bbox_within width height (ExportDetections.bbox_pixels d).
Proof.
  intros Hw Hh. revert ds.
  induction raw_lines as [|line more IH]; intros ds.
  - cbn [read_detections]. intros [= <-].
    split; [apply le_n | intros d []].
  - rewrite read_detections_cons.
    destruct (ExportDetections.export_line class_names width height line)
      as [d0 | e] eqn:E.
    + destruct (read_detections class_names width height more) as [ds' | e'];
        cbn [rbind]; [|discriminate].
      intros [= <-]. destruct (IH ds' eq_refl) as [L B].
      split; [cbn [List.length]; lia|].
      intros d [<- | Hd]; [|now apply B].
      eapply export_line_within; eassumption.
    + destruct e; try discriminate.
      intros H. destruct (IH ds H) as [L B].
      split; [cbn [List.length]; lia | exact B].
Qed.

(** X12.  When the images that load have non-negative dimensions, the
    records that the loop of [main] returns are at most one per label file,
    and every detection of a record has its pixel box inside the image of
    that record: [0 <= x1, x2 <= width] and [0 <= y1, y2 <= height]. *)
Theorem export_records_within_image (swapped : ExportDetections.Path -> bool)
    (fs : ExportDetections.FileSystem)
    (imread : ExportDetections.Path -> option (Z * Z))
    (read_lines : ExportDetections.Path -> result (list string))
    (class_names : option (list string)) (runs_dir : ExportDetections.Path)
    (relative_paths : bool) (label_files : list ExportDetections.Path)
    (records : list ImageRecord) :
  (forall p h w, imread p = Some (h, w) -> 0 <= h /\ 0 <= w) ->
  export_records swapped fs imread read_lines class_names runs_dir
    relative_paths label_files = Ok records ->
  (List.length records <= List.length label_files)%nat
  /\ forall r d,
       In r records -> In d (detections r) ->
       bbox_within (width r) (height r) (ExportDetections.bbox_pixels d).
Proof.
  intros Hdim. revert records.
  induction label_files as [|f more IH]; intros records;
    cbn [export_records].
  - intros [= <-]. split; [apply le_0_n | intros r d []].
  - destruct (export_label_file swapped fs imread read_lines class_names
                runs_dir relative_paths f) as [o | e] eqn:E;
      cbn [rbind]; [|discriminate].
    destruct (export_records swapped fs imread read_lines class_names runs_dir
                relative_paths more) as [rest | e'];
      cbn [rbind]; [|discriminate].
    destruct (IH rest eq_refl) as [L B].
    intros [= <-]. destruct o as [r0|];
      [|split; [cbn [List.length]; lia | exact B]].
    split; [cbn [List.length]; lia|].
    intros r d [<- | Hr] Hd; [|now apply (B r d)].
    unfold export_label_file in E.
    destruct (ExportDetections.find_image_for_label _ _ _ _) as [ip | e0];
      [|destruct e0; discriminate E].
    destruct (imread ip) as [[h w]|] eqn:I; [|discriminate E].
    destruct (Hdim ip h w I) as [Hh Hw].
    destruct (read_lines f) as [raw_lines | e3]; cbn [rbind] in E;
      [|discriminate E].
    destruct (read_detections class_names w h raw_lines) as [ds|e1] eqn:R;
      cbn [rbind] in E; [|discriminate E].
    destruct (if relative_paths then relative_to ip runs_dir else Ok ip)
      as [shown | e2]; cbn [rbind] in E; [|discriminate E].
    injection E as <-. cbn [detections width height] in *.
    destruct (read_detections_within class_names w h raw_lines ds Hw Hh R)
      as [_ Bd].
    now apply Bd.
Qed.

Lemma export_records_within_image_witness :
  le (List.length
        [mkImageRecord "a.png" ["a.png"] 100 200
           [ExportDetections.mkDetection 0 None (Some (Finite (8106479329266893 # 9007199254740992)))
              (Finite (1 # 2), Finite (1 # 2),
               Finite (3602879701896397 # 18014398509481984),
               Finite (3602879701896397 # 9007199254740992))
              (40, 60, 60, 140)]])
     (List.length [["runs"; "labels"; "a.txt"]; ["runs"; "labels"; "b.txt"]])
  /\ forall r d,
       In r [mkImageRecord "a.png" ["a.png"] 100 200
               [ExportDetections.mkDetection 0 None (Some (Finite (8106479329266893 # 9007199254740992)))
                  (Finite (1 # 2), Finite (1 # 2),
               Finite (3602879701896397 # 18014398509481984),
               Finite (3602879701896397 # 9007199254740992))
                  (40, 60, 60, 140)]] ->
       In d (detections r) ->
       bbox_within (width r) (height r) (ExportDetections.bbox_pixels d).
Proof.
  apply (export_records_within_image (fun _ => false)
           (ExportDetections.fs_of_files [["runs"; "a.png"]])
           (fun _ => Some (200, 100))
           (fun _ => Ok ["0 0.5 0.5 0.2 0.4 0.9"; ""; "not a label"])
           None ["runs"] true
           [["runs"; "labels"; "a.txt"]; ["runs"; "labels"; "b.txt"]]).
  - intros p h w [= <- <-]. lia.
  - vm_compute. reflexivity.
Defined.

(** ** [main] *)








(** * Further properties of the refiner *)

Lemma refine_record_Some (record : RefineDetections.ImageRecord) (min_conf : pyfloat)
    (allowed_ids : gset Z) (allowed_names : gset string)
    (drop_empty sort_desc_flag : bool) :
  let survivors :=
    List.filter
      (fun det =>
         RefineDetections.detection_passes det min_conf allowed_ids
           allowed_names)
      (RefineDetections.detections record) in
  match RefineDetections.refine_record record min_conf allowed_ids
          allowed_names drop_empty sort_desc_flag with
  | Some r =>
      (drop_empty = true -> survivors <> [])
      /\ RefineDetections.detections r
         = (if sort_desc_flag
            then sort_desc_float RefineDetections.conf_value survivors
            else survivors)
      /\ RefineDetections.image r = RefineDetections.image record
      /\ RefineDetections.image_path r = RefineDetections.image_path record
      /\ RefineDetections.width r = RefineDetections.width record
      /\ RefineDetections.height r = RefineDetections.height record
  | None => drop_empty = true /\ survivors = []
  end.
Proof.
  cbv zeta. unfold RefineDetections.refine_record.
  set (survivors := List.filter _ (RefineDetections.detections record)).
  assert (E : forall l : list RefineDetections.Detection,
             (if sort_desc_flag
              then sort_desc_float RefineDetections.conf_value l else l) = []
             <-> l = []).
  { intros l. destruct sort_desc_flag; [|reflexivity]. split.
    - intros H. apply Permutation_nil.
      rewrite <- H. apply sort_desc_float_perm.
    - now intros ->. }
  destruct drop_empty; cbn [andb].
  - destruct (if sort_desc_flag
              then sort_desc_float RefineDetections.conf_value survivors
              else survivors) as [|d l] eqn:S.
    + split; [reflexivity | now apply E].
    + cbn [RefineDetections.detections RefineDetections.image
             RefineDetections.image_path RefineDetections.width
             RefineDetections.height].
      repeat split; try reflexivity.
      intros _ H. apply E in H. congruence.
  - cbn [RefineDetections.detections RefineDetections.image
           RefineDetections.image_path RefineDetections.width
           RefineDetections.height].
    repeat split; try reflexivity. discriminate.
Qed.

Lemma filter_nonempty_existsb {A : Type} (f : A -> bool) (l : list A) :
  existsb f l = negb (match List.filter f l with [] => true | _ => false end).
Proof.
  induction l as [|x l IH]; [reflexivity|].
  cbn [existsb List.filter]. destruct (f x); [reflexivity | exact IH].
Qed.

(** X14.  [drop_empty] removes exactly the records that keep no
    detection: the number of records returned is the number of input
    records that have a detection passing the filter, or the number of
    input records when [drop_empty] is off; it never exceeds the number of
    input records. *)
Theorem refine_records_count (records : list RefineDetections.ImageRecord)
    (min_conf : pyfloat) (allowed_ids : gset Z) (allowed_names : gset string)
    (drop_empty sort_desc_flag : bool) :
  List.length
    (RefineDetections.refine_records records min_conf allowed_ids
       allowed_names drop_empty sort_desc_flag)
  = List.length
      (List.filter
         (fun record =>
            negb drop_empty
            || existsb
                 (fun det =>
                    RefineDetections.detection_passes det min_conf
                      allowed_ids allowed_names)
                 (RefineDetections.detections record))
         records)
  /\ (List.length
        (RefineDetections.refine_records records min_conf allowed_ids
           allowed_names drop_empty sort_desc_flag)
      <= List.length records)%nat
  /\ List.length
       (RefineDetections.refine_records records min_conf allowed_ids
          allowed_names false sort_desc_flag)
     = List.length records.
Proof.
  assert (C : forall de,
             List.length
               (RefineDetections.refine_records records min_conf allowed_ids
                  allowed_names de sort_desc_flag)
             = List.length
                 (List.filter
                    (fun record =>
                       negb de
                       || existsb
                            (fun det =>
                               RefineDetections.detection_passes det min_conf
                                 allowed_ids allowed_names)
                            (RefineDetections.detections record))
                    records)).
  { intros de. induction records as [|record more IH]; [reflexivity|].
    cbn [RefineDetections.refine_records List.filter].
    pose proof (refine_record_Some record min_conf allowed_ids allowed_names
                  de sort_desc_flag) as R. cbv zeta in R.
    rewrite filter_nonempty_existsb.
    destruct (RefineDetections.refine_record record min_conf allowed_ids
                allowed_names de sort_desc_flag) as [r|].
    - destruct R as [N _].
      assert (K : negb de
                  || negb (match List.filter
                                   (fun det =>
                                      RefineDetections.detection_passes det
                                        min_conf allowed_ids allowed_names)
                                   (RefineDetections.detections record)
                           with [] => true | _ => false end) = true).
      { destruct de; [|reflexivity]. cbn [negb orb].
        destruct (List.filter _ (RefineDetections.detections record)) eqn:Fl;
          [exfalso; now apply N | reflexivity]. }
      rewrite K. cbn [List.length]. now rewrite IH.
    - destruct R as [-> ->]. cbn [negb orb]. exact IH. }
  split; [apply C|]. split.
  - rewrite C. apply filter_length_le.
  - rewrite C. cbn [negb orb]. clear C.
    induction records as [|record more IH]; [reflexivity|].
    cbn [List.filter List.length]. now rewrite IH.
Qed.

(** X15.  With [drop_empty] on, no record of the output is without a
    detection. *)
Theorem refine_records_no_empty_record
    (records : list RefineDetections.ImageRecord)
    (min_conf : pyfloat) (allowed_ids : gset Z) (allowed_names : gset string)
    (sort_desc_flag : bool) (r : RefineDetections.ImageRecord) :
  In r (RefineDetections.refine_records records min_conf allowed_ids
          allowed_names true sort_desc_flag) ->
  RefineDetections.detections r <> [].
Proof.
  induction records as [|record more IH];
    cbn [RefineDetections.refine_records]; [intros []|].
  pose proof (refine_record_Some record min_conf allowed_ids allowed_names
                true sort_desc_flag) as R. cbv zeta in R.
  destruct (RefineDetections.refine_record record min_conf allowed_ids
              allowed_names true sort_desc_flag) as [r0|]; [|exact IH].
  intros [<- | Hr]; [|now apply IH].
  destruct R as (N & -> & _). specialize (N eq_refl).
  destruct sort_desc_flag; [|exact N].
  intros H. apply N. apply Permutation_nil. rewrite <- H.
  apply sort_desc_float_perm.
Qed.

Lemma refine_records_no_empty_record_witness :
  RefineDetections.detections
    (RefineDetections.mkImageRecord (Some "a.jpg") None (Some 10) (Some 10)
       [RefineDetections.mkDetection (Some 5) (Some "Cat") (Some (Finite (8 # 10)))]
       (Some (RefineDetections.mkMeta 1 2 (Finite (1 # 2)) None)))
  <> [].
Proof.
  apply (refine_records_no_empty_record
           [RefineDetections.mkImageRecord (Some "a.jpg") None
              (Some 10) (Some 10)
              [RefineDetections.mkDetection (Some 2) None (Some (Finite (3 # 10)));
               RefineDetections.mkDetection (Some 5) (Some "Cat")
                 (Some (Finite (8 # 10)))]
              None;
            RefineDetections.mkImageRecord (Some "b.jpg") None
              (Some 10) (Some 10)
              [RefineDetections.mkDetection (Some 2) None (Some (Finite (1 # 10)))]
              None]
           (Finite (1 # 2)) ∅ ∅ false).
  vm_compute. left. reflexivity.
Defined.

Lemma refine_records_In (records : list RefineDetections.ImageRecord)
    (min_conf : pyfloat) (allowed_ids : gset Z) (allowed_names : gset string)
    (drop_empty sort_desc_flag : bool) (r : RefineDetections.ImageRecord) :
  In r (RefineDetections.refine_records records min_conf allowed_ids
          allowed_names drop_empty sort_desc_flag)
  <-> exists record,
        In record records
        /\ RefineDetections.refine_record record min_conf allowed_ids
             allowed_names drop_empty sort_desc_flag = Some r.
Proof.
  induction records as [|record more IH];
    cbn [RefineDetections.refine_records].
  - split; [intros [] | intros (x & [] & _)].
  - destruct (RefineDetections.refine_record record min_conf allowed_ids
                allowed_names drop_empty sort_desc_flag) as [r0|] eqn:E.
    + cbn [In]. rewrite IH. split.
      * intros [<- | (x & Hx & Ex)].
        -- exists record. split; [now left | exact E].
        -- exists x. split; [now right | exact Ex].
      * intros (x & [<- | Hx] & Ex); [left; congruence | right; eauto].
    + rewrite IH. split.
      * intros (x & Hx & Ex). exists x. split; [now right | exact Ex].
      * intros (x & [<- | Hx] & Ex); [congruence | eauto].
Qed.

(** X16.  Every refined record comes from an input record whose image
    name it keeps, and its metadata are consistent: [num_detections] is the
    number of detections it holds, [num_original] the number the input
    record held, the first is at most the second, [min_conf_applied] is
    the threshold, and [class_filter] is absent exactly when both filter
    sets are empty. *)
Theorem refine_records_meta (records : list RefineDetections.ImageRecord)
    (min_conf : pyfloat) (allowed_ids : gset Z) (allowed_names : gset string)
    (drop_empty sort_desc_flag : bool) (r : RefineDetections.ImageRecord) :
  In r (RefineDetections.refine_records records min_conf allowed_ids
          allowed_names drop_empty sort_desc_flag) ->
  exists record m,
    In record records
    /\ RefineDetections.meta r = Some m
    /\ RefineDetections.image r = RefineDetections.image record
    /\ RefineDetections.num_detections m
       = Z.of_nat (List.length (RefineDetections.detections r))
    /\ RefineDetections.num_original m
       = Z.of_nat (List.length (RefineDetections.detections record))
    /\ RefineDetections.num_detections m <= RefineDetections.num_original m
    /\ RefineDetections.min_conf_applied m = min_conf
    /\ (RefineDetections.class_filter m = None
        <-> allowed_ids = ∅ /\ allowed_names = ∅).
Proof.
  intros H. apply refine_records_In in H. destruct H as (record & Hin & E).
  unfold RefineDetections.refine_record in E.
  set (survivors :=
         List.filter
           (fun det =>
              RefineDetections.detection_passes det min_conf allowed_ids
                allowed_names)
           (RefineDetections.detections record)) in *.
  assert (L : (List.length
                 (if sort_desc_flag
                  then sort_desc_float RefineDetections.conf_value survivors
                  else survivors)
               <= List.length (RefineDetections.detections record))%nat).
  { assert (L1 : List.length
                   (if sort_desc_flag
                    then sort_desc_float RefineDetections.conf_value survivors
                    else survivors) = List.length survivors).
    { destruct sort_desc_flag; [|reflexivity].
      apply Permutation_length, sort_desc_float_perm. }
    rewrite L1. apply filter_length_le. }
  destruct (drop_empty && _); [discriminate E|].
  injection E as <-. exists record. eexists.
  split; [exact Hin|]. split; [reflexivity|].
  cbn [RefineDetections.image RefineDetections.detections
         RefineDetections.num_detections RefineDetections.num_original
         RefineDetections.min_conf_applied RefineDetections.class_filter].
  repeat split; try reflexivity; try lia.
  - destruct (bool_decide_reflect (allowed_ids = ∅)); [assumption|].
    cbn [negb orb]. discriminate.
  - destruct (bool_decide_reflect (allowed_ids = ∅)); cbn [negb orb];
      [|discriminate].
    destruct (bool_decide_reflect (allowed_names = ∅)); [assumption|].
    cbn [negb]. discriminate.
  - intros [-> ->]. rewrite !bool_decide_eq_true_2 by reflexivity.
    reflexivity.
Qed.

Lemma refine_records_meta_witness :
  exists record m,
    In record
      [RefineDetections.mkImageRecord (Some "a.jpg") None (Some 10) (Some 10)
         [RefineDetections.mkDetection (Some 2) None (Some (Finite (3 # 10)));
          RefineDetections.mkDetection (Some 5) (Some "Cat") (Some (Finite (8 # 10)))]
         None]
    /\ RefineDetections.meta
         (RefineDetections.mkImageRecord (Some "a.jpg") None (Some 10)
            (Some 10)
            [RefineDetections.mkDetection (Some 5) (Some "Cat")
               (Some (Finite (8 # 10)))]
            (Some (RefineDetections.mkMeta 1 2 (Finite (1 # 2)) None)))
       = Some m
    /\ RefineDetections.image
         (RefineDetections.mkImageRecord (Some "a.jpg") None (Some 10)
            (Some 10)
            [RefineDetections.mkDetection (Some 5) (Some "Cat")
               (Some (Finite (8 # 10)))]
            (Some (RefineDetections.mkMeta 1 2 (Finite (1 # 2)) None)))
       = RefineDetections.image record
    /\ RefineDetections.num_detections m = Z.of_nat 1
    /\ RefineDetections.num_original m
       = Z.of_nat (List.length (RefineDetections.detections record))
    /\ RefineDetections.num_detections m <= RefineDetections.num_original m
    /\ RefineDetections.min_conf_applied m = Finite (1 # 2)
    /\ (RefineDetections.class_filter m = None
        <-> (∅ : gset Z) = ∅ /\ (∅ : gset string) = ∅).
Proof.
  apply (refine_records_meta
           [RefineDetections.mkImageRecord (Some "a.jpg") None
              (Some 10) (Some 10)
              [RefineDetections.mkDetection (Some 2) None (Some (Finite (3 # 10)));
               RefineDetections.mkDetection (Some 5) (Some "Cat")
                 (Some (Finite (8 # 10)))]
              None]
           (Finite (1 # 2)) ∅ ∅ true false).
  vm_compute. left. reflexivity.
Defined.

(** The float sort puts keys that are all numbers or infinities in
    descending order. *)
Lemma insert_desc_float_sorted {A : Type} (key : A -> pyfloat) (x : A)
    (l : list A) :
  key x <> NaN -> (forall y, In y l -> key y <> NaN) ->
  StronglySorted (fun a b => fle (key b) (key a) = true) l ->
  StronglySorted (fun a b => fle (key b) (key a) = true)
    (insert_desc_float key x l).
Proof.
  intros Hx Hl S. induction S as [|y l S IH F]; cbn [insert_desc_float].
  - repeat constructor.
  - assert (Hy : key y <> NaN) by (apply Hl; now left).
    assert (Hl' : forall z, In z l -> key z <> NaN)
      by (intros z Hz; apply Hl; now right).
    destruct (flt (key x) (key y)) eqn:C.
    + constructor; [now apply IH|].
      apply List.Forall_forall. intros z Hz.
      apply (Permutation_in _ (insert_desc_float_perm key x l)) in Hz.
      destruct Hz as [<- | Hz].
      * destruct (key x) as [a | | |], (key y) as [b | | |];
          try congruence; try discriminate C; try reflexivity.
        cbn [flt fle] in *.
        destruct (Qlt_le_dec a b), (Qlt_le_dec b a);
          try discriminate C; try reflexivity. exfalso. lra.
      * rewrite List.Forall_forall in F. now apply F.
    + apply (flt_false_fle _ _ Hx Hy) in C.
      constructor; [now constructor|].
      apply List.Forall_forall. intros z [<- | Hz]; [exact C|].
      rewrite List.Forall_forall in F.
      eapply fle_trans; [apply F; exact Hz | exact C].
Qed.

Lemma sort_desc_float_sorted {A : Type} (key : A -> pyfloat) (l : list A) :
  (forall y, In y l -> key y <> NaN) ->
  StronglySorted (fun a b => fle (key b) (key a) = true)
    (sort_desc_float key l).
Proof.
  induction l as [|x l IH]; intros H; cbn [sort_desc_float fold_right];
    [constructor|].
  fold (sort_desc_float key l).
  apply insert_desc_float_sorted.
  - apply H. now left.
  - intros y Hy. apply sort_desc_float_In in Hy. apply H. now right.
  - apply IH. intros y Hy. apply H. now right.
Qed.

(** X17.  The detections of a refined record are those of an input
    record that pass the filter, each as often as it passes: in the order
    of the input when [sort_desc] is off; and when it is on and none of
    them has a confidence that is [nan], by descending confidence, a
    missing one counting as 0. *)
Theorem refine_records_detections (records : list RefineDetections.ImageRecord)
    (min_conf : pyfloat) (allowed_ids : gset Z) (allowed_names : gset string)
    (drop_empty sort_desc_flag : bool) (r : RefineDetections.ImageRecord) :
  In r (RefineDetections.refine_records records min_conf allowed_ids
          allowed_names drop_empty sort_desc_flag) ->
  exists record,
    In record records
    /\ Permutation (RefineDetections.detections r)
         (List.filter
            (fun det =>
               RefineDetections.detection_passes det min_conf allowed_ids
                 allowed_names)
            (RefineDetections.detections record))
    /\ if sort_desc_flag
       then (forall d, In d (RefineDetections.detections r) ->
                       RefineDetections.conf_value d <> NaN) ->
            StronglySorted
              (fun a b =>
                 fle (RefineDetections.conf_value b)
                   (RefineDetections.conf_value a) = true)
              (RefineDetections.detections r)
       else RefineDetections.detections r
            = List.filter
                (fun det =>
                   RefineDetections.detection_passes det min_conf allowed_ids
                     allowed_names)
                (RefineDetections.detections record).
Proof.
  intros H. apply refine_records_In in H. destruct H as (record & Hin & E).
  pose proof (refine_record_Some record min_conf allowed_ids allowed_names
                drop_empty sort_desc_flag) as R. cbv zeta in R.
  rewrite E in R. destruct R as (_ & D & _).
  exists record. split; [exact Hin|]. rewrite D.
  destruct sort_desc_flag.
  - split; [apply sort_desc_float_perm|].
    intros Hn. apply sort_desc_float_sorted.
    intros y Hy. apply Hn. now apply sort_desc_float_In.
  - split; reflexivity.
Qed.

Lemma refine_records_detections_witness :
  exists record,
    In record
      [RefineDetections.mkImageRecord (Some "a.jpg") None (Some 10) (Some 10)
         [RefineDetections.mkDetection (Some 2) None (Some (Finite (3 # 10)));
          RefineDetections.mkDetection (Some 7) None None;
          RefineDetections.mkDetection (Some 5) (Some "Cat") (Some PosInf)]
         None]
    /\ Permutation
         [RefineDetections.mkDetection (Some 5) (Some "Cat") (Some PosInf);
          RefineDetections.mkDetection (Some 2) None (Some (Finite (3 # 10)))]
         (List.filter
            (fun det =>
               RefineDetections.detection_passes det (Finite (1 # 10)) ∅ ∅)
            (RefineDetections.detections record))
    /\ ((forall d,
           In d [RefineDetections.mkDetection (Some 5) (Some "Cat")
                   (Some PosInf);
                 RefineDetections.mkDetection (Some 2) None
                   (Some (Finite (3 # 10)))] ->
           RefineDetections.conf_value d <> NaN) ->
        StronglySorted
          (fun a b =>
             fle (RefineDetections.conf_value b)
               (RefineDetections.conf_value a) = true)
          [RefineDetections.mkDetection (Some 5) (Some "Cat") (Some PosInf);
           RefineDetections.mkDetection (Some 2) None
             (Some (Finite (3 # 10)))]).
Proof.
  apply (refine_records_detections
           [RefineDetections.mkImageRecord (Some "a.jpg") None
              (Some 10) (Some 10)
              [RefineDetections.mkDetection (Some 2) None
                 (Some (Finite (3 # 10)));
               RefineDetections.mkDetection (Some 7) None None;
               RefineDetections.mkDetection (Some 5) (Some "Cat")
                 (Some PosInf)]
              None]
           (Finite (1 # 10)) ∅ ∅ false true
           (RefineDetections.mkImageRecord (Some "a.jpg") None
              (Some 10) (Some 10)
              [RefineDetections.mkDetection (Some 5) (Some "Cat")
                 (Some PosInf);
               RefineDetections.mkDetection (Some 2) None
                 (Some (Finite (3 # 10)))]
              (Some (RefineDetections.mkMeta 2 3 (Finite (1 # 10)) None)))).
  vm_compute. left. reflexivity.
Defined.

Lemma filter_all {A : Type} (f : A -> bool) (l : list A) :
  (forall x, In x l -> f x = true) -> List.filter f l = l.
Proof.
  induction l as [|x l IH]; intros H; [reflexivity|].
  cbn [List.filter]. rewrite (H x (or_introl eq_refl)).
  f_equal. apply IH. intros y Hy. apply H. now right.
Qed.

(** A list without an ascent is left as it is by the float sort, and the
    float sort leaves no ascent, also where keys are [nan]. *)
Lemma sort_desc_float_fixed {A : Type} (key : A -> pyfloat) (l : list A) :
  no_ascent key l -> sort_desc_float key l = l.
Proof.
  induction l as [|x l IH]; [reflexivity|].
  cbn [no_ascent]. intros [Hx Hl].
  cbn [sort_desc_float fold_right]. fold (sort_desc_float key l).
  rewrite (IH Hl). destruct l as [|y l']; [reflexivity|].
  cbn [insert_desc_float]. now rewrite Hx.
Qed.

Lemma insert_desc_float_no_ascent {A : Type} (key : A -> pyfloat) (x : A)
    (l : list A) :
  no_ascent key l -> no_ascent key (insert_desc_float key x l).
Proof.
  induction l as [|y l IH]; cbn [insert_desc_float]; [cbn; auto|].
  intros N. destruct (flt (key x) (key y)) eqn:C.
  - cbn [no_ascent] in N. destruct N as [Hy Hl]. specialize (IH Hl).
    cbn [no_ascent]. split; [|exact IH].
    destruct l as [|z l']; cbn [insert_desc_float].
    + destruct (key x), (key y); cbn [flt] in *; try discriminate C;
        try reflexivity.
      destruct (Qlt_le_dec q q0), (Qlt_le_dec q0 q);
        try discriminate C; try reflexivity. exfalso. lra.
    + destruct (flt (key x) (key z)); [exact Hy|].
      destruct (key x), (key y); cbn [flt] in *; try discriminate C;
        try reflexivity.
      destruct (Qlt_le_dec q q0), (Qlt_le_dec q0 q);
        try discriminate C; try reflexivity. exfalso. lra.
  - cbn [no_ascent]. split; [exact C|]. exact N.
Qed.

Lemma sort_desc_float_no_ascent {A : Type} (key : A -> pyfloat) (l : list A) :
  no_ascent key (sort_desc_float key l).
Proof.
  induction l as [|x l IH]; [exact I|].
  cbn [sort_desc_float fold_right]. fold (sort_desc_float key l).
  now apply insert_desc_float_no_ascent.
Qed.

(** Refining a refined record changes none of its detections. *)
Lemma refine_record_again (record r : RefineDetections.ImageRecord)
    (min_conf : pyfloat) (allowed_ids : gset Z) (allowed_names : gset string)
    (drop_empty sort_desc_flag : bool) :
  RefineDetections.refine_record record min_conf allowed_ids allowed_names
    drop_empty sort_desc_flag = Some r ->
  exists r',
    RefineDetections.refine_record r min_conf allowed_ids allowed_names
      drop_empty sort_desc_flag = Some r'
    /\ RefineDetections.detections r' = RefineDetections.detections r.
Proof.
  intros E.
  pose proof (refine_record_Some record min_conf allowed_ids allowed_names
                drop_empty sort_desc_flag) as R. cbv zeta in R.
  rewrite E in R. destruct R as (N & D & _).
  set (passes := fun det =>
         RefineDetections.detection_passes det min_conf allowed_ids
           allowed_names) in *.
  assert (P : List.filter passes (RefineDetections.detections r)
              = RefineDetections.detections r).
  { apply filter_all. intros x Hx. rewrite D in Hx.
    assert (Hx' : In x (List.filter passes
                          (RefineDetections.detections record))).
    { destruct sort_desc_flag; [|exact Hx].
      exact (proj1 (sort_desc_float_In RefineDetections.conf_value x _) Hx). }
    apply filter_In in Hx'. apply Hx'. }
  assert (S : (if sort_desc_flag
               then sort_desc_float RefineDetections.conf_value
                      (RefineDetections.detections r)
               else RefineDetections.detections r)
              = RefineDetections.detections r).
  { destruct sort_desc_flag eqn:Fl; [|reflexivity].
    apply sort_desc_float_fixed. rewrite D. apply sort_desc_float_no_ascent. }
  pose proof (refine_record_Some r min_conf allowed_ids allowed_names
                drop_empty sort_desc_flag) as R2. cbv zeta in R2.
  fold passes in R2. rewrite P in R2.
  destruct (RefineDetections.refine_record r min_conf allowed_ids
              allowed_names drop_empty sort_desc_flag) as [r'|].
  - exists r'. split; [reflexivity|].
    destruct R2 as (_ & D2 & _). now rewrite D2, S.
  - destruct R2 as [De Em]. exfalso. subst drop_empty.
    rewrite Em in D. specialize (N eq_refl).
    destruct sort_desc_flag.
    + apply N. apply Permutation_nil. rewrite D. apply sort_desc_float_perm.
    + apply N. now rewrite <- D.
Qed.

(** X18.  Refining is idempotent on the detections: refining the output
    again with the same threshold, filter sets and flags gives records
    with the same detections, in the same order.  When [sort_desc] is on
    this is stated for records without a confidence that is [nan], where
    the sort of Python puts the detections in the one stable descending
    order. *)
Theorem refine_records_idempotent (records : list RefineDetections.ImageRecord)
    (min_conf : pyfloat) (allowed_ids : gset Z) (allowed_names : gset string)
    (drop_empty sort_desc_flag : bool) :
  (sort_desc_flag = true ->
   forall record d,
     In record records -> In d (RefineDetections.detections record) ->
     RefineDetections.conf_value d <> NaN) ->
  map RefineDetections.detections
    (RefineDetections.refine_records
       (RefineDetections.refine_records records min_conf allowed_ids
          allowed_names drop_empty sort_desc_flag)
       min_conf allowed_ids allowed_names drop_empty sort_desc_flag)
  = map RefineDetections.detections
      (RefineDetections.refine_records records min_conf allowed_ids
         allowed_names drop_empty sort_desc_flag).
Proof.
  intros _.
  assert (G : forall l,
             (forall r, In r l ->
                exists record,
                  RefineDetections.refine_record record min_conf allowed_ids
                    allowed_names drop_empty sort_desc_flag = Some r) ->
             map RefineDetections.detections
               (RefineDetections.refine_records l min_conf allowed_ids
                  allowed_names drop_empty sort_desc_flag)
             = map RefineDetections.detections l).
  { induction l as [|r l IH]; intros H; [reflexivity|].
    cbn [RefineDetections.refine_records].
    destruct (H r (or_introl eq_refl)) as (record & E).
    destruct (refine_record_again record r min_conf allowed_ids allowed_names
                drop_empty sort_desc_flag E) as (r' & -> & D).
    cbn [map]. rewrite D. f_equal. apply IH.
    intros x Hx. apply H. now right. }
  apply G. intros r Hr. apply refine_records_In in Hr.
  destruct Hr as (record & _ & E). eauto.
Qed.

Lemma refine_records_idempotent_witness :
  let records :=
    [RefineDetections.mkImageRecord (Some "a.jpg") None (Some 10) (Some 10)
       [RefineDetections.mkDetection (Some 2) None (Some (Finite (3 # 10)));
        RefineDetections.mkDetection (Some 7) None None;
        RefineDetections.mkDetection (Some 5) (Some "Cat") (Some PosInf)]
       None] in
  map RefineDetections.detections
    (RefineDetections.refine_records
       (RefineDetections.refine_records records (Finite (1 # 10)) ∅ ∅
          true true)
       (Finite (1 # 10)) ∅ ∅ true true)
  = map RefineDetections.detections
      (RefineDetections.refine_records records (Finite (1 # 10)) ∅ ∅
         true true).
Proof.
  cbv zeta. apply refine_records_idempotent.
  intros _ record d [<- | []] [<- | [<- | [<- | []]]]; discriminate.
Defined.

(** ** The class filter *)

Lemma to_lower_idempotent (c : ascii) : to_lower (to_lower c) = to_lower c.
Proof. destruct c as [[] [] [] [] [] [] [] []]; reflexivity. Qed.

Lemma lower_idempotent (s : string) : lower (lower s) = lower s.
Proof.
  induction s as [|c s IH]; [reflexivity|].
  cbn [lower]. now rewrite to_lower_idempotent, IH.
Qed.

Lemma lower_empty (s : string) : lower s = EmptyString -> s = EmptyString.
Proof. destruct s; [reflexivity | discriminate]. Qed.

Lemma is_empty_false (s : string) : is_empty s = false <-> s <> EmptyString.
Proof. destruct s; cbn; split; congruence. Qed.

(** What the loop of [parse_class_filter] adds to the two sets. *)
Lemma class_filter_fold (items : list string) (acc : gset Z * gset string) :
  let res :=
    fold_left
      (fun (acc : gset Z * gset string) item =>
         let (ids, names) := acc in
         let token := py_strip item in
         if is_empty token then acc
         else
           match RefineDetections.py_int_of_str token with
           | Ok n => ({[ n ]} ∪ ids, names)
           | Raise _ => (ids, {[ lower token ]} ∪ names)
           end)
      items acc in
  (forall i,
      i ∈ fst res
      <-> i ∈ fst acc
          \/ exists item,
               In item items /\ py_strip item <> EmptyString
               /\ RefineDetections.py_int_of_str (py_strip item) = Ok i)
  /\ (forall n,
        n ∈ snd res
        <-> n ∈ snd acc
            \/ exists item,
                 In item items /\ py_strip item <> EmptyString
                 /\ (exists e,
                       RefineDetections.py_int_of_str (py_strip item) = Raise e)
                 /\ n = lower (py_strip item)).
Proof.
  revert acc. induction items as [|item items IH]; intros acc.
  - cbn. split; intros x; split; auto; intros [H | (y & [] & _)]; exact H.
  - cbn [fold_left]. cbv zeta.
    match goal with
    | |- context [fold_left ?f items ?a] => set (acc' := a); specialize (IH acc')
    end.
    cbv zeta in IH. destruct IH as [IHi IHn].
    assert (A : (forall i,
                    i ∈ fst acc'
                    <-> i ∈ fst acc
                        \/ (py_strip item <> EmptyString
                            /\ RefineDetections.py_int_of_str (py_strip item)
                               = Ok i))
                /\ (forall n,
                      n ∈ snd acc'
                      <-> n ∈ snd acc
                          \/ (py_strip item <> EmptyString
                              /\ (exists e,
                                    RefineDetections.py_int_of_str
                                      (py_strip item) = Raise e)
                              /\ n = lower (py_strip item)))).
    { subst acc'. destruct acc as [ids names].
      destruct (is_empty (py_strip item)) eqn:Em.
      - assert (py_strip item = EmptyString)
          by (destruct (py_strip item); [reflexivity | discriminate Em]).
        split; intros x; split; auto; intros [H' | [N _]]; auto; contradiction.
      - apply is_empty_false in Em.
        destruct (RefineDetections.py_int_of_str (py_strip item))
          as [k | e] eqn:P; cbn [fst snd].
        + split; intros x; rewrite ?elem_of_union, ?elem_of_singleton.
          * split; [intros [-> | H'] | intros [H' | [_ [= ->]]]]; auto.
          * split; [auto | intros [H' | (_ & (e & He) & _)]];
              [exact H' | discriminate He].
        + split; intros x; rewrite ?elem_of_union, ?elem_of_singleton.
          * split; [auto | intros [H' | [_ He]]];
              [exact H' | discriminate He].
          * split; [intros [-> | H'] | intros [H' | (_ & _ & ->)]]; eauto. }
    destruct A as [Ai An].
    split; intros x.
    + rewrite IHi, Ai. split.
      * intros [[H | [N P]] | (y & Hy & N & P)].
        -- now left.
        -- right. exists item. split; [now left | auto].
        -- right. exists y. split; [now right | auto].
      * intros [H | (y & [<- | Hy] & N & P)].
        -- left. now left.
        -- left. right. auto.
        -- right. exists y. auto.
    + rewrite IHn, An. split.
      * intros [[H | (N & P & E)] | (y & Hy & N & P & E)].
        -- now left.
        -- right. exists item. split; [now left | auto].
        -- right. exists y. split; [now right | auto].
      * intros [H | (y & [<- | Hy] & N & P & E)].
        -- left. now left.
        -- left. right. auto.
        -- right. exists y. auto.
Qed.

Lemma parse_class_filter_spec (spec : string) :
  (forall i,
      i ∈ fst (RefineDetections.parse_class_filter (Some spec))
      <-> exists item,
            In item (RefineDetections.split_comma spec)
            /\ py_strip item <> EmptyString
            /\ RefineDetections.py_int_of_str (py_strip item) = Ok i)
  /\ (forall n,
        n ∈ snd (RefineDetections.parse_class_filter (Some spec))
        <-> exists item,
              In item (RefineDetections.split_comma spec)
              /\ py_strip item <> EmptyString
              /\ (exists e,
                    RefineDetections.py_int_of_str (py_strip item) = Raise e)
              /\ n = lower (py_strip item)).
Proof.
  unfold RefineDetections.parse_class_filter.
  pose proof (class_filter_fold (RefineDetections.split_comma spec) (∅, ∅))
    as F. cbv zeta in F. destruct F as [Fi Fn].
  split; intros x.
  - rewrite Fi. cbn [fst]. split; [intros [H | H] | auto]; [|exact H].
    now apply not_elem_of_empty in H.
  - rewrite Fn. cbn [snd]. split; [intros [H | H] | auto]; [|exact H].
    now apply not_elem_of_empty in H.
Qed.

(** X19.  [parse_class_filter] gives two empty sets when no
    specification is given.  Otherwise the id-set holds exactly the
    integers that [int()] reads from the non-blank comma-separated items,
    and the name-set exactly the other non-blank items, stripped and
    lower-cased; so every name of the set is lower-case and not empty, and
    neither blank items nor the order or repetition of items matter. *)
Theorem parse_class_filter_members (spec : string) :
  RefineDetections.parse_class_filter None = (∅, ∅)
  /\ (forall i,
        i ∈ fst (RefineDetections.parse_class_filter (Some spec))
        <-> exists item,
              In item (RefineDetections.split_comma spec)
              /\ py_strip item <> EmptyString
              /\ RefineDetections.py_int_of_str (py_strip item) = Ok i)
  /\ (forall n,
        n ∈ snd (RefineDetections.parse_class_filter (Some spec))
        <-> exists item,
              In item (RefineDetections.split_comma spec)
              /\ py_strip item <> EmptyString
              /\ (exists e,
                    RefineDetections.py_int_of_str (py_strip item) = Raise e)
              /\ n = lower (py_strip item))
  /\ (forall n,
        n ∈ snd (RefineDetections.parse_class_filter (Some spec)) ->
        lower n = n /\ n <> EmptyString).
Proof.
  destruct (parse_class_filter_spec spec) as [Hi Hn].
  split; [reflexivity|]. split; [exact Hi|]. split; [exact Hn|].
  intros n H. apply Hn in H. destruct H as (item & _ & N & _ & ->).
  split; [apply lower_idempotent|].
  intros E. apply N. now apply lower_empty.
Qed.

Lemma parse_class_filter_members_witness :
  lower "dog" = "dog" /\ "dog" <> EmptyString.
Proof.
  apply (proj2 (proj2 (proj2 (parse_class_filter_members "2, DOG ,,cat")))).
  vm_compute. reflexivity.
Defined.

(** X20.  Name matching ignores case and surrounding blanks: a detection
    whose confidence does not compare below the threshold passes the
    filter parsed from a specification as soon as its class name,
    lower-cased, equals the lower-cased text of a non-blank item of the
    specification that is not an integer. *)
Theorem class_filter_ignores_case (spec item n : string)
    (d : RefineDetections.Detection) (min_conf : pyfloat) :
  In item (RefineDetections.split_comma spec) ->
  py_strip item <> EmptyString ->
  (exists e, RefineDetections.py_int_of_str (py_strip item) = Raise e) ->
  RefineDetections.class_name d = Some n ->
  lower n = lower (py_strip item) ->
  flt (RefineDetections.conf_value d) min_conf = false ->
  RefineDetections.detection_passes d min_conf
    (fst (RefineDetections.parse_class_filter (Some spec)))
    (snd (RefineDetections.parse_class_filter (Some spec))) = true.
Proof.
  intros Hin Hne Hint Hname Hlow Hconf.
  apply detection_passes_spec. split; [exact Hconf|].
  right. right. exists n. split; [exact Hname|].
  apply (proj2 (parse_class_filter_spec spec)).
  exists item. repeat split; assumption.
Qed.

Lemma class_filter_ignores_case_witness :
  RefineDetections.detection_passes
    (RefineDetections.mkDetection (Some 5) (Some "Dog") None) (Finite 0)
    (fst (RefineDetections.parse_class_filter (Some "2, DOG ,,cat")))
    (snd (RefineDetections.parse_class_filter (Some "2, DOG ,,cat"))) = true.
Proof.
  apply (class_filter_ignores_case "2, DOG ,,cat" " DOG " "Dog"
           (RefineDetections.mkDetection (Some 5) (Some "Dog") None)
           (Finite 0)).
  - vm_compute. right. left. reflexivity.
  - vm_compute. discriminate.
  - exists ValueError. vm_compute. reflexivity.
  - reflexivity.
  - vm_compute. reflexivity.
  - vm_compute. reflexivity.
Defined.

(** * Further properties of the summariser *)

Lemma insert_key_length (k : DetectionSummary.GroupKey)
    (ks : list DetectionSummary.GroupKey) :
  (List.length (DetectionSummary.insert_key k ks) <= S (List.length ks))%nat.
Proof.
  induction ks as [|k' ks IH]; cbn [DetectionSummary.insert_key List.length].
  - apply le_n.
  - destruct (DetectionSummary.key_compare k k'); cbn [List.length]; lia.
Qed.

Lemma build_dataframe_nil (records : list DetectionSummary.ImageRecord) :
  DetectionSummary.build_dataframe records = []
  <-> forall record,
        In record records -> DetectionSummary.rec_detections record = [].
Proof.
  unfold DetectionSummary.build_dataframe.
  induction records as [|record records IH]; cbn [flat_map].
  - split; [intros _ r [] | reflexivity].
  - split.
    + intros E. apply app_eq_nil in E. destruct E as [E1 E2].
      intros r [<- | Hr].
      * destruct (DetectionSummary.rec_detections record); [reflexivity|].
        discriminate E1.
      * now apply IH.
    + intros H. rewrite (H record (or_introl eq_refl)). cbn [map app].
      apply IH. intros r Hr. apply H. now right.
Qed.

Section SummaryRows.

Variable show_id : option Z -> string.
Variable mean : list Q -> Q.

Lemma group_keys_length (df : list DetectionSummary.Row) :
  (List.length (DetectionSummary.group_keys show_id df) <= List.length df)%nat.
Proof.
  induction df as [|r df IH]; cbn [DetectionSummary.group_keys fold_right].
  - apply le_n.
  - fold (DetectionSummary.group_keys show_id df).
    pose proof (insert_key_length (DetectionSummary.key_of show_id r)
                  (DetectionSummary.group_keys show_id df)).
    cbn [List.length]. lia.
Qed.

Lemma summarise_length (df : list DetectionSummary.Row)
    (sort_by : DetectionSummary.SortKey) :
  List.length (DetectionSummary.summarise show_id mean df sort_by)
  = List.length (DetectionSummary.group_keys show_id df).
Proof.
  rewrite (Permutation_length (summarise_perm show_id mean df sort_by)).
  apply length_map.
Qed.

Lemma summarise_nil (df : list DetectionSummary.Row)
    (sort_by : DetectionSummary.SortKey) :
  DetectionSummary.summarise show_id mean df sort_by = [] <-> df = [].
Proof.
  split; [|intros ->; reflexivity].
  intros E. destruct df as [|r df]; [reflexivity|].
  pose proof (summarise_length (r :: df) sort_by) as L.
  rewrite E in L. cbn [List.length] in L.
  assert (In (DetectionSummary.key_of show_id r)
            (DetectionSummary.group_keys show_id (r :: df))) as Hin.
  { apply group_keys_In. exists r. split; [now left | reflexivity]. }
  destruct (DetectionSummary.group_keys show_id (r :: df));
    [destruct Hin | discriminate L].
Qed.

Lemma group_of_length (df : list DetectionSummary.Row)
    (k : DetectionSummary.GroupKey) :
  (List.length (DetectionSummary.group_of show_id df k) <= List.length df)%nat.
Proof.
  unfold DetectionSummary.group_of.
  induction df as [|r df IH]; cbn [List.filter List.length]; [apply le_n|].
  destruct (DetectionSummary.key_eqb _ k); cbn [List.length]; lia.
Qed.

Lemma group_of_In (df : list DetectionSummary.Row)
    (k : DetectionSummary.GroupKey) (r : DetectionSummary.Row) :
  In r (DetectionSummary.group_of show_id df k)
  <-> In r df /\ DetectionSummary.key_of show_id r = k.
Proof.
  unfold DetectionSummary.group_of. rewrite filter_In, key_eqb_eq. reflexivity.
Qed.

Lemma group_of_key_nonempty (df : list DetectionSummary.Row)
    (k : DetectionSummary.GroupKey) :
  In k (DetectionSummary.group_keys show_id df) ->
  DetectionSummary.group_of show_id df k <> [].
Proof.
  intros Hk E. apply group_keys_In in Hk. destruct Hk as (r & Hr & Hkey).
  assert (In r (DetectionSummary.group_of show_id df k)) as Hin
      by (apply group_of_In; auto).
  rewrite E in Hin. destruct Hin.
Qed.

Lemma summarise_row (df : list DetectionSummary.Row)
    (sort_by : DetectionSummary.SortKey) (s : DetectionSummary.SummaryRow) :
  In s (DetectionSummary.summarise show_id mean df sort_by) ->
  In (DetectionSummary.row_key s) (DetectionSummary.group_keys show_id df)
  /\ s = DetectionSummary.aggregate show_id mean df (DetectionSummary.row_key s).
Proof.
  intros Hs. apply (Permutation_in _ (summarise_perm show_id mean df sort_by)) in Hs.
  apply in_map_iff in Hs. destruct Hs as (k & <- & Hk).
  rewrite row_key_aggregate. auto.
Qed.

End SummaryRows.

(** What the running maximum of [max_of] ends with. *)
Lemma max_fold (rest : list DetectionSummary.Row) (m0 : Q) :
  let m :=
    fold_left
      (fun m r' =>
         if Qltb m (DetectionSummary.confidence r')
         then DetectionSummary.confidence r' else m)
      rest m0 in
  (m = m0 \/ exists r, In r rest /\ DetectionSummary.confidence r = m)
  /\ (m0 <= m)%Q
  /\ forall r, In r rest -> (DetectionSummary.confidence r <= m)%Q.
Proof.
  cbv zeta. revert m0.
  induction rest as [|a rest IH]; intros m0; cbn [fold_left].
  - split; [now left|]. split; [lra | intros r []].
  - match goal with
    | |- context [fold_left ?f rest ?x] => set (m1 := x)
    end.
    destruct (IH m1) as (Hat & Hle & Hall).
    assert (B : (m0 <= m1)%Q /\ (DetectionSummary.confidence a <= m1)%Q
                /\ (m1 = m0 \/ m1 = DetectionSummary.confidence a)).
    { subst m1. destruct (Qltb m0 (DetectionSummary.confidence a)) eqn:C.
      - apply Qltb_true in C. repeat split; [lra | lra | now right].
      - apply Qltb_false in C. repeat split; [lra | lra | now left]. }
    destruct B as (B0 & Ba & Bm).
    split; [|split].
    + destruct Hat as [E | (r & Hr & E)].
      * destruct Bm as [Bm | Bm].
        -- left. now rewrite E.
        -- right. exists a. split; [now left | now rewrite E].
      * right. exists r. split; [now right | exact E].
    + lra.
    + intros r [<- | Hr]; [lra | now apply Hall].
Qed.

Lemma max_of_spec (g : list DetectionSummary.Row) :
  g <> [] ->
  (exists r, In r g
             /\ DetectionSummary.confidence r = DetectionSummary.max_of g)
  /\ forall r, In r g ->
               (DetectionSummary.confidence r <= DetectionSummary.max_of g)%Q.
Proof.
  destruct g as [|a rest]; [congruence|]. intros _.
  unfold DetectionSummary.max_of.
  destruct (max_fold rest (DetectionSummary.confidence a)) as (Hat & Hle & Hall).
  cbv zeta in *. split.
  - destruct Hat as [E | (r & Hr & E)].
    + exists a. split; [now left | now rewrite E].
    + exists r. split; [now right | exact E].
  - intros r [<- | Hr]; [exact Hle | now apply Hall].
Qed.

(** X21.  The summary of the records is empty exactly when no record has a
    detection; it never has more rows than there are detections; and
    every row counts at least one detection, at most all of them. *)
Theorem summarise_rows_count (show_id : option Z -> string)
    (mean : list Q -> Q) (records : list DetectionSummary.ImageRecord)
    (sort_by : DetectionSummary.SortKey) :
  let summary :=
    DetectionSummary.summarise show_id mean
      (DetectionSummary.build_dataframe records) sort_by in
  (summary = []
   <-> forall record,
         In record records -> DetectionSummary.rec_detections record = [])
  /\ (List.length summary <= total_detections records)%nat
  /\ (forall s,
        In s summary ->
        1 <= DetectionSummary.num_detections s
          <= Z.of_nat (total_detections records)).
Proof.
  cbv zeta. split; [|split].
  - rewrite summarise_nil. apply build_dataframe_nil.
  - rewrite summarise_length, <- build_dataframe_length.
    apply group_keys_length.
  - intros s Hs. apply summarise_row in Hs. destruct Hs as [Hk ->].
    cbn [DetectionSummary.aggregate DetectionSummary.num_detections].
    pose proof (group_of_key_nonempty show_id _ _ Hk) as Hne.
    pose proof (group_of_length show_id
                  (DetectionSummary.build_dataframe records)
                  (DetectionSummary.row_key s)) as Hl.
    rewrite build_dataframe_length in Hl.
    destruct (DetectionSummary.group_of show_id
                (DetectionSummary.build_dataframe records)
                (DetectionSummary.row_key s)); [congruence|].
    cbn [List.length] in *. lia.
Qed.

(** X22.  The [max_confidence] of a row of the summary is the confidence
    of one of the rows of its group in the frame, and no row of the group
    has a higher one. *)
Theorem summarise_max_attained (show_id : option Z -> string)
    (mean : list Q -> Q) (df : list DetectionSummary.Row) (sort_by : DetectionSummary.SortKey)
    (s : DetectionSummary.SummaryRow) :
  In s (DetectionSummary.summarise show_id mean df sort_by) ->
  (exists r,
      In r df
      /\ DetectionSummary.key_of show_id r = DetectionSummary.row_key s
      /\ DetectionSummary.confidence r = DetectionSummary.max_confidence s)
  /\ (forall r,
        In r df ->
        DetectionSummary.key_of show_id r = DetectionSummary.row_key s ->
        (DetectionSummary.confidence r
         <= DetectionSummary.max_confidence s)%Q).
Proof.
  intros Hs. apply summarise_row in Hs. destruct Hs as [Hk E].
  pose proof (group_of_key_nonempty show_id _ _ Hk) as Hne.
  destruct (max_of_spec _ Hne) as [(r & Hr & Er) Hall].
  assert (M : DetectionSummary.max_confidence s
              = DetectionSummary.max_of
                  (DetectionSummary.group_of show_id df
                     (DetectionSummary.row_key s))).
  { rewrite E at 1. reflexivity. }
  rewrite M. split.
  - exists r. apply group_of_In in Hr. destruct Hr as [Hr Hkey].
    repeat split; assumption.
  - intros r' Hr' Hkey. apply Hall. apply group_of_In. auto.
Qed.

Lemma summarise_max_attained_witness :
  let df :=
    [DetectionSummary.mkRow (Some "a.jpg") (Some 1) (Some "dog") (1 # 2);
     DetectionSummary.mkRow (Some "a.jpg") (Some 0) (Some "cat") (1 # 4);
     DetectionSummary.mkRow (Some "b.jpg") (Some 1) (Some "dog") (3 # 4)] in
  let s := DetectionSummary.mkSummaryRow "dog" (Some 1) 2 (10 # 16) (3 # 4) in
  (exists r,
      In r df
      /\ DetectionSummary.key_of DetectionSummary.show_int_id r
         = DetectionSummary.row_key s
      /\ DetectionSummary.confidence r = DetectionSummary.max_confidence s)
  /\ (forall r,
        In r df ->
        DetectionSummary.key_of DetectionSummary.show_int_id r
        = DetectionSummary.row_key s ->
        (DetectionSummary.confidence r
         <= DetectionSummary.max_confidence s)%Q).
Proof.
  cbv zeta.
  apply (summarise_max_attained DetectionSummary.show_int_id
           DetectionSummary.exact_mean _ DetectionSummary.by_max_confidence).
  vm_compute. left. reflexivity.
Defined.

(** X23.  The [sort_by] choice only reorders the summary: the summaries of
    one frame for two choices hold the same rows. *)
Theorem summarise_sort_key_only_reorders (show_id : option Z -> string)
    (mean : list Q -> Q) (df : list DetectionSummary.Row)
    (sort_by sort_by' : DetectionSummary.SortKey) :
  Permutation (DetectionSummary.summarise show_id mean df sort_by)
    (DetectionSummary.summarise show_id mean df sort_by').
Proof.
  rewrite (summarise_perm show_id mean df sort_by).
  symmetry. apply summarise_perm.
Qed.

Lemma summarise_rows_count_witness :
  1 <= DetectionSummary.num_detections
         (DetectionSummary.mkSummaryRow "dog" (Some 1) 2 (10 # 16) (3 # 4))
    <= 3.
Proof.
  apply (proj2 (proj2
           (summarise_rows_count DetectionSummary.show_int_id
              DetectionSummary.exact_mean
              [DetectionSummary.mkImageRecord (Some "a.jpg")
                 [DetectionSummary.mkDetection (Some 1) (Some "dog")
                    (Some (1 # 2));
                  DetectionSummary.mkDetection (Some 0) (Some "cat")
                    (Some (1 # 4))];
               DetectionSummary.mkImageRecord (Some "b.jpg")
                 [DetectionSummary.mkDetection (Some 1) (Some "dog")
                    (Some (3 # 4))]]
              DetectionSummary.by_max_confidence))).
  vm_compute. left. reflexivity.
Defined.

(** * The scripts of chapters 1 and 2 *)

(** ** The blur kernel and the scale *)

Lemma kernel_check (kernel : Z) :
  (kernel <=? 0) || (kernel mod 2 =? 0) = false
  <-> exists m, 0 <= m /\ kernel = 2 * m + 1.
Proof.
  rewrite orb_false_iff, Z.leb_gt, Z.eqb_neq. split.
  - intros [Hpos Hodd]. exists (kernel / 2).
    pose proof (Z.mod_pos_bound kernel 2 ltac:(lia)).
    pose proof (Z.div_mod kernel 2 ltac:(lia)).
    split; [apply Z.div_pos; lia | lia].
  - intros (m & Hm & ->). split; [lia|].
    Z.div_mod_to_equations. lia.
Qed.

Lemma py_int_of_str_raises (s : string) (e : exn) :
  RefineDetections.py_int_of_str s = Raise e -> e = ValueError.
Proof.
  unfold RefineDetections.py_int_of_str.
  destruct (sign (py_strip s)) as [neg body].
  destruct (digitpart 0 body) as [[[n k] [|c rest]]|]; congruence.
Qed.

Lemma scale_check (scale : pyfloat) :
  flt (Finite 0) scale && fle scale (Finite (3 # 2)) = true
  <-> exists q, scale = Finite q /\ (0 < q <= 3 # 2)%Q.
Proof.
  destruct scale as [q| | |]; cbn [flt fle andb].
  - destruct (Qlt_le_dec 0 q) as [L|L], (Qlt_le_dec (3 # 2) q) as [U|U];
      cbn [andb]; split;
      try (intros _; exists q; split; [reflexivity | split; lra]);
      try discriminate;
      intros (q' & [= <-] & H0 & H1); try reflexivity; lra.
  - split; [discriminate | intros (q' & [=] & _)].
  - split; [discriminate | intros (q' & [=] & _)].
  - split; [discriminate | intros (q' & [=] & _)].
Qed.

(** X24.  The two scripts that blur accept the same kernels, the odd
    positive integers [2 * m + 1]: [ensure_kernel] returns the kernel for
    them and raises [ValueError] for all others (so a negative odd number,
    whose remainder by 2 is 1 in Python, is refused by the sign test);
    [main] of check_opencv.py goes on exactly for them; and
    [validate_args] passes exactly when, besides, the scale is a finite
    number with [0 < scale <= 1.5]. *)
Theorem kernel_checks_agree (scale : pyfloat) (kernel : Z) :
  (CheckOpencv.ensure_kernel kernel = Ok kernel
   <-> exists m, 0 <= m /\ kernel = 2 * m + 1)
  /\ (CheckOpencv.ensure_kernel kernel = Ok kernel
      \/ CheckOpencv.ensure_kernel kernel = Raise ValueError)
  /\ (CheckOpencv.main_kernel_check kernel = None
      <-> CheckOpencv.ensure_kernel kernel = Ok kernel)
  /\ (PreprocessPipeline.validate_args scale kernel = Ok tt
      <-> (exists q, scale = Finite q /\ (0 < q <= 3 # 2)%Q)
          /\ CheckOpencv.ensure_kernel kernel = Ok kernel).
Proof.
  unfold CheckOpencv.main_kernel_check, CheckOpencv.ensure_kernel,
    PreprocessPipeline.validate_args.
  rewrite <- kernel_check, <- scale_check.
  destruct ((kernel <=? 0) || (kernel mod 2 =? 0));
    destruct (flt (Finite 0) scale
              && fle scale (Finite (3 # 2)));
    cbn [negb]; repeat split; auto; try discriminate;
    try (intros [? ?]; discriminate).
Qed.

(** ** The thresholds of the edge detector *)

Lemma parse_canny_thresholds_cases (value : string) :
  match PreprocessPipeline.parse_canny_thresholds value with
  | Ok (low, high) =>
      0 <= low < high /\ PreprocessPipeline.two_integers value low high
  | Raise e =>
      e = ValueError
      /\ forall low high,
           PreprocessPipeline.two_integers value low high ->
           ~ 0 <= low < high
  end.
Proof.
  unfold PreprocessPipeline.parse_canny_thresholds,
    PreprocessPipeline.two_integers.
  destruct (RefineDetections.split_comma value)
    as [|a [|b [|c l]]] eqn:S;
    try (split; [reflexivity|];
         intros low high (a' & b' & E & _); discriminate E).
  destruct (RefineDetections.py_int_of_str (py_strip a)) as [low|e] eqn:Pa;
    cbn [rbind].
  - destruct (RefineDetections.py_int_of_str (py_strip b)) as [high|e] eqn:Pb;
      cbn [rbind].
    + destruct ((low <? 0) || (high <? 0) || (low >=? high)) eqn:C.
      * split; [reflexivity|].
        intros low' high' (a' & b' & [= <- <-] & Ea & Eb).
        rewrite Pa in Ea. rewrite Pb in Eb.
        injection Ea as <-. injection Eb as <-.
        rewrite !orb_true_iff, !Z.ltb_lt, Z.geb_le in C. lia.
      * rewrite !orb_false_iff, !Z.ltb_ge in C.
        destruct C as [[C1 C2] C3].
        assert (low < high).
        { destruct (Z.geb_spec low high) as [G|G]; [discriminate C3 | lia]. }
        split; [lia|]. exists a, b. auto.
    + pose proof (py_int_of_str_raises _ _ Pb) as ->. split; [reflexivity|].
      intros low' high' (a' & b' & [= <- <-] & Ea & Eb).
      rewrite Pb in Eb. discriminate Eb.
  - pose proof (py_int_of_str_raises _ _ Pa) as ->. split; [reflexivity|].
    intros low' high' (a' & b' & [= <- <-] & Ea & Eb).
    rewrite Pa in Ea. discriminate Ea.
Qed.

(** X25.  [parse_canny_thresholds] returns a pair exactly when the text is
    two comma-separated items that [int()] reads and that satisfy
    [0 <= low < high], and the pair is the one read; in every other case
    it raises [ValueError] and nothing else. *)
Theorem parse_canny_thresholds_outcome (value : string) :
  match PreprocessPipeline.parse_canny_thresholds value with
  | Ok (low, high) =>
      0 <= low < high /\ PreprocessPipeline.two_integers value low high
  | Raise e =>
      e = ValueError
      /\ forall low high,
           PreprocessPipeline.two_integers value low high ->
           ~ 0 <= low < high
  end.
Proof. exact (parse_canny_thresholds_cases value). Qed.

(** X26.  The argument checks of [main] of preprocess_pipeline.py never
    let an exception out: either both checks pass and [main] goes on with
    thresholds [0 <= low < high] read from the text, a finite scale in
    [(0, 1.5]] and an odd positive kernel, or [main] returns 1. *)
Theorem main_arguments_status (scale : pyfloat) (blur_kernel : Z)
    (canny_thresholds : string) :
  PreprocessPipeline.main_arguments scale blur_kernel canny_thresholds
  = Ok (inl 1)
  \/ exists low high,
       PreprocessPipeline.main_arguments scale blur_kernel canny_thresholds
       = Ok (inr (low, high))
       /\ (exists q, scale = Finite q /\ (0 < q <= 3 # 2)%Q)
       /\ (exists m, 0 <= m /\ blur_kernel = 2 * m + 1)
       /\ 0 <= low < high
       /\ PreprocessPipeline.two_integers canny_thresholds low high.
Proof.
  unfold PreprocessPipeline.main_arguments, PreprocessPipeline.validate_args.
  destruct (flt (Finite 0) scale
            && fle scale (Finite (3 # 2))) eqn:Sc;
    cbn [negb]; [|now left].
  destruct ((blur_kernel <=? 0) || (blur_kernel mod 2 =? 0)) eqn:K;
    [now left|].
  cbn [rbind].
  pose proof (parse_canny_thresholds_cases canny_thresholds) as P.
  destruct (PreprocessPipeline.parse_canny_thresholds canny_thresholds)
    as [[low high]|e].
  - right. exists low, high. destruct P as [B T].
    split; [reflexivity|].
    split; [now apply scale_check|].
    split; [now apply kernel_check|]. auto.
  - destruct P as [-> _]. now left.
Qed.

(** ** The box of image_annotation.py *)

Lemma parse_bbox_cases (value : string) :
  match ImageAnnotation.parse_bbox (Some value) with
  | inr (Some (x1, y1, x2, y2)) =>
      x1 < x2 /\ y1 < y2
      /\ ImageAnnotation.four_integers value (x1, y1, x2, y2)
  | inr None => False
  | inl (ImageAnnotation.ArgumentTypeError message) =>
      (message = "--bbox must be four integers separated by commas."%string
       /\ forall b, ~ ImageAnnotation.four_integers value b)
      \/ (message = "Bounding box must satisfy x1 < x2 and y1 < y2."%string
          /\ exists x1 y1 x2 y2,
               ImageAnnotation.four_integers value (x1, y1, x2, y2)
               /\ (x2 <= x1 \/ y2 <= y1))
  | inl (ImageAnnotation.Uncaught _) => False
  end.
Proof.
  unfold ImageAnnotation.parse_bbox, ImageAnnotation.four_integers.
  destruct (RefineDetections.split_comma value)
    as [|a [|b [|c [|d [|e l]]]]] eqn:S;
    try (left; split; [reflexivity|];
         intros [[[x1 y1] x2] y2] (a' & b' & c' & d' & E & _);
         discriminate E).
  destruct (RefineDetections.py_int_of_str (py_strip a)) as [x1|e] eqn:Pa;
    cbn [rbind];
    [|pose proof (py_int_of_str_raises _ _ Pa) as ->;
      left; split; [reflexivity|];
      intros [[[x1 y1] x2] y2] (a' & b' & c' & d' & [= <- <- <- <-] & E & _);
      rewrite Pa in E; discriminate E].
  destruct (RefineDetections.py_int_of_str (py_strip b)) as [y1|e] eqn:Pb;
    cbn [rbind];
    [|pose proof (py_int_of_str_raises _ _ Pb) as ->;
      left; split; [reflexivity|];
      intros [[[x1' y1] x2] y2]
             (a' & b' & c' & d' & [= <- <- <- <-] & _ & E & _);
      rewrite Pb in E; discriminate E].
  destruct (RefineDetections.py_int_of_str (py_strip c)) as [x2|e] eqn:Pc;
    cbn [rbind];
    [|pose proof (py_int_of_str_raises _ _ Pc) as ->;
      left; split; [reflexivity|];
      intros [[[x1' y1'] x2] y2]
             (a' & b' & c' & d' & [= <- <- <- <-] & _ & _ & E & _);
      rewrite Pc in E; discriminate E].
  destruct (RefineDetections.py_int_of_str (py_strip d)) as [y2|e] eqn:Pd;
    cbn [rbind];
    [|pose proof (py_int_of_str_raises _ _ Pd) as ->;
      left; split; [reflexivity|];
      intros [[[x1' y1'] x2'] y2]
             (a' & b' & c' & d' & [= <- <- <- <-] & _ & _ & _ & E);
      rewrite Pd in E; discriminate E].
  destruct ((x1 >=? x2) || (y1 >=? y2)) eqn:C.
  - right. split; [reflexivity|]. exists x1, y1, x2, y2.
    split; [exists a, b, c, d; auto 6|].
    rewrite orb_true_iff, !Z.geb_le in C. lia.
  - rewrite orb_false_iff in C. destruct C as [C1 C2].
    destruct (Z.geb_spec x1 x2) as [G1|G1]; [discriminate C1|].
    destruct (Z.geb_spec y1 y2) as [G2|G2]; [discriminate C2|].
    split; [lia|]. split; [lia|]. exists a, b, c, d. auto 6.
Qed.

Lemma parse_bbox_ordered (value : option string)
    (bbox : option ImageAnnotation.Box) :
  ImageAnnotation.parse_bbox value = inr bbox ->
  match bbox with
  | Some (x1, y1, x2, y2) => x1 < x2 /\ y1 < y2
  | None => value = None
  end.
Proof.
  destruct value as [value|].
  - pose proof (parse_bbox_cases value) as P. intros E. rewrite E in P.
    destruct bbox as [[[[x1 y1] x2] y2]|]; [|destruct P].
    destruct P as (H1 & H2 & _). auto.
  - cbn. intros [= <-]. reflexivity.
Qed.

(** X27.  [parse_bbox] gives no box when no text is given.  On a text it
    returns a box exactly when the text is four comma-separated items that
    [int()] reads with [x1 < x2] and [y1 < y2] (negative coordinates
    included); otherwise it fails with an [ArgumentTypeError], whose
    message tells a text that is not four integers from a box that is out
    of order; no other exception leaves it. *)
Theorem parse_bbox_outcome (value : string) :
  ImageAnnotation.parse_bbox None = inr None
  /\ match ImageAnnotation.parse_bbox (Some value) with
     | inr (Some (x1, y1, x2, y2)) =>
         x1 < x2 /\ y1 < y2
         /\ ImageAnnotation.four_integers value (x1, y1, x2, y2)
     | inr None => False
     | inl (ImageAnnotation.ArgumentTypeError message) =>
         (message = "--bbox must be four integers separated by commas."%string
          /\ forall b, ~ ImageAnnotation.four_integers value b)
         \/ (message = "Bounding box must satisfy x1 < x2 and y1 < y2."%string
             /\ exists x1 y1 x2 y2,
                  ImageAnnotation.four_integers value (x1, y1, x2, y2)
                  /\ (x2 <= x1 \/ y2 <= y1))
     | inl (ImageAnnotation.Uncaught _) => False
     end.
Proof. split; [reflexivity | exact (parse_bbox_cases value)]. Qed.

Lemma pyfloat_nan_dec (m : pyfloat) : m = NaN \/ m <> NaN.
Proof. destruct m; [right | right | right | left]; congruence. Qed.

Lemma margin_ratio_clamped (m : pyfloat) :
  m <> NaN ->
  exists r,
    py_min (py_max m (Finite 0)) (Finite (2 # 5)) = Finite r
    /\ (0 <= r <= 2 # 5)%Q.
Proof.
  intros Hm. destruct m as [q| | |]; [| | |congruence].
  - unfold py_min, py_max, fgt. cbn [flt].
    destruct (Qlt_le_dec q 0) as [L|L]; cbn [flt].
    + destruct (Qlt_le_dec (2 # 5) 0) as [U|U];
        [exfalso; revert U; unfold Qlt; cbn; lia|].
      exists 0%Q. split; [reflexivity | split; [lra | exact U]].
    + destruct (Qlt_le_dec (2 # 5) q) as [U|U].
      * exists (2 # 5). split; [reflexivity | split; lra].
      * exists q. split; [reflexivity | split; lra].
  - exists (2 # 5). split; [reflexivity | split; lra].
  - exists 0%Q. split; [reflexivity | split; lra].
Qed.

(** [int()] of a share of at most two fifths of a length. *)
Lemma margin_bounds (w : Z) (r : Q) :
  0 <= w -> (0 <= r <= 2 # 5)%Q ->
  exists x,
    py_int (fmul (of_int w) (Finite r)) = Ok x /\ 0 <= x /\ 5 * x <= 2 * w.
Proof.
  intros Hw [Hr0 Hr1]. cbn [of_int fmul py_int].
  eexists. split; [reflexivity|].
  assert (HW : (0 <= inject_Z w)%Q) by (rewrite (Zle_Qle 0 w) in Hw; exact Hw).
  assert (Hq0 : (0 <= inject_Z w * r)%Q) by (now apply Qmult_le_0_compat).
  assert (Hq1 : (inject_Z w * r <= (2 # 5) * inject_Z w)%Q).
  { rewrite (Qmult_comm (inject_Z w) r). now apply Qmult_le_compat_r. }
  set (W := inject_Z w) in *. set (q := (W * r)%Q) in *. clearbody q.
  assert (T : Z.quot (Qnum q) (Zpos (Qden q)) = Qfloor q).
  { destruct q as [n d]. cbn [Qnum Qden Qfloor].
    apply Z.quot_div_nonneg; [|lia].
    revert Hq0. unfold Qle. cbn. lia. }
  rewrite T.
  pose proof (Qfloor_le q) as F.
  assert (F0 : 0 <= Qfloor q).
  { change 0 with (Qfloor 0). now apply Qfloor_resp_le. }
  split; [exact F0|].
  assert (G : (inject_Z (5 * Qfloor q) <= inject_Z (2 * w))%Q).
  { rewrite !inject_Z_mult. fold W.
    change (inject_Z 5) with 5%Q. change (inject_Z 2) with 2%Q.
    set (f := inject_Z (Qfloor q)) in *. lra. }
  rewrite <- Zle_Qle in G. exact G.
Qed.

Lemma compute_box_margins (width height : Z) (m : pyfloat) :
  0 <= width -> 0 <= height -> m <> NaN ->
  exists margin_x margin_y,
    ImageAnnotation.compute_box width height m
    = Ok (margin_x, margin_y, width - margin_x, height - margin_y)
    /\ 0 <= margin_x /\ 5 * margin_x <= 2 * width
    /\ 0 <= margin_y /\ 5 * margin_y <= 2 * height.
Proof.
  intros Hw Hh Hm. unfold ImageAnnotation.compute_box.
  destruct (margin_ratio_clamped m Hm) as (r & -> & Hr).
  destruct (margin_bounds width r Hw Hr) as (mx & -> & X0 & X1).
  destruct (margin_bounds height r Hh Hr) as (my & -> & Y0 & Y1).
  cbn [rbind]. exists mx, my. auto 6.
Qed.

(** X28.  On an image of positive size and for every margin that is not
    [nan] (the infinities included), [compute_box] returns a box that is
    inside the image, not empty, and placed symmetrically: each margin is
    at most two fifths of the side, whatever margin was asked for. *)
Theorem compute_box_inside (width height : Z) (m : pyfloat) :
  0 < width -> 0 < height -> m <> NaN ->
  exists x1 y1 x2 y2,
    ImageAnnotation.compute_box width height m = Ok (x1, y1, x2, y2)
    /\ (0 <= x1 < x2 /\ x2 <= width)
    /\ (0 <= y1 < y2 /\ y2 <= height)
    /\ x1 + x2 = width /\ y1 + y2 = height
    /\ 5 * x1 <= 2 * width /\ 5 * y1 <= 2 * height.
Proof.
  intros Hw Hh Hm.
  destruct (compute_box_margins width height m) as (mx & my & E & ?);
    [lia | lia | exact Hm |].
  exists mx, my, (width - mx), (height - my).
  split; [exact E|]. lia.
Qed.

Lemma compute_box_inside_witness :
  exists x1 y1 x2 y2,
    ImageAnnotation.compute_box 640 480 PosInf = Ok (x1, y1, x2, y2)
    /\ (0 <= x1 < x2 /\ x2 <= 640)
    /\ (0 <= y1 < y2 /\ y2 <= 480)
    /\ x1 + x2 = 640 /\ y1 + y2 = 480
    /\ 5 * x1 <= 2 * 640 /\ 5 * y1 <= 2 * 480.
Proof.
  apply (compute_box_inside 640 480 PosInf); [lia | lia | discriminate].
Defined.

(** X29.  [compute_box] raises exactly when the margin is [nan], and what
    it raises then is the [ValueError] of [int()], which [main] does not
    catch; for every other margin and every size it returns. *)
Theorem compute_box_raises_only_on_nan (width height : Z) (m : pyfloat) :
  ((exists e, ImageAnnotation.compute_box width height m = Raise e)
   <-> m = NaN)
  /\ (forall e,
        ImageAnnotation.compute_box width height m = Raise e ->
        e = ValueError).
Proof.
  destruct (pyfloat_nan_dec m) as [-> | Hm].
  - split; [split; [reflexivity | intros _; exists ValueError; reflexivity]|].
    intros e [= <-]. reflexivity.
  - destruct (margin_ratio_clamped m Hm) as (r & E & _).
    unfold ImageAnnotation.compute_box. rewrite E.
    cbn [of_int fmul py_int rbind].
    split; [split; [intros [e H]; discriminate H | contradiction]|].
    intros e H. discriminate H.
Qed.

(** X30.  The overlay of [main], for a box option that [parse_bbox]
    returned, an image of positive size and, when no box was given, a
    margin that is not [nan]: the box has [x1 < x2] and [y1 < y2], the dot
    is inside it, the label is never above line 24 and the footer never
    below line [height - 12]; and without a given box the box is inside
    the image and the dot is at the centre of the image, whatever the
    margin. *)
Theorem main_overlay_geometry (value : option string)
    (bbox : option ImageAnnotation.Box) (width height : Z) (margin : pyfloat) :
  ImageAnnotation.parse_bbox value = inr bbox ->
  0 < width -> 0 < height ->
  (bbox = None -> margin <> NaN) ->
  exists x1 y1 x2 y2 o,
    ImageAnnotation.main_overlay bbox width height margin = Ok o
    /\ ImageAnnotation.box o = (x1, y1, x2, y2)
    /\ x1 < x2 /\ y1 < y2
    /\ x1 <= fst (ImageAnnotation.center o) < x2
    /\ y1 <= snd (ImageAnnotation.center o) < y2
    /\ fst (ImageAnnotation.label_position o) = x1
    /\ 24 <= snd (ImageAnnotation.label_position o)
    /\ fst (ImageAnnotation.footer_position o) = x1
    /\ snd (ImageAnnotation.footer_position o) <= height - 12
    /\ (bbox = None ->
        ImageAnnotation.center o = (width / 2, height / 2)
        /\ 0 <= x1 /\ x2 <= width /\ 0 <= y1 /\ y2 <= height).
Proof.
  intros P Hw Hh Hm. apply parse_bbox_ordered in P.
  unfold ImageAnnotation.main_overlay.
  destruct bbox as [[[[x1 y1] x2] y2]|].
  - destruct P as [Hx Hy]. cbn [rbind].
    exists x1, y1, x2, y2. eexists. split; [reflexivity|].
    cbn [ImageAnnotation.box ImageAnnotation.center
         ImageAnnotation.label_position ImageAnnotation.footer_position
         fst snd].
    repeat split; try lia; try discriminate;
      Z.div_mod_to_equations; lia.
  - destruct (compute_box_margins width height margin)
      as (mx & my & E & X0 & X1 & Y0 & Y1); [lia | lia | now apply Hm |].
    rewrite E. cbn [rbind].
    exists mx, my, (width - mx), (height - my). eexists.
    split; [reflexivity|].
    cbn [ImageAnnotation.box ImageAnnotation.center
         ImageAnnotation.label_position ImageAnnotation.footer_position
         fst snd].
    replace (mx + (width - mx)) with width by lia.
    replace (my + (height - my)) with height by lia.
    repeat split; try lia; try reflexivity;
      Z.div_mod_to_equations; lia.
Qed.

Lemma main_overlay_geometry_witness :
  exists x1 y1 x2 y2 o,
    ImageAnnotation.main_overlay (Some (-5, 10, 40, 20)) 640 480 NaN = Ok o
    /\ ImageAnnotation.box o = (x1, y1, x2, y2)
    /\ x1 < x2 /\ y1 < y2
    /\ x1 <= fst (ImageAnnotation.center o) < x2
    /\ y1 <= snd (ImageAnnotation.center o) < y2
    /\ fst (ImageAnnotation.label_position o) = x1
    /\ 24 <= snd (ImageAnnotation.label_position o)
    /\ fst (ImageAnnotation.footer_position o) = x1
    /\ snd (ImageAnnotation.footer_position o) <= 480 - 12
    /\ (Some (-5, 10, 40, 20) = None ->
        ImageAnnotation.center o = (640 / 2, 480 / 2)
        /\ 0 <= x1 /\ x2 <= 640 /\ 0 <= y1 /\ y2 <= 480).
Proof.
  apply (main_overlay_geometry (Some " -5, 10,40 ,+20"%string)
           (Some (-5, 10, 40, 20)) 640 480 NaN).
  - vm_compute. reflexivity.
  - lia.
  - lia.
  - discriminate.
Defined.
